(** * Smart Attendance: the attendance record store

    A shallow embedding of [attendance.py] (class [AttendanceTracker]) and the
    properties of its specification.

    Conventions of the embedding.
    - [self.records], a dict of dicts, is a [gmap Z (gmap string string)].
      A method that mutates it is a program of a state and exception monad:
      run on a store it leaves a store, with its result or its exception.
      Where a claim is about the sharing of dicts between the store and its
      callers, the dicts are objects of a heap (module [Aliasing]).
    - A raised exception is a value of [exn]; a method that only reads
      returns a [result].
    - A Python [int] is a [Z]; the interpreter's limit on the number of
      digits [int()] and [str()] convert is not modelled.  A Python [float]
      is a binary64 [float].
    - A Python [str] is a [string] whose characters are the code points below
      256; on that range the regular expression class [\d] is [0-9].
    - The [csv] module is taken at the level of rows: a file is the list of
      rows [csv.reader] yields for it, and [csv.writer.writerow] contributes
      the row of the [str()] renderings of its arguments. *)

From Stdlib Require Import ZArith String Ascii List Bool Lia Floats.
From stdpp Require Import gmap strings list fin_maps sorting.

Open Scope Z_scope.

Set Warnings "-clear-no-such-hyp".

(* ===================================================================== *)
(** * The Python runtime the tracker relies on *)
(* ===================================================================== *)

Module Py.

(** Exceptions, by class.  [ValueError] carries its message. *)
Inductive exn : Type :=
  | ValueError (msg : string)
  | KeyError (key : string)
  | TypeError.

Inductive result (A : Type) : Type :=
  | Ok (a : A)
  | Raise (e : exn).
Arguments Ok {A} a.
Arguments Raise {A} e.

Definition bind {A B} (r : result A) (k : A → result B) : result B :=
  match r with
  | Ok a => k a
  | Raise e => Raise e
  end.

(** The values a caller can hand to the tracker where it expects an [int] or
    a [str]: the loosely typed call sites pass [None], integers and strings. *)
Inductive pyval : Type :=
  | PyNone
  | PyInt (z : Z)
  | PyStr (s : string).

(** ** Characters *)

Definition code (c : ascii) : Z := Z.of_N (N_of_ascii c).
Definition chr (n : Z) : ascii := ascii_of_N (Z.to_N n).

Definition is_digit (c : ascii) : bool := (48 <=? code c) && (code c <=? 57).
Definition digit_val (c : ascii) : Z := code c - 48.
Definition digit_char (n : Z) : ascii := chr (48 + n).

Definition in_range (lo hi : Z) (c : ascii) : bool :=
  is_digit c && (lo <=? digit_val c) && (digit_val c <=? hi).

Definition hyphen : ascii := "-"%char.
Definition underscore : ascii := "_"%char.
Definition blank : ascii := " "%char.

(** ** [int(s)] on a string

    Leading and trailing whitespace is dropped, one sign is allowed, and the
    digits may be grouped by single underscores.  Whitespace is tab, line
    feed, vertical tab, form feed, carriage return and space, and of the
    other code points below 256 the next-line and no-break-space
    characters. *)

Definition int_space (c : ascii) : bool :=
  let n := code c in
  ((9 <=? n) && (n <=? 13)) || (n =? 32) || (n =? 133) || (n =? 160).

Fixpoint skip_space (s : list ascii) : list ascii :=
  match s with
  | c :: s' => if int_space c then skip_space s' else s
  | [] => []
  end.

(** The run of digits and underscores in front of [s], and what follows. *)
Fixpoint digit_run (s : list ascii) : list ascii * list ascii :=
  match s with
  | c :: s' =>
      if is_digit c || Ascii.eqb c underscore
      then let '(run, rest) := digit_run s' in (c :: run, rest)
      else ([], s)
  | [] => ([], [])
  end.

(** A run is well formed when it is not empty, neither starts nor ends with
    an underscore and has no two underscores in a row. *)
Fixpoint run_ok (prev_underscore : bool) (run : list ascii) : bool :=
  match run with
  | [] => negb prev_underscore
  | c :: run' =>
      if Ascii.eqb c underscore
      then negb prev_underscore && run_ok true run'
      else run_ok false run'
  end.

Definition run_step (acc : Z) (c : ascii) : Z :=
  if is_digit c then 10 * acc + digit_val c else acc.

Definition run_value (run : list ascii) : Z := fold_left run_step run 0.

Definition int_of_chars (s : list ascii) : option Z :=
  let s1 := skip_space s in
  let '(sign, s2) :=
    match s1 with
    | c :: s' =>
        if Ascii.eqb c "+"%char then (1, s')
        else if Ascii.eqb c hyphen then (-1, s')
        else (1, s1)
    | [] => (1, s1)
    end in
  let '(run, rest) := digit_run s2 in
  match run with
  | [] => None
  | _ =>
      if run_ok true run && forallb int_space rest
      then Some (sign * run_value run)
      else None
  end.

(** [int(v)]: a [str] is parsed, an [int] is itself, [None] is a type error. *)
Definition int (v : pyval) : result Z :=
  match v with
  | PyInt z => Ok z
  | PyStr s =>
      match int_of_chars (list_ascii_of_string s) with
      | Some z => Ok z
      | None => Raise (ValueError "invalid literal for int() with base 10")
      end
  | PyNone => Raise TypeError
  end.

(** ** [str(n)] on an integer: its decimal digits, with a sign when negative *)

Fixpoint dec_digits (fuel : nat) (n : Z) (acc : list ascii) : list ascii :=
  match fuel with
  | O => acc
  | S fuel' =>
      let acc' := digit_char (n mod 10) :: acc in
      if n <? 10 then acc' else dec_digits fuel' (n / 10) acc'
  end.

Definition dec_of_nonneg (n : Z) : list ascii :=
  dec_digits (S (Z.to_nat (Z.log2 n))) n [].

Definition str_of_int (z : Z) : string :=
  string_of_list_ascii
    (if z <? 0 then hyphen :: dec_of_nonneg (- z) else dec_of_nonneg z).

(** ** [datetime.strptime(s, "%Y-%m-%d")]

    The format compiles to the regular expression
    [(\d\d\d\d)-(1[0-2]|0[1-9]|[1-9])-(3[0-1]|[1-2]\d|0[1-9]|[1-9]| [1-9])],
    matched at the start of the string.  A piece of the expression is a
    function from the input to its matches in the order the matcher tries
    them, each with the input left over. *)

Definition matcher (A : Type) : Type := list ascii → list (A * list ascii).

Definition m_bind {A B} (p : matcher A) (k : A → matcher B) : matcher B :=
  λ s, concat (map (λ '(a, rest), k a rest) (p s)).

Definition m_ret {A} (a : A) : matcher A := λ s, [(a, s)].

Definition m_alt {A} (p q : matcher A) : matcher A := λ s, p s ++ q s.

(** One character of a class. *)
Definition m_char (ok : ascii → bool) : matcher ascii :=
  λ s, match s with
       | c :: s' => if ok c then [(c, s')] else []
       | [] => []
       end.

(** The number two, or four, digits spell. *)
Definition num2 (a b : ascii) : Z := 10 * digit_val a + digit_val b.

Definition num4 (a b c d : ascii) : Z :=
  1000 * digit_val a + 100 * digit_val b + 10 * digit_val c + digit_val d.

(** Two characters of the classes [ok1] and [ok2], read as a number; a blank
    in front counts for nothing, as [int] drops it. *)
Definition m_two (ok1 ok2 : ascii → bool) : matcher Z :=
  m_bind (m_char ok1) (λ a, m_bind (m_char ok2) (λ b,
    m_ret (if is_digit a then num2 a b else digit_val b))).

Definition m_one (ok : ascii → bool) : matcher Z :=
  m_bind (m_char ok) (λ a, m_ret (digit_val a)).

(** [%Y]: [\d\d\d\d]. *)
Definition re_Y : matcher Z :=
  m_bind (m_char is_digit) (λ a, m_bind (m_char is_digit) (λ b,
  m_bind (m_char is_digit) (λ c, m_bind (m_char is_digit) (λ d,
    m_ret (num4 a b c d))))).

(** [%m]: [1[0-2]|0[1-9]|[1-9]]. *)
Definition re_m : matcher Z :=
  m_alt (m_two (in_range 1 1) (in_range 0 2))
 (m_alt (m_two (in_range 0 0) (in_range 1 9))
        (m_one (in_range 1 9))).

(** [%d]: [3[0-1]|[1-2]\d|0[1-9]|[1-9]| [1-9]]. *)
Definition re_d : matcher Z :=
  m_alt (m_two (in_range 3 3) (in_range 0 1))
 (m_alt (m_two (in_range 1 2) is_digit)
 (m_alt (m_two (in_range 0 0) (in_range 1 9))
 (m_alt (m_one (in_range 1 9))
        (m_two (λ c, Ascii.eqb c blank) (in_range 1 9))))).

Definition m_hyphen : matcher ascii := m_char (λ c, Ascii.eqb c hyphen).

Definition re_date : matcher (Z * Z * Z) :=
  m_bind re_Y (λ y, m_bind m_hyphen (λ _,
  m_bind re_m (λ m, m_bind m_hyphen (λ _,
  m_bind re_d (λ d, m_ret (y, m, d)))))).

(** ** Calendar dates *)

Definition is_leap (y : Z) : bool :=
  (y mod 4 =? 0) && (negb (y mod 100 =? 0) || (y mod 400 =? 0)).

Definition days_in_month (y m : Z) : Z :=
  if m =? 2 then (if is_leap y then 29 else 28)
  else if (m =? 4) || (m =? 6) || (m =? 9) || (m =? 11) then 30
  else 31.

(** What the [date] constructor accepts. *)
Definition date_ok (y m d : Z) : bool :=
  (1 <=? y) && (y <=? 9999) && (1 <=? m) && (m <=? 12)
  && (1 <=? d) && (d <=? days_in_month y m).

(** The first match of the expression decides: the whole string must be
    consumed by it, and the fields must form a date. *)
Definition strptime (s : string) : option (Z * Z * Z) :=
  match re_date (list_ascii_of_string s) with
  | (y, m, d, rest) :: _ =>
      match rest with
      | [] => if date_ok y m d then Some (y, m, d) else None
      | _ :: _ => None
      end
  | [] => None
  end.

(** [date.isoformat()]: ["%04d-%02d-%02d"]. *)
Definition pad2 (n : Z) : list ascii :=
  [digit_char (n / 10); digit_char (n mod 10)].

Definition pad4 (n : Z) : list ascii :=
  [digit_char (n / 1000); digit_char (n / 100 mod 10);
   digit_char (n / 10 mod 10); digit_char (n mod 10)].

Definition isoformat (ymd : Z * Z * Z) : string :=
  let '(y, m, d) := ymd in
  string_of_list_ascii (pad4 y ++ hyphen :: pad2 m ++ hyphen :: pad2 d).

(** A canonical date string: ten characters [YYYY-MM-DD], all eight of them
    digits, that name a calendar date. *)
Definition canonical_date (s : string) : bool :=
  match list_ascii_of_string s with
  | [y1; y2; y3; y4; h1; m1; m2; h2; d1; d2] =>
      forallb is_digit [y1; y2; y3; y4; m1; m2; d1; d2]
      && Ascii.eqb h1 hyphen && Ascii.eqb h2 hyphen
      && date_ok (num4 y1 y2 y3 y4) (num2 m1 m2) (num2 d1 d2)
  | _ => false
  end.

(** The spellings of a date that [strptime] takes: the year in four digits;
    the month in two digits, or in one when below ten; the day in two
    digits, or when below ten in one digit or in a blank and one digit. *)
Definition month_spellings (m : Z) : list (list ascii) :=
  pad2 m :: (if m <? 10 then [[digit_char m]] else []).

Definition day_spellings (d : Z) : list (list ascii) :=
  pad2 d :: (if d <? 10 then [[digit_char d]; [blank; digit_char d]] else []).

Definition spells (s : string) (ymd : Z * Z * Z) : Prop :=
  let '(y, m, d) := ymd in
  ∃ ms ds, ms ∈ month_spellings m ∧ ds ∈ day_spellings d ∧
    list_ascii_of_string s = pad4 y ++ hyphen :: ms ++ hyphen :: ds.

(** ** Ordering of strings: [s1 <= s2] compares code points, left to right *)

Definition str_le (s1 s2 : string) : bool := String.leb s1 s2.

End Py.

Import Py.

#[global] Instance result_bind : MBind result := λ A B k r, Py.bind r k.
#[global] Instance result_ret : MRet result := λ A a, Ok a.

(* ===================================================================== *)
(** * The [csv] module, at the level of rows *)
(* ===================================================================== *)

Module Csv.

(** A file, as the rows [csv.reader] yields for it. *)
Definition row : Type := list string.
Definition file : Type := list row.

(** A row of [DictReader]: a dict from the field names to the field, or to
    [None] (the [restval]) where the row is too short.  Fields beyond the
    last name go under the key [None], which no string key reads.

    [d = dict(zip(fieldnames, row))], then [d[key] = restval] for the
    [key]s of [fieldnames[len(row):]]. *)
Definition dict_row (fieldnames r : row) : gmap string pyval :=
  let d := foldl (λ d kv, <[kv.1 := PyStr kv.2]> d) ∅ (zip fieldnames r) in
  foldl (λ d key, <[key := PyNone]> d) d (drop (length r) fieldnames).

(** [DictReader(f)]: the first row names the fields; of the rows after it,
    the empty ones are passed over. *)
Definition DictReader (f : file) : list (gmap string pyval) :=
  match f with
  | [] => []
  | fieldnames :: rows =>
      map (dict_row fieldnames) (filter (λ r, r ≠ []) rows)
  end.

(** [row[key]] *)
Definition subscript (d : gmap string pyval) (key : string) : result pyval :=
  match d !! key with
  | Some v => Ok v
  | None => Raise (KeyError key)
  end.

End Csv.

(* ===================================================================== *)
(** * [class AttendanceTracker] *)
(* ===================================================================== *)

Module AttendanceTracker.

Definition VALID_STATUSES : list string := ["Present"; "Absent"; "Leave"]%string.

(** [self.records : Dict[int, Dict[str, str]]] *)
Abbreviation store := (gmap Z (gmap string string)).

Definition __init__ : store := ∅.

(** [_validate_emp_id]; on success it gives the integer it has checked. *)
Definition _validate_emp_id (emp_id : pyval) : result Z :=
  match emp_id with
  | PyInt z =>
      if z <=? 0 then Raise (ValueError "Invalid employee ID") else Ok z
  | _ => Raise (ValueError "Invalid employee ID")
  end.

(** [_validate_status]; on success it gives the string it has checked. *)
Definition _validate_status (status : pyval) : result string :=
  let msg := ("Status must be one of " ++ String.concat ", " VALID_STATUSES)%string in
  match status with
  | PyStr s =>
      if bool_decide (s ∈ VALID_STATUSES) then Ok s else Raise (ValueError msg)
  | _ => Raise (ValueError msg)
  end.

(** [_validate_date]: a [TypeError] or [ValueError] of [strptime] becomes
    the one [ValueError] of the tracker. *)
Definition _validate_date (date : pyval) : result string :=
  match date with
  | PyStr s =>
      match strptime s with
      | Some ymd => Ok (isoformat ymd)
      | None => Raise (ValueError "Date must be in YYYY-MM-DD format")
      end
  | _ => Raise (ValueError "Date must be in YYYY-MM-DD format")
  end.

(** A method that may change the store and may raise: it is run on a store
    and leaves a store, with its result or its exception. *)
Definition prog (A : Type) : Type := store → store * result A.

#[global] Instance prog_ret : MRet prog := λ A a st, (st, Ok a).
#[global] Instance prog_bind : MBind prog := λ A B k p st,
  match p st with
  | (st', Ok a) => k a st'
  | (st', Raise e) => (st', Raise e)
  end.

Definition lift {A} (r : result A) : prog A := λ st, (st, r).
Definition read : prog store := λ st, (st, Ok st).
Definition write (st' : store) : prog unit := λ _, (st', Ok ()).

(** [self.records.setdefault(emp_id, {})[normalized_date] = status] *)
Definition set_record (emp_id : Z) (normalized_date status : string) : prog unit :=
  st ← read;
  write (<[emp_id := <[normalized_date := status]> (default ∅ (st !! emp_id))]> st).

Definition add_record (emp_id date status : pyval) : prog unit :=
  e ← lift (_validate_emp_id emp_id);
  normalized_date ← lift (_validate_date date);
  s ← lift (_validate_status status);
  set_record e normalized_date s.

(** [_summarize]: every status starts at zero and each record adds one to
    the entry of its status; a status without an entry is a [KeyError]. *)
Definition summary_init : gmap string nat :=
  list_to_map (map (λ status, (status, 0%nat)) VALID_STATUSES).

Definition summary_incr (acc : result (gmap string nat)) (status : string)
  : result (gmap string nat) :=
  summary ← acc ;
  match summary !! status with
  | Some n => Ok (<[status := S n]> summary)
  | None => Raise (KeyError status)
  end.

Definition _summarize (records : gmap string string) : result (gmap string nat) :=
  foldl summary_incr (Ok summary_init) (map_to_list records).*2.

Definition get_summary (st : store) (emp_id : Z) : result (option (gmap string nat)) :=
  match st !! emp_id with
  | None => Ok None
  | Some records => summary ← _summarize records ; Ok (Some summary)
  end.

Definition get_records (st : store) (emp_id : Z) : option (gmap string string) :=
  st !! emp_id.

Definition delete_record (emp_id : Z) (date : pyval) : prog bool :=
  normalized_date ← lift (_validate_date date);
  st ← read;
  match st !! emp_id with
  | Some records =>
      if decide (is_Some (records !! normalized_date)) then
        let records' := delete normalized_date records in
        (if decide (records' = ∅)
         then write (delete emp_id st)
         else write (<[emp_id := records']> st));;
        mret true
      else mret false
  | None => mret false
  end.

(** [int / int] and [float * int]: the counts are far below [2^53], where
    the conversion to a float is exact and the quotient is the float
    division. *)
Definition float_of_nat (n : nat) : float :=
  PrimFloat.of_uint63 (Uint63.of_Z (Z.of_nat n)).

Definition sum_values (summary : gmap string nat) : nat :=
  foldr Nat.add 0%nat (map_to_list summary).*2.

Definition get_attendance_rate (st : store) (emp_id : Z) : result (option float) :=
  match st !! emp_id with
  | None => Ok None
  | Some records =>
      summary ← _summarize records ;
      let total := sum_values summary in
      if decide (total = 0%nat) then Ok (Some 0%float)
      else
        match summary !! "Present"%string with
        | Some present =>
            Ok (Some (PrimFloat.mul
                        (PrimFloat.div (float_of_nat present) (float_of_nat total))
                        (float_of_nat 100)))
        | None => Raise (KeyError "Present")
        end
  end.

(** [filter_by_date_range]: per employee the records with
    [start <= date <= end]; an employee is kept only with a non-empty
    selection. *)
Definition in_date_range (start end_ : string) (item : string * string) : Prop :=
  str_le start item.1 && str_le item.1 end_.

#[global] Instance in_date_range_dec start end_ item :
  Decision (in_date_range start end_ item).
Proof. unfold in_date_range. apply _. Defined.

Definition filter_by_date_range (st : store) (start_date end_date : pyval)
  : result store :=
  start ← _validate_date start_date;
  end_ ← _validate_date end_date;
  Ok (omap (λ records : gmap string string,
              let filtered_records := filter (in_date_range start end_) records in
              if decide (filtered_records = ∅) then None else Some filtered_records)
           st).

(** [sorted(d.items())]: the items in ascending order of their keys. *)
Definition key_le_Z {A} (a b : Z * A) : Prop := a.1 ≤ b.1.
Definition key_le_str {A} (a b : string * A) : Prop := str_le a.1 b.1.

#[global] Instance key_le_Z_dec {A} (a b : Z * A) : Decision (key_le_Z a b).
Proof. unfold key_le_Z. apply _. Defined.
#[global] Instance key_le_str_dec {A} (a b : string * A) : Decision (key_le_str a b).
Proof. unfold key_le_str. apply _. Defined.

Definition sorted_items_Z {A} (d : gmap Z A) : list (Z * A) :=
  merge_sort key_le_Z (map_to_list d).

Definition sorted_items_str {A} (d : gmap string A) : list (string * A) :=
  merge_sort key_le_str (map_to_list d).

(** [export_to_csv]: the header row, then one row per record. *)
Definition csv_header : Csv.row := ["Employee_ID"; "Date"; "Status"]%string.

Definition export_to_csv (st : store) : Csv.file :=
  csv_header ::
  concat (map (λ '(emp_id, records),
                 map (λ '(date, status), [str_of_int emp_id; date; status])
                     (sorted_items_str records))
              (sorted_items_Z st)).

(** The body of the [try] of [import_from_csv], for one row. *)
Definition import_row (row : gmap string pyval) : prog unit :=
  id_field ← lift (Csv.subscript row "Employee_ID");
  emp_id ← lift (int id_field);
  date ← lift (Csv.subscript row "Date");
  status ← lift (Csv.subscript row "Status");
  add_record (PyInt emp_id) date status.

(** The loop of [import_from_csv]: a [ValueError] or [KeyError] skips the
    row; any other exception leaves the loop and the method. *)
Fixpoint import_rows (count : nat) (rows : list (gmap string pyval)) : prog nat :=
  match rows with
  | [] => mret count
  | row :: rows' =>
      λ st,
        match import_row row st with
        | (st', Ok _) => import_rows (S count) rows' st'
        | (st', Raise (ValueError _)) | (st', Raise (KeyError _)) =>
            import_rows count rows' st'
        | (st', Raise e) => (st', Raise e)
        end
  end.

Definition import_from_csv (f : Csv.file) : prog nat :=
  import_rows 0 (Csv.DictReader f).

(** ** Runs of the mutating operations *)

Inductive op : Type :=
  | Add (emp_id date status : pyval)
  | Delete (emp_id : Z) (date : pyval)
  | Import (f : Csv.file).

(** The store an operation leaves behind, also when it raises. *)
Definition apply_op (st : store) (o : op) : store :=
  match o with
  | Add emp_id date status => (add_record emp_id date status st).1
  | Delete emp_id date => (delete_record emp_id date st).1
  | Import f => (import_from_csv f st).1
  end.

Definition reachable (st : store) : Prop :=
  ∃ ops : list op, st = foldl apply_op __init__ ops.

(** The error kinds of the specification are the [ValueError]s of the three
    validations, told apart by their message. *)
Definition InvalidEmployeeId : exn := ValueError "Invalid employee ID".
Definition InvalidDateFormat : exn := ValueError "Date must be in YYYY-MM-DD format".
Definition InvalidStatus : exn :=
  ValueError "Status must be one of Present, Absent, Leave".

(** The arguments the validations let through: a positive integer; a string
    that spells a calendar date; a string of the fixed set of statuses. *)
Definition valid_emp_id (emp_id : pyval) : Prop :=
  ∃ z, emp_id = PyInt z ∧ 0 < z.

Definition valid_date (date : pyval) : Prop :=
  ∃ s y m d, date = PyStr s ∧ date_ok y m d = true ∧ spells s (y, m, d).

Definition valid_status_arg (status : pyval) : Prop :=
  ∃ s, status = PyStr s ∧ s ∈ VALID_STATUSES.

(** The status stored for an (employee, date) pair, if any. *)
Definition status_of (st : store) (emp_id : Z) (date : string) : option string :=
  records ← st !! emp_id; records !! date.

(** The number of records with a given status among an employee's. *)
Definition count_status (records : gmap string string) (status : string) : nat :=
  size (filter (λ item : string * string, item.2 = status) records).

(** The number of records of the store. *)
Definition record_count (st : store) : nat :=
  foldr Nat.add 0%nat (size <$> (map_to_list st).*2).

(** The records of the store as (employee, date, status) items, in the order
    [export_to_csv] writes them, and the row it writes for an item. *)
Definition items (st : store) : list (Z * string * string) :=
  concat (map (λ '(emp_id, records),
                 map (λ '(date, status), (emp_id, date, status))
                     (sorted_items_str records))
              (sorted_items_Z st)).

Definition row_of (item : Z * string * string) : Csv.row :=
  let '(emp_id, date, status) := item in [str_of_int emp_id; date; status].

(** The store after an item is written into it, and the items the
    validations let through. *)
Definition put (st : store) (item : Z * string * string) : store :=
  let '(emp_id, date, status) := item in
  <[emp_id := <[date := status]> (default ∅ (st !! emp_id))]> st.

Definition valid_item (item : Z * string * string) : Prop :=
  let '(emp_id, date, status) := item in
  0 < emp_id ∧ canonical_date date = true ∧ status ∈ VALID_STATUSES.

(** No employee of the store has an empty record map. *)
Definition no_empty (st : store) : Prop :=
  ∀ e records, st !! e = Some records → records ≠ ∅.

(** The invariant of the store. *)
Definition valid_status (s : string) : Prop := s ∈ VALID_STATUSES.

Definition store_inv (st : store) : Prop :=
  ∀ emp_id records, st !! emp_id = Some records →
    0 < emp_id ∧ records ≠ ∅ ∧
    ∀ date status, records !! date = Some status →
      canonical_date date = true ∧ valid_status status.

(** ** The other methods of the tracker *)

(** [get_all_summaries]: the dict comprehension over [self.records.items()];
    a [KeyError] of [_summarize] ends it. *)
Definition get_all_summaries (st : store) : result (gmap Z (gmap string nat)) :=
  foldl (λ acc item,
           summaries ← acc;
           summary ← _summarize item.2;
           Ok (<[item.1 := summary]> summaries))
        (Ok ∅) (map_to_list st).

(** [export_to_json]: the dict [data] that is handed to [json.dump], keyed by
    the [str()] of the employee IDs. *)
Definition export_to_json (st : store) : gmap string (gmap string string) :=
  foldl (λ data item, <[str_of_int item.1 := item.2]> data) ∅ (map_to_list st).

(** ** What a row of an import names *)

(** The item a [DictReader] row stands for, as the body of the [try] of
    [import_from_csv] reads and validates it, or the exception it raises
    there. *)
Definition row_item (row : gmap string pyval) : result (Z * string * string) :=
  id_field ← Csv.subscript row "Employee_ID";
  emp_id ← int id_field;
  date ← Csv.subscript row "Date";
  status ← Csv.subscript row "Status";
  e ← _validate_emp_id (PyInt emp_id);
  normalized_date ← _validate_date date;
  s ← _validate_status status;
  Ok (e, normalized_date, s).

(** The items of the rows of a file that name one, in the order of the rows. *)
Definition imported_items (rows : list (gmap string pyval)) : list (Z * string * string) :=
  omap (λ row, match row_item row with Ok item => Some item | Raise _ => None end) rows.

(** ** Orders the statements use *)

(** The order of the calendar: by year, then by month, then by day. *)
Definition date_le (a b : Z * Z * Z) : Prop :=
  let '(y1, m1, d1) := a in
  let '(y2, m2, d2) := b in
  y1 < y2 ∨ (y1 = y2 ∧ (m1 < m2 ∨ (m1 = m2 ∧ d1 ≤ d2))).

(** An item comes strictly before another one: a smaller employee ID, or the
    same ID and another date that is not above in the order of strings. *)
Definition item_lt (a b : Z * string * string) : Prop :=
  let '(e1, d1, _) := a in
  let '(e2, d2, _) := b in
  e1 < e2 ∨ (e1 = e2 ∧ d1 ≠ d2 ∧ str_le d1 d2 = true).

End AttendanceTracker.

(* ===================================================================== *)
(** * Dicts as shared objects *)
(* ===================================================================== *)

(** Where a claim is about who shares a dict with whom, the dicts are objects
    of a heap, held by reference: [self.records] is the reference of a dict
    whose values are the references of the per-employee dicts. *)

Module Aliasing.

Definition ref : Type := positive.

Record heap : Type := Heap {
  outers : gmap ref (gmap Z ref);
  inners : gmap ref (gmap string string)
}.

(** The mapping a reference to a dict of dicts stands for, the inner dicts
    read off the heap. *)
Definition contents (h : heap) (d : ref) : gmap Z (gmap string string) :=
  omap (λ ri, inners h !! ri) (default ∅ (outers h !! d)).

(** [AttendanceTracker()]: [self.records = {}]. *)
Definition new_tracker (h : heap) : heap * ref :=
  let self := fresh (dom (outers h)) in
  (Heap (<[self := ∅]> (outers h)) (inners h), self).

(** [self.records.setdefault(emp_id, {})[normalized_date] = status] *)
Definition set_record (self : ref) (emp_id : Z) (normalized_date status : string)
    (h : heap) : heap :=
  let records := default ∅ (outers h !! self) in
  match records !! emp_id with
  | Some ri =>
      Heap (outers h)
           (<[ri := <[normalized_date := status]> (default ∅ (inners h !! ri))]> (inners h))
  | None =>
      let ri := fresh (dom (inners h)) in
      Heap (<[self := <[emp_id := ri]> records]> (outers h))
           (<[ri := {[ normalized_date := status ]}]> (inners h))
  end.

(** [get_records]: [self.records.get(emp_id)], the employee's dict itself. *)
Definition get_records (h : heap) (self : ref) (emp_id : Z) : option ref :=
  default ∅ (outers h !! self) !! emp_id.

(** [get_all_records]: [self.records.copy()], a new dict with the keys and
    the values, which are references, of [self.records]. *)
Definition get_all_records (h : heap) (self : ref) : heap * ref :=
  let copy := fresh (dom (outers h)) in
  (Heap (<[copy := default ∅ (outers h !! self)]> (outers h)) (inners h), copy).

(** What a caller can do to a dict of dicts [d] it holds. *)
Inductive mutation : Type :=
  | SetItem (emp_id : Z) (value : gmap string string) (* d[emp_id] = {...} *)
  | SetItemRef (emp_id : Z) (value : ref)             (* d[emp_id] = v *)
  | DelItem (emp_id : Z)                              (* del d[emp_id] *)
  | Clear                                             (* d.clear() *)
  | SetInner (emp_id : Z) (date status : string)      (* d[emp_id][date] = status *)
  | DelInner (emp_id : Z) (date : string)             (* del d[emp_id][date] *)
  | ClearInner (emp_id : Z).                          (* d[emp_id].clear() *)

(** The mutations of the dict [d] itself, as opposed to those of its values. *)
Definition outer_only (m : mutation) : bool :=
  match m with
  | SetItem _ _ | SetItemRef _ _ | DelItem _ | Clear => true
  | SetInner _ _ _ | DelInner _ _ | ClearInner _ => false
  end.

Definition update_inner (h : heap) (d : ref) (emp_id : Z)
    (f : gmap string string → gmap string string) : heap :=
  match default ∅ (outers h !! d) !! emp_id with
  | Some ri =>
      match inners h !! ri with
      | Some records => Heap (outers h) (<[ri := f records]> (inners h))
      | None => h
      end
  | None => h
  end.

(** The heap after a mutation; one that raises ([KeyError]) leaves it as it is. *)
Definition mutate (d : ref) (h : heap) (m : mutation) : heap :=
  let entries := default ∅ (outers h !! d) in
  match m with
  | SetItem emp_id value =>
      let ri := fresh (dom (inners h)) in
      Heap (<[d := <[emp_id := ri]> entries]> (outers h)) (<[ri := value]> (inners h))
  | SetItemRef emp_id value =>
      Heap (<[d := <[emp_id := value]> entries]> (outers h)) (inners h)
  | DelItem emp_id =>
      Heap (<[d := delete emp_id entries]> (outers h)) (inners h)
  | Clear => Heap (<[d := ∅]> (outers h)) (inners h)
  | SetInner emp_id date status => update_inner h d emp_id (<[date := status]>)
  | DelInner emp_id date => update_inner h d emp_id (delete date)
  | ClearInner emp_id => update_inner h d emp_id (λ _, ∅)
  end.

(** The tracker's dict is there, the dicts of its employees are there, and no
    two employees share one. *)
Definition well_formed (h : heap) (self : ref) : Prop :=
  is_Some (outers h !! self)
  ∧ (∀ e ri, get_records h self e = Some ri → is_Some (inners h !! ri))
  ∧ (∀ e1 e2 ri, get_records h self e1 = Some ri →
                 get_records h self e2 = Some ri → e1 = e2).

(** The heap [h] keeps what the tracker's dict and the inner dicts of [h0]
    hold. *)
Definition frames (h0 : heap) (self : ref) (h : heap) : Prop :=
  outers h !! self = outers h0 !! self
  ∧ ∀ ri, is_Some (inners h0 !! ri) → inners h !! ri = inners h0 !! ri.

End Aliasing.

Import AttendanceTracker.

(* ===================================================================== *)
(** * The command line of [app.py] *)
(* ===================================================================== *)

Module Cli.

(** The namespace [parser.parse_args] hands to [main]: the parser requires
    one of three sub-commands, converts [emp_id] with [int], leaves [date] a
    string, and takes for [status] only a string of
    [choices=AttendanceTracker.VALID_STATUSES]; with any other it ends the
    program before [main] has a namespace. *)
Inductive args : Type :=
| command_add (emp_id : Z) (date status : string)
              (choice : bool_decide (status ∈ AttendanceTracker.VALID_STATUSES) = true)
| command_summary (emp_id : Z)
| command_list.

(** What [print] is given: a text, a summary, or an employee ID and a
    summary. *)
Inductive printed : Type :=
| Line (text : string)
| Summary_line (summary : gmap string nat)
| Employee_line (emp_id : Z) (summary : gmap string nat).

(** [main], from the parsed arguments on: what it prints and the code it
    returns, or the exception that ends it.  The tracker is created in
    [main]. *)
Definition main (a : args) : result (list printed * Z) :=
  let tracker := AttendanceTracker.__init__ in
  match a with
  | command_add emp_id date status _ =>
      match AttendanceTracker.add_record (PyInt emp_id) (PyStr date) (PyStr status)
                                         tracker with
      | (_, Ok _) => Ok ([Line "Record added."], 0)
      | (_, Raise x) => Raise x
      end
  | command_summary emp_id =>
      summary ← AttendanceTracker.get_summary tracker emp_id;
      match summary with
      | None => Ok ([Line "No records found for this employee."], 0)
      | Some summary => Ok ([Summary_line summary], 0)
      end
  | command_list =>
      summaries ← AttendanceTracker.get_all_summaries tracker;
      if decide (summaries = ∅)
      then Ok ([Line "No attendance records yet."], 0)
      else Ok (map (λ '(emp_id, summary), Employee_line emp_id summary)
                   (AttendanceTracker.sorted_items_Z summaries), 0)
  end.

End Cli.

(* ===================================================================== *)
(** * The request handlers of [api.py] *)
(* ===================================================================== *)

(** The handlers run on the one tracker of the module: they are programs of
    the monad of the tracker.  A handler returns the dict it hands to
    [jsonify] and the status code.  A JSON body is taken as an object whose
    values are [null], integers or strings; the arguments of a route are
    what the converters of the route yield. *)

Module Api.

(** The dicts the handlers build. *)
Inductive body : Type :=
| Message (message : string)
    (* {"success": True, "message": message} *)
| Failure (error : string)
    (* {"success": False, "error": error} *)
| Failure_of (e : exn)
    (* {"success": False, "error": str(e)} *)
| Employee_records (emp_id : Z) (records : gmap string string)
    (* {"success": True, "emp_id": emp_id, "records": records} *)
| Records (records : gmap Z (gmap string string)).
    (* {"success": True, "records": records} *)

Definition response : Type := body * Z.

(** [try: p except <caught> as e: handler(e)] *)
Definition try_except {A} (p : prog A) (caught : exn → bool) (handler : exn → prog A)
  : prog A :=
  λ st, match p st with
        | (st', Raise e) => if caught e then handler e st' else (st', Raise e)
        | (st', Ok a) => (st', Ok a)
        end.

Definition is_ValueError (e : exn) : bool :=
  match e with ValueError _ => true | _ => false end.

Definition is_KeyError_or_ValueError (e : exn) : bool :=
  match e with KeyError _ | ValueError _ => true | TypeError => false end.

(** [POST /api/records], with the JSON object [data] of the request. *)
Definition add_record (data : gmap string pyval) : prog response :=
  try_except
    (id_field ← lift (Csv.subscript data "emp_id");
     emp_id ← lift (int id_field);
     date ← lift (Csv.subscript data "date");
     status ← lift (Csv.subscript data "status");
     _ ← AttendanceTracker.add_record (PyInt emp_id) date status;
     mret (Message ("Record added for employee " +:+ str_of_int emp_id), 201))
    is_KeyError_or_ValueError
    (λ e, mret (Failure_of e, 400)).

(** [GET /api/records/<int:emp_id>] *)
Definition get_employee_records (emp_id : Z) : prog response :=
  st ← read;
  match AttendanceTracker.get_records st emp_id with
  | None => mret (Failure "Employee not found", 404)
  | Some records => mret (Employee_records emp_id records, 200)
  end.

(** [DELETE /api/records/<int:emp_id>/<string:date>] *)
Definition delete_record (emp_id : Z) (date : string) : prog response :=
  try_except
    (success ← AttendanceTracker.delete_record emp_id (PyStr date);
     if success : bool
     then mret (Message "Record deleted", 200)
     else mret (Failure "Record not found", 404))
    is_ValueError
    (λ e, mret (Failure_of e, 400)).

(** [GET /api/records] *)
Definition get_all_records : prog response :=
  st ← read;
  mret (Records st, 200).

(** [request.args.get(name)]: the value of the parameter, or [None]. *)
Definition args_get (arg : option string) : pyval :=
  match arg with
  | Some s => PyStr s
  | None => PyNone
  end.

(** [not v] *)
Definition not_ (v : pyval) : bool :=
  match v with
  | PyNone => true
  | PyInt z => bool_decide (z = 0)
  | PyStr s => bool_decide (s = EmptyString)
  end.

(** [GET /api/filter], with the two parameters of the query string. *)
Definition filter_records (start_arg end_arg : option string) : prog response :=
  try_except
    (let start_date := args_get start_arg in
     let end_date := args_get end_arg in
     if not_ start_date || not_ end_date
     then mret (Failure "start_date and end_date are required", 400)
     else
       st ← read;
       filtered ← lift (AttendanceTracker.filter_by_date_range st start_date end_date);
       mret (Records filtered, 200))
    is_ValueError
    (λ e, mret (Failure_of e, 400)).

End Api.

(* ===================================================================== *)
(** * Digits and decimal numerals *)
(* ===================================================================== *)

Section digits.

Lemma digit_char_spec (n : Z) :
  0 ≤ n ≤ 9 → is_digit (digit_char n) = true ∧ digit_val (digit_char n) = n.
Proof.
  intros Hn.
  assert (Hcases : n = 0 ∨ n = 1 ∨ n = 2 ∨ n = 3 ∨ n = 4 ∨ n = 5 ∨ n = 6
                   ∨ n = 7 ∨ n = 8 ∨ n = 9) by lia.
  repeat (destruct Hcases as [-> | Hcases]); try subst n; split; reflexivity.
Qed.

Lemma is_digit_char (n : Z) : 0 ≤ n ≤ 9 → is_digit (digit_char n) = true.
Proof. intros. by apply digit_char_spec. Qed.

Lemma digit_val_char (n : Z) : 0 ≤ n ≤ 9 → digit_val (digit_char n) = n.
Proof. intros. by apply digit_char_spec. Qed.

Lemma is_digit_inv (c : ascii) :
  is_digit c = true → 0 ≤ digit_val c ≤ 9 ∧ digit_char (digit_val c) = c.
Proof.
  destruct c as [[] [] [] [] [] [] [] []]; vm_compute; intros H;
    first [ discriminate H | split; [split; discriminate | reflexivity] ].
Qed.

Lemma is_digit_not_underscore (c : ascii) :
  is_digit c = true → Ascii.eqb c underscore = false.
Proof.
  destruct c as [[] [] [] [] [] [] [] []]; vm_compute; intros H;
    first [ discriminate H | reflexivity ].
Qed.

Lemma is_digit_not_space (c : ascii) : is_digit c = true → int_space c = false.
Proof.
  destruct c as [[] [] [] [] [] [] [] []]; vm_compute; intros H;
    first [ discriminate H | reflexivity ].
Qed.

Lemma is_digit_not_sign (c : ascii) :
  is_digit c = true → Ascii.eqb c "+" = false ∧ Ascii.eqb c hyphen = false.
Proof.
  destruct c as [[] [] [] [] [] [] [] []]; vm_compute; intros H;
    first [ discriminate H | split; reflexivity ].
Qed.

End digits.

(* ===================================================================== *)
(** * [int(str(n))] gives [n] back *)
(* ===================================================================== *)

Section int_str.

Lemma dec_digits_Forall (fuel : nat) (n : Z) (acc : list ascii) :
  0 ≤ n → Forall (λ c, is_digit c = true) acc →
  Forall (λ c, is_digit c = true) (dec_digits fuel n acc).
Proof.
  revert n acc. induction fuel as [|fuel IH]; intros n acc Hn Hacc; simpl; [done|].
  assert (Hd : is_digit (digit_char (n mod 10)) = true)
    by (apply is_digit_char; pose proof (Z.mod_pos_bound n 10); lia).
  destruct (n <? 10).
  - by constructor.
  - apply IH; [apply Z.div_pos; lia | by constructor].
Qed.

Lemma dec_digits_value (fuel : nat) (n : Z) (acc : list ascii) :
  0 ≤ n < 2 ^ Z.of_nat fuel →
  fold_left run_step (dec_digits fuel n acc) 0 = fold_left run_step acc n.
Proof.
  revert n acc. induction fuel as [|fuel IH]; intros n acc Hn.
  - simpl in *. by replace n with 0 by lia.
  - cbn [dec_digits].
    assert (Hm : 0 ≤ n mod 10 ≤ 9) by (pose proof (Z.mod_pos_bound n 10); lia).
    destruct (Z.ltb_spec n 10) as [Hlt | Hge].
    + cbn [fold_left]. unfold run_step at 2.
      rewrite is_digit_char, digit_val_char by done.
      by rewrite Z.mod_small by lia.
    + rewrite IH.
      * cbn [fold_left]. unfold run_step at 2.
        rewrite is_digit_char, digit_val_char by done.
        f_equal. pose proof (Z.div_mod n 10). lia.
      * rewrite Nat2Z.inj_succ, Z.pow_succ_r in Hn by lia.
        split; [apply Z.div_pos; lia|].
        apply Z.div_lt_upper_bound; lia.
Qed.

Lemma dec_digits_cons (fuel : nat) (n : Z) (acc : list ascii) :
  ∃ c l, dec_digits (S fuel) n acc = c :: l.
Proof.
  revert n acc. induction fuel as [|fuel IH]; intros n acc.
  - simpl. destruct (n <? 10); eauto.
  - change (dec_digits (S (S fuel)) n acc)
      with (let acc' := digit_char (n mod 10) :: acc in
            if n <? 10 then acc' else dec_digits (S fuel) (n / 10) acc').
    cbv zeta. destruct (n <? 10); eauto.
Qed.

Lemma digit_run_digits (l : list ascii) :
  Forall (λ c, is_digit c = true) l → digit_run l = (l, []).
Proof.
  induction 1 as [|c l Hc _ IH]; simpl; [done|]. by rewrite Hc, IH.
Qed.

Lemma run_ok_digits (l : list ascii) :
  Forall (λ c, is_digit c = true) l → run_ok false l = true.
Proof.
  induction 1 as [|c l Hc _ IH]; simpl; [done|].
  by rewrite (is_digit_not_underscore c Hc).
Qed.

Lemma int_of_chars_digits (sign : Z) (pre l : list ascii) :
  (pre = [] ∧ sign = 1 ∨ pre = [hyphen] ∧ sign = -1) →
  l ≠ [] → Forall (λ c, is_digit c = true) l →
  int_of_chars (pre ++ l) = Some (sign * fold_left run_step l 0).
Proof.
  intros Hpre Hne Hl. destruct l as [|c l]; [done|].
  pose proof (Forall_inv Hl) as Hc.
  destruct (is_digit_not_sign c Hc) as [Hplus Hminus].
  assert (Hrun : run_ok true (c :: l) = true).
  { simpl. rewrite (is_digit_not_underscore c Hc).
    apply run_ok_digits. by apply Forall_inv_tail in Hl. }
  unfold int_of_chars.
  destruct Hpre as [[-> ->] | [-> ->]]; cbn [app skip_space].
  - rewrite (is_digit_not_space c Hc), Hplus, Hminus.
    rewrite (digit_run_digits _ Hl), Hrun. reflexivity.
  - change (int_space hyphen) with false. cbv iota.
    change (Ascii.eqb hyphen "+") with false.
    change (Ascii.eqb hyphen hyphen) with true. cbv iota.
    rewrite (digit_run_digits _ Hl), Hrun. reflexivity.
Qed.

Lemma dec_of_nonneg_value (n : Z) :
  0 ≤ n →
  dec_of_nonneg n ≠ [] ∧ Forall (λ c, is_digit c = true) (dec_of_nonneg n)
  ∧ fold_left run_step (dec_of_nonneg n) 0 = n.
Proof.
  intros Hn. unfold dec_of_nonneg. split_and!.
  - destruct (dec_digits_cons (Z.to_nat (Z.log2 n)) n []) as (c & l & ->). done.
  - by apply dec_digits_Forall.
  - rewrite dec_digits_value; [done|].
    rewrite Nat2Z.inj_succ, Z2Nat.id by apply Z.log2_nonneg.
    destruct (decide (n = 0)) as [-> | Hnz]; [done|].
    split; [done|]. apply Z.log2_spec. lia.
Qed.

(** Reading back the decimal rendering of an integer gives the integer. *)
Lemma int_str_of_int (z : Z) : int (PyStr (str_of_int z)) = Ok z.
Proof.
  unfold int, str_of_int. rewrite list_ascii_of_string_of_list_ascii.
  destruct (Z.ltb_spec z 0) as [Hneg | Hpos].
  - destruct (dec_of_nonneg_value (- z)) as (Hne & Hall & Hval); [lia|].
    pose proof (int_of_chars_digits (-1) [hyphen] (dec_of_nonneg (- z))) as H.
    cbn [app] in H. rewrite H by eauto.
    rewrite Hval. f_equal. lia.
  - destruct (dec_of_nonneg_value z) as (Hne & Hall & Hval); [lia|].
    pose proof (int_of_chars_digits 1 [] (dec_of_nonneg z)) as H.
    cbn [app] in H. rewrite H by eauto.
    rewrite Hval. f_equal. lia.
Qed.

End int_str.

(* ===================================================================== *)
(** * Dates: what [strptime] accepts and what [isoformat] renders *)
(* ===================================================================== *)

Section dates.

Lemma is_digit_cases (c : ascii) :
  is_digit c = true →
  c ∈ ["0"; "1"; "2"; "3"; "4"; "5"; "6"; "7"; "8"; "9"]%char.
Proof.
  destruct c as [[] [] [] [] [] [] [] []]; vm_compute; intros H;
    first [ discriminate H | set_solver ].
Qed.

Ltac each_digit c H :=
  apply is_digit_cases in H;
  repeat (apply elem_of_cons in H as [-> | H]); [.. | by apply elem_of_nil in H].

(** The first match of a sequence comes from the first match of its head,
    when the rest of the sequence matches after it. *)
Lemma m_bind_head {A B} (p : matcher A) (k : A → matcher B) s a rest tl x :
  p s = (a, rest) :: tl →
  (∃ tl', k a rest = x :: tl') →
  ∃ tl', m_bind p k s = x :: tl'.
Proof.
  intros Hp [tl' Hk]. unfold m_bind. rewrite Hp. cbn [map concat].
  rewrite Hk. eauto.
Qed.

Lemma re_Y_digits a b c d rest :
  is_digit a = true → is_digit b = true → is_digit c = true → is_digit d = true →
  re_Y (a :: b :: c :: d :: rest) = [(num4 a b c d, rest)].
Proof.
  intros Ha Hb Hc Hd. unfold re_Y, m_bind, m_char, m_ret.
  rewrite Ha. cbn [map concat app]. rewrite Hb. cbn [map concat app].
  rewrite Hc. cbn [map concat app]. rewrite Hd. reflexivity.
Qed.

Lemma re_m_two a b rest :
  is_digit a = true → is_digit b = true →
  (1 <=? num2 a b) && (num2 a b <=? 12) = true →
  ∃ tl, re_m (a :: b :: rest) = (num2 a b, rest) :: tl.
Proof.
  intros Ha Hb H. each_digit a Ha; each_digit b Hb;
    first [ discriminate H | eexists; reflexivity ].
Qed.

Lemma re_d_two a b rest :
  is_digit a = true → is_digit b = true →
  (1 <=? num2 a b) && (num2 a b <=? 31) = true →
  ∃ tl, re_d (a :: b :: rest) = (num2 a b, rest) :: tl.
Proof.
  intros Ha Hb H. each_digit a Ha; each_digit b Hb;
    first [ discriminate H | eexists; reflexivity ].
Qed.

Lemma days_in_month_le (y m : Z) : days_in_month y m ≤ 31.
Proof.
  unfold days_in_month.
  repeat match goal with |- context [if ?b then _ else _] => destruct b end; lia.
Qed.

Lemma date_ok_bounds (y m d : Z) :
  date_ok y m d = true →
  1 ≤ y ≤ 9999 ∧ 1 ≤ m ≤ 12 ∧ 1 ≤ d ≤ days_in_month y m.
Proof. unfold date_ok. rewrite !andb_true_iff, !Z.leb_le. lia. Qed.

Lemma re_date_canonical y1 y2 y3 y4 m1 m2 d1 d2 :
  forallb is_digit [y1; y2; y3; y4; m1; m2; d1; d2] = true →
  date_ok (num4 y1 y2 y3 y4) (num2 m1 m2) (num2 d1 d2) = true →
  ∃ tl, re_date [y1; y2; y3; y4; hyphen; m1; m2; hyphen; d1; d2]
        = (num4 y1 y2 y3 y4, num2 m1 m2, num2 d1 d2, []) :: tl.
Proof.
  cbn [forallb]. rewrite !andb_true_iff.
  intros (Hy1 & Hy2 & Hy3 & Hy4 & Hm1 & Hm2 & Hd1 & Hd2 & _) Hok.
  apply date_ok_bounds in Hok as (_ & Hm & Hd).
  pose proof (days_in_month_le (num4 y1 y2 y3 y4) (num2 m1 m2)) as Hle.
  destruct (re_m_two m1 m2 [hyphen; d1; d2] Hm1 Hm2) as [tlm Hrm].
  { rewrite andb_true_iff, !Z.leb_le. lia. }
  destruct (re_d_two d1 d2 [] Hd1 Hd2) as [tld Hrd].
  { rewrite andb_true_iff, !Z.leb_le. lia. }
  unfold re_date.
  eapply m_bind_head; [by apply re_Y_digits|].
  eapply m_bind_head; [reflexivity|].
  eapply m_bind_head; [exact Hrm|].
  eapply m_bind_head; [reflexivity|].
  eapply m_bind_head; [exact Hrd|].
  by eexists.
Qed.

Lemma pad4_num4 a b c d :
  is_digit a = true → is_digit b = true → is_digit c = true → is_digit d = true →
  pad4 (num4 a b c d) = [a; b; c; d].
Proof.
  intros Ha Hb Hc Hd.
  destruct (is_digit_inv a Ha) as [Ra Ea], (is_digit_inv b Hb) as [Rb Eb],
    (is_digit_inv c Hc) as [Rc Ec], (is_digit_inv d Hd) as [Rd Ed].
  unfold pad4, num4.
  generalize dependent (digit_val a). generalize dependent (digit_val b).
  generalize dependent (digit_val c). generalize dependent (digit_val d).
  intros w Rw <- z Rz <- y Ry <- x Rx <-.
  repeat f_equal; Z.to_euclidean_division_equations; lia.
Qed.

Lemma pad2_num2 a b :
  is_digit a = true → is_digit b = true → pad2 (num2 a b) = [a; b].
Proof.
  intros Ha Hb.
  destruct (is_digit_inv a Ha) as [Ra Ea], (is_digit_inv b Hb) as [Rb Eb].
  unfold pad2, num2.
  generalize dependent (digit_val a). generalize dependent (digit_val b).
  intros y Ry <- x Rx <-.
  repeat f_equal; Z.to_euclidean_division_equations; lia.
Qed.

(** A canonical date string is parsed, and rendered back as itself. *)
Lemma strptime_canonical (s : string) :
  canonical_date s = true →
  ∃ ymd, strptime s = Some ymd ∧ isoformat ymd = s.
Proof.
  unfold canonical_date, strptime.
  pose proof (string_of_list_ascii_of_string s) as Es.
  destruct (list_ascii_of_string s)
    as [|y1 [|y2 [|y3 [|y4 [|h1 [|m1 [|m2 [|h2 [|d1 [|d2 [|]]]]]]]]]]];
    try discriminate.
  rewrite <- Es. clear Es s. rewrite !andb_true_iff.
  intros [[[Hdig Hh1%Ascii.eqb_eq] Hh2%Ascii.eqb_eq] Hok]. subst h1 h2.
  destruct (re_date_canonical _ _ _ _ _ _ _ _ Hdig Hok) as [tl ->].
  rewrite Hok. eexists. split; [reflexivity|].
  cbn [forallb] in Hdig. rewrite !andb_true_iff in Hdig.
  destruct Hdig as (Hy1 & Hy2 & Hy3 & Hy4 & Hm1 & Hm2 & Hd1 & Hd2 & _).
  unfold isoformat. by rewrite pad4_num4, !pad2_num2.
Qed.

(** What [isoformat] renders of a calendar date is canonical, and is parsed
    as that date. *)
Lemma isoformat_canonical (y m d : Z) :
  date_ok y m d = true → canonical_date (isoformat (y, m, d)) = true.
Proof.
  intros Hok. pose proof (date_ok_bounds _ _ _ Hok) as (Hy & Hm & Hd).
  pose proof (days_in_month_le y m) as Hle.
  unfold canonical_date, isoformat.
  rewrite list_ascii_of_string_of_list_ascii.
  unfold pad4, pad2. cbn [app forallb].
  assert (Y : num4 (digit_char (y / 1000)) (digit_char (y / 100 mod 10))
                   (digit_char (y / 10 mod 10)) (digit_char (y mod 10)) = y).
  { unfold num4.
    rewrite !digit_val_char by (Z.to_euclidean_division_equations; lia).
    Z.to_euclidean_division_equations; lia. }
  assert (M : num2 (digit_char (m / 10)) (digit_char (m mod 10)) = m).
  { unfold num2.
    rewrite !digit_val_char by (Z.to_euclidean_division_equations; lia).
    Z.to_euclidean_division_equations; lia. }
  assert (D : num2 (digit_char (d / 10)) (digit_char (d mod 10)) = d).
  { unfold num2.
    rewrite !digit_val_char by (Z.to_euclidean_division_equations; lia).
    Z.to_euclidean_division_equations; lia. }
  rewrite Y, M, D, Hok.
  rewrite !is_digit_char by (Z.to_euclidean_division_equations; lia).
  reflexivity.
Qed.

Lemma strptime_date_ok (s : string) (y m d : Z) :
  strptime s = Some (y, m, d) → date_ok y m d = true.
Proof.
  unfold strptime.
  destruct (re_date _) as [|[[[y' m'] d'] [|]] ?]; try discriminate.
  destruct (date_ok y' m' d') eqn:E; [|discriminate]. congruence.
Qed.

End dates.

(** ** The strings [strptime] accepts are the spellings of calendar dates *)

Section spellings.

Lemma elem_of_m_bind {A B} (p : matcher A) (k : A → matcher B) s x :
  x ∈ m_bind p k s ↔ ∃ a rest, (a, rest) ∈ p s ∧ x ∈ k a rest.
Proof.
  unfold m_bind. rewrite list_elem_of_In, in_concat. split.
  - intros (l & Hl & Hx). apply in_map_iff in Hl as ([a rest] & <- & Ha).
    exists a, rest. by rewrite !list_elem_of_In.
  - intros (a & rest & Ha & Hx). exists (k a rest).
    rewrite <- !list_elem_of_In. split; [|done].
    apply list_elem_of_In, in_map_iff. exists (a, rest).
    by rewrite <- list_elem_of_In.
Qed.

Lemma elem_of_m_char (ok : ascii → bool) s c rest :
  (c, rest) ∈ m_char ok s ↔ s = c :: rest ∧ ok c = true.
Proof.
  unfold m_char. destruct s as [|c' s'].
  - rewrite elem_of_nil. split; [done | by intros [? _]].
  - destruct (ok c') eqn:E.
    + rewrite list_elem_of_singleton. split.
      * by intros [= -> ->].
      * by intros [[= -> ->] _].
    + rewrite elem_of_nil. split; [done|]. intros [[= -> ->] ?]. congruence.
Qed.

Lemma elem_of_m_ret {A} (a : A) s x : x ∈ m_ret a s ↔ x = (a, s).
Proof. unfold m_ret. apply list_elem_of_singleton. Qed.

Lemma elem_of_m_two ok1 ok2 s v rest :
  (v, rest) ∈ m_two ok1 ok2 s ↔
  ∃ a b, s = a :: b :: rest ∧ ok1 a = true ∧ ok2 b = true
         ∧ v = (if is_digit a then num2 a b else digit_val b).
Proof.
  unfold m_two. rewrite elem_of_m_bind. split.
  - intros (a & r1 & [-> Ha]%elem_of_m_char & H).
    apply elem_of_m_bind in H as (b & r2 & [-> Hb]%elem_of_m_char & H).
    apply elem_of_m_ret in H. injection H as -> ->. eauto 10.
  - intros (a & b & -> & Ha & Hb & ->). exists a, (b :: rest). split.
    + by apply elem_of_m_char.
    + apply elem_of_m_bind. exists b, rest. split; [by apply elem_of_m_char|].
      by apply elem_of_m_ret.
Qed.

Lemma elem_of_m_one ok s v rest :
  (v, rest) ∈ m_one ok s ↔ ∃ a, s = a :: rest ∧ ok a = true ∧ v = digit_val a.
Proof.
  unfold m_one. rewrite elem_of_m_bind. split.
  - intros (a & r1 & [-> Ha]%elem_of_m_char & H).
    apply elem_of_m_ret in H. injection H as -> ->. eauto.
  - intros (a & -> & Ha & ->). exists a, rest. split.
    + by apply elem_of_m_char.
    + by apply elem_of_m_ret.
Qed.

Lemma in_range_inv lo hi c :
  in_range lo hi c = true → is_digit c = true ∧ lo ≤ digit_val c ≤ hi.
Proof. unfold in_range. rewrite !andb_true_iff, !Z.leb_le. tauto. Qed.

Lemma elem_of_re_Y s y rest :
  (y, rest) ∈ re_Y s → s = pad4 y ++ rest ∧ 0 ≤ y ≤ 9999.
Proof.
  unfold re_Y. intros H.
  apply elem_of_m_bind in H as (a & r1 & [-> Ha]%elem_of_m_char & H).
  apply elem_of_m_bind in H as (b & r2 & [-> Hb]%elem_of_m_char & H).
  apply elem_of_m_bind in H as (c & r3 & [-> Hc]%elem_of_m_char & H).
  apply elem_of_m_bind in H as (d & r4 & [-> Hd]%elem_of_m_char & H).
  apply elem_of_m_ret in H. injection H as -> ->.
  rewrite pad4_num4 by done. split; [done|].
  destruct (is_digit_inv a Ha), (is_digit_inv b Hb),
    (is_digit_inv c Hc), (is_digit_inv d Hd). unfold num4. lia.
Qed.

Lemma elem_of_re_m s m rest :
  (m, rest) ∈ re_m s →
  ∃ ms, s = ms ++ rest ∧ ms ∈ month_spellings m ∧ 1 ≤ m ≤ 12.
Proof.
  unfold re_m, m_alt, month_spellings. rewrite !elem_of_app.
  intros [H | [H | H]].
  - apply elem_of_m_two in H as (a & b & Es & Ha & Hb & Ev).
    apply in_range_inv in Ha as [Ha Ra], Hb as [Hb Rb]. subst s. rewrite Ev.
    rewrite Ha. exists [a; b]. rewrite pad2_num2 by done.
    split_and!; [done | solve [repeat constructor] | unfold num2; lia..].
  - apply elem_of_m_two in H as (a & b & Es & Ha & Hb & Ev).
    apply in_range_inv in Ha as [Ha Ra], Hb as [Hb Rb]. subst s. rewrite Ev.
    rewrite Ha. exists [a; b]. rewrite pad2_num2 by done.
    split_and!; [done | solve [repeat constructor] | unfold num2; lia..].
  - apply elem_of_m_one in H as (a & Es & Ha & Ev).
    apply in_range_inv in Ha as [Ha Ra]. subst s. rewrite Ev.
    exists [a]. destruct (is_digit_inv a Ha) as [_ Ea].
    destruct (Z.ltb_spec (digit_val a) 10); [|lia].
    rewrite Ea. split_and!; [done | solve [repeat constructor] | lia..].
Qed.

Lemma elem_of_re_d s d rest :
  (d, rest) ∈ re_d s →
  ∃ ds, s = ds ++ rest ∧ ds ∈ day_spellings d ∧ 1 ≤ d ≤ 31.
Proof.
  unfold re_d, m_alt, day_spellings. rewrite !elem_of_app.
  intros [H | [H | [H | [H | H]]]].
  - apply elem_of_m_two in H as (a & b & Es & Ha & Hb & Ev).
    apply in_range_inv in Ha as [Ha Ra], Hb as [Hb Rb]. subst s. rewrite Ev.
    rewrite Ha. exists [a; b]. rewrite pad2_num2 by done.
    split_and!; [done | solve [repeat constructor] | unfold num2; lia..].
  - apply elem_of_m_two in H as (a & b & Es & Ha & Hb & Ev).
    apply in_range_inv in Ha as [Ha Ra]. subst s. rewrite Ev.
    destruct (is_digit_inv b Hb) as [Rb _].
    rewrite Ha. exists [a; b]. rewrite pad2_num2 by done.
    split_and!; [done | solve [repeat constructor] | unfold num2; lia..].
  - apply elem_of_m_two in H as (a & b & Es & Ha & Hb & Ev).
    apply in_range_inv in Ha as [Ha Ra], Hb as [Hb Rb]. subst s. rewrite Ev.
    rewrite Ha. exists [a; b]. rewrite pad2_num2 by done.
    split_and!; [done | solve [repeat constructor] | unfold num2; lia..].
  - apply elem_of_m_one in H as (a & Es & Ha & Ev).
    apply in_range_inv in Ha as [Ha Ra]. subst s. rewrite Ev.
    exists [a]. destruct (is_digit_inv a Ha) as [_ Ea].
    destruct (Z.ltb_spec (digit_val a) 10); [|lia].
    rewrite Ea. split_and!; [done | solve [repeat constructor] | lia..].
  - apply elem_of_m_two in H as (a & b & Es & Ha & Hb & Ev).
    apply Ascii.eqb_eq in Ha. apply in_range_inv in Hb as [Hb Rb].
    subst s a. rewrite Ev.
    change (is_digit blank) with false. cbv iota.
    exists [blank; b]. destruct (is_digit_inv b Hb) as [_ Eb].
    destruct (Z.ltb_spec (digit_val b) 10); [|lia].
    rewrite Eb. split_and!; [done | solve [repeat constructor] | lia..].
Qed.

Lemma elem_of_re_date s y m d rest :
  (y, m, d, rest) ∈ re_date s →
  ∃ ms ds, ms ∈ month_spellings m ∧ ds ∈ day_spellings d
           ∧ s = pad4 y ++ hyphen :: ms ++ hyphen :: ds ++ rest.
Proof.
  unfold re_date, m_hyphen. intros H.
  apply elem_of_m_bind in H as (y' & r1 & [-> _]%elem_of_re_Y & H).
  apply elem_of_m_bind in H as (h1 & r2 & [-> ->%Ascii.eqb_eq]%elem_of_m_char & H).
  apply elem_of_m_bind in H as (m' & r3 & (ms & -> & Hms & _)%elem_of_re_m & H).
  apply elem_of_m_bind in H as (h2 & r4 & [-> ->%Ascii.eqb_eq]%elem_of_m_char & H).
  apply elem_of_m_bind in H as (d' & r5 & (ds & -> & Hds & _)%elem_of_re_d & H).
  apply elem_of_m_ret in H. injection H as -> -> -> ->.
  exists ms, ds. by split_and!.
Qed.

Lemma strptime_spells (s : string) (ymd : Z * Z * Z) :
  strptime s = Some ymd → spells s ymd.
Proof.
  unfold strptime. destruct (re_date _) as [|[[[y m] d] rest] tl] eqn:E; [done|].
  destruct rest; [|done]. destruct (date_ok y m d); [|done].
  intros [= <-]. unfold spells.
  assert (H : (y, m, d, []) ∈ re_date (list_ascii_of_string s))
    by (rewrite E; left).
  apply elem_of_re_date in H as (ms & ds & Hms & Hds & ->).
  exists ms, ds. by rewrite app_nil_r.
Qed.

Lemma num2_pad2 (n : Z) :
  0 ≤ n ≤ 99 →
  is_digit (digit_char (n / 10)) = true ∧ is_digit (digit_char (n mod 10)) = true
  ∧ num2 (digit_char (n / 10)) (digit_char (n mod 10)) = n.
Proof.
  intros Hn. unfold num2.
  rewrite !is_digit_char, !digit_val_char
    by (Z.to_euclidean_division_equations; lia).
  split_and!; [done..|]. Z.to_euclidean_division_equations; lia.
Qed.

Lemma re_Y_pad4 (y : Z) rest :
  0 ≤ y ≤ 9999 → re_Y (pad4 y ++ rest) = [(y, rest)].
Proof.
  intros Hy. unfold pad4. cbn [app].
  rewrite re_Y_digits
    by (apply is_digit_char; Z.to_euclidean_division_equations; lia).
  do 2 f_equal. unfold num4.
  rewrite !digit_val_char by (Z.to_euclidean_division_equations; lia).
  Z.to_euclidean_division_equations; lia.
Qed.

Ltac each_below_ten n :=
  match goal with
  | H : 1 ≤ n, H' : n < 10 |- _ =>
      assert (Hcases : n = 1 ∨ n = 2 ∨ n = 3 ∨ n = 4 ∨ n = 5 ∨ n = 6
                       ∨ n = 7 ∨ n = 8 ∨ n = 9) by lia;
      clear H H';
      repeat (destruct Hcases as [-> | Hcases]); try subst n
  end.

Lemma re_m_spelling (m : Z) ms rest :
  1 ≤ m ≤ 12 → ms ∈ month_spellings m →
  ∃ tl, re_m (ms ++ hyphen :: rest) = (m, hyphen :: rest) :: tl.
Proof.
  intros Hm. unfold month_spellings.
  intros [-> | Hms]%elem_of_cons.
  - destruct (num2_pad2 m) as (Ha & Hb & Hv); [lia|].
    destruct (re_m_two _ _ (hyphen :: rest) Ha Hb) as [tl Htl].
    { rewrite Hv, andb_true_iff, !Z.leb_le. lia. }
    rewrite Hv in Htl. by exists tl.
  - destruct (Z.ltb_spec m 10) as [Hlt|]; [|by apply elem_of_nil in Hms].
    apply list_elem_of_singleton in Hms as ->. destruct Hm as [Hm _].
    each_below_ten m; eexists; reflexivity.
Qed.

Lemma re_d_spelling (d : Z) ds :
  1 ≤ d ≤ 31 → ds ∈ day_spellings d →
  ∃ tl, re_d ds = (d, []) :: tl.
Proof.
  intros Hd. unfold day_spellings.
  intros [-> | Hds]%elem_of_cons.
  - destruct (num2_pad2 d) as (Ha & Hb & Hv); [lia|].
    destruct (re_d_two _ _ [] Ha Hb) as [tl Htl].
    { rewrite Hv, andb_true_iff, !Z.leb_le. lia. }
    rewrite Hv in Htl. by exists tl.
  - destruct (Z.ltb_spec d 10) as [Hlt|]; [|by apply elem_of_nil in Hds].
    destruct Hd as [Hd _].
    apply elem_of_cons in Hds as [-> | ->%list_elem_of_singleton];
      each_below_ten d; eexists; reflexivity.
Qed.

Lemma spells_strptime (s : string) (y m d : Z) :
  date_ok y m d = true → spells s (y, m, d) → strptime s = Some (y, m, d).
Proof.
  intros Hok (ms & ds & Hms & Hds & Es).
  pose proof (date_ok_bounds _ _ _ Hok) as (Hy & Hm & Hd).
  pose proof (days_in_month_le y m) as Hle.
  destruct (re_m_spelling m ms ds Hm Hms) as [tlm Hrm].
  destruct (re_d_spelling d ds) as [tld Hrd]; [lia | done |].
  assert (H : ∃ tl, re_date (list_ascii_of_string s) = (y, m, d, []) :: tl).
  { rewrite Es. unfold re_date.
    eapply m_bind_head; [apply re_Y_pad4; lia|].
    eapply m_bind_head; [reflexivity|].
    eapply m_bind_head; [exact Hrm|].
    eapply m_bind_head; [reflexivity|].
    eapply m_bind_head; [exact Hrd|].
    by eexists. }
  destruct H as [tl H]. unfold strptime. by rewrite H, Hok.
Qed.

(** [strptime] accepts exactly the spellings of the calendar dates. *)
Lemma strptime_spec (s : string) (y m d : Z) :
  strptime s = Some (y, m, d) ↔ date_ok y m d = true ∧ spells s (y, m, d).
Proof.
  split.
  - intros H. split; [by eapply strptime_date_ok | by apply strptime_spells].
  - intros [Hok Hs]. by apply spells_strptime.
Qed.

End spellings.

(* ===================================================================== *)
(** * Validation *)
(* ===================================================================== *)

Section validation.

Lemma validate_emp_id_Ok (emp_id : pyval) (e : Z) :
  _validate_emp_id emp_id = Ok e ↔ emp_id = PyInt e ∧ 0 < e.
Proof.
  unfold _validate_emp_id. destruct emp_id as [|z|s]; try (split; [done | by intros [? _]]).
  destruct (Z.leb_spec z 0); split; try done.
  - intros [[= ->] ?]. lia.
  - by intros [= ->].
  - by intros [[= ->] _].
Qed.

Lemma validate_emp_id_Raise (emp_id : pyval) (x : exn) :
  _validate_emp_id emp_id = Raise x → x = InvalidEmployeeId.
Proof.
  unfold _validate_emp_id. destruct emp_id as [|z|s]; try by intros [= <-].
  destruct (z <=? 0); [by intros [= <-] | done].
Qed.

Lemma validate_status_Ok (status : pyval) (s : string) :
  _validate_status status = Ok s ↔ status = PyStr s ∧ s ∈ VALID_STATUSES.
Proof.
  unfold _validate_status. destruct status as [|z|s']; try (split; [done | by intros [? _]]).
  case_bool_decide as Hin; split; try done.
  - by intros [= ->].
  - by intros [[= ->] _].
  - by intros [[= ->] ?].
Qed.

Lemma validate_status_Raise (status : pyval) (x : exn) :
  _validate_status status = Raise x → x = InvalidStatus.
Proof.
  unfold _validate_status. destruct status as [|z|s]; try by intros [= <-].
  case_bool_decide; [done | by intros [= <-]].
Qed.

Lemma validate_date_Raise (date : pyval) (x : exn) :
  _validate_date date = Raise x → x = InvalidDateFormat.
Proof.
  unfold _validate_date. destruct date as [|z|s]; try by intros [= <-].
  destruct (strptime s); [done | by intros [= <-]].
Qed.

(** The validation accepts the spellings of the calendar dates and gives
    the canonical rendering of the date. *)
Lemma validate_date_Ok (date : pyval) (normalized : string) :
  _validate_date date = Ok normalized ↔
  ∃ s y m d, date = PyStr s ∧ date_ok y m d = true ∧ spells s (y, m, d)
             ∧ normalized = isoformat (y, m, d).
Proof.
  unfold _validate_date. split.
  - destruct date as [|z|s]; try done.
    destruct (strptime s) as [[[y m] d]|] eqn:E; [|done].
    intros [= <-]. apply strptime_spec in E as [Hok Hs]. by exists s, y, m, d.
  - intros (s & y & m & d & -> & Hok & Hs & ->).
    by rewrite (spells_strptime s y m d Hok Hs).
Qed.

Lemma validate_date_canonical (s : string) :
  canonical_date s = true → _validate_date (PyStr s) = Ok s.
Proof.
  intros (ymd & E & Hiso)%strptime_canonical.
  unfold _validate_date. by rewrite E, Hiso.
Qed.

Lemma validate_date_normalized (date : pyval) (normalized : string) :
  _validate_date date = Ok normalized → canonical_date normalized = true.
Proof.
  intros (s & y & m & d & _ & Hok & _ & ->)%validate_date_Ok.
  by apply isoformat_canonical.
Qed.

(** [add_record], step by step. *)
Lemma add_record_unfold (emp_id date status : pyval) (st : store) :
  add_record emp_id date status st =
  match _validate_emp_id emp_id with
  | Raise x => (st, Raise x)
  | Ok e =>
      match _validate_date date with
      | Raise x => (st, Raise x)
      | Ok normalized_date =>
          match _validate_status status with
          | Raise x => (st, Raise x)
          | Ok s =>
              (<[e := <[normalized_date := s]> (default ∅ (st !! e))]> st, Ok ())
          end
      end
  end.
Proof.
  unfold add_record, mbind, prog_bind, lift.
  destruct (_validate_emp_id emp_id); [|done].
  destruct (_validate_date date); [|done].
  by destruct (_validate_status status).
Qed.

Lemma add_record_Ok (emp_id date status : pyval) (st st' : store) :
  add_record emp_id date status st = (st', Ok ()) ↔
  ∃ e normalized_date s,
    _validate_emp_id emp_id = Ok e ∧ _validate_date date = Ok normalized_date
    ∧ _validate_status status = Ok s
    ∧ st' = <[e := <[normalized_date := s]> (default ∅ (st !! e))]> st.
Proof.
  rewrite add_record_unfold.
  destruct (_validate_emp_id emp_id) as [e|]; [|naive_solver].
  destruct (_validate_date date) as [nd|]; [|naive_solver].
  destruct (_validate_status status) as [s|]; naive_solver.
Qed.

Lemma add_record_Raise (emp_id date status : pyval) (st st' : store) (x : exn) :
  add_record emp_id date status st = (st', Raise x) →
  st' = st ∧ ∃ msg, x = ValueError msg.
Proof.
  rewrite add_record_unfold.
  destruct (_validate_emp_id emp_id) as [e|x1] eqn:E1.
  - destruct (_validate_date date) as [nd|x2] eqn:E2.
    + destruct (_validate_status status) as [s|x3] eqn:E3; [done|].
      apply validate_status_Raise in E3 as ->. intros [= <- <-]. by eauto.
    + apply validate_date_Raise in E2 as ->. intros [= <- <-]. by eauto.
  - apply validate_emp_id_Raise in E1 as ->. intros [= <- <-]. by eauto.
Qed.

End validation.

(* ===================================================================== *)
(** * Adding records *)
(* ===================================================================== *)

Section adding.

Lemma add_record_valid (st : store) (emp_id : Z) (date status : string) :
  0 < emp_id → canonical_date date = true → status ∈ VALID_STATUSES →
  add_record (PyInt emp_id) (PyStr date) (PyStr status) st
  = (<[emp_id := <[date := status]> (default ∅ (st !! emp_id))]> st, Ok ()).
Proof.
  intros He Hd Hs. apply add_record_Ok. exists emp_id, date, status.
  split_and!; [| by apply validate_date_canonical | | done].
  - by apply validate_emp_id_Ok.
  - by apply validate_status_Ok.
Qed.

(** C1.  For a positive employee ID, a canonical [YYYY-MM-DD] calendar date
    and a status of the fixed set, [add_record] succeeds; the date is its own
    normal form, and [get_records] then maps it to that status.  Adding the
    same pair again with another status succeeds too and replaces the status:
    the pair then has the new status only, and every other date and every
    other employee is as before. *)
Theorem add_record_then_get_records
    (st : store) (emp_id : Z) (date status status' : string) :
  0 < emp_id → canonical_date date = true →
  status ∈ VALID_STATUSES → status' ∈ VALID_STATUSES →
  ∃ (st1 st2 : store) (records1 records2 : gmap string string),
    _validate_date (PyStr date) = Ok date
    ∧ add_record (PyInt emp_id) (PyStr date) (PyStr status) st = (st1, Ok ())
    ∧ get_records st1 emp_id = Some records1
    ∧ records1 !! date = Some status
    ∧ add_record (PyInt emp_id) (PyStr date) (PyStr status') st1 = (st2, Ok ())
    ∧ get_records st2 emp_id = Some records2
    ∧ records2 !! date = Some status'
    ∧ (∀ date', date' ≠ date → records2 !! date' = records1 !! date')
    ∧ (∀ emp_id', emp_id' ≠ emp_id → get_records st2 emp_id' = get_records st1 emp_id').
Proof.
  intros He Hd Hs Hs'.
  set (records1 := <[date := status]> (default ∅ (st !! emp_id))).
  set (st1 := <[emp_id := records1]> st).
  set (records2 := <[date := status']> records1).
  exists st1, (<[emp_id := records2]> st1), records1, records2.
  assert (E1 : st1 !! emp_id = Some records1) by apply lookup_insert_eq.
  split_and!.
  - by apply validate_date_canonical.
  - by apply add_record_valid.
  - done.
  - apply lookup_insert_eq.
  - rewrite add_record_valid by done. by rewrite E1.
  - apply lookup_insert_eq.
  - apply lookup_insert_eq.
  - intros date' Hne. by apply lookup_insert_ne.
  - intros emp_id' Hne. unfold get_records. by rewrite lookup_insert_ne.
Qed.

Lemma add_record_then_get_records_witness :
  ∃ (st1 st2 : store) (records1 records2 : gmap string string),
    _validate_date (PyStr "2026-02-01") = Ok "2026-02-01"%string
    ∧ add_record (PyInt 101) (PyStr "2026-02-01") (PyStr "Present") __init__ = (st1, Ok ())
    ∧ get_records st1 101 = Some records1
    ∧ records1 !! "2026-02-01"%string = Some "Present"%string
    ∧ add_record (PyInt 101) (PyStr "2026-02-01") (PyStr "Leave") st1 = (st2, Ok ())
    ∧ get_records st2 101 = Some records2
    ∧ records2 !! "2026-02-01"%string = Some "Leave"%string
    ∧ (∀ date', date' ≠ "2026-02-01"%string → records2 !! date' = records1 !! date')
    ∧ (∀ emp_id', emp_id' ≠ 101 → get_records st2 emp_id' = get_records st1 emp_id').
Proof.
  apply (add_record_then_get_records __init__ 101 "2026-02-01" "Present" "Leave").
  - lia.
  - reflexivity.
  - repeat constructor.
  - repeat constructor.
Defined.

End adding.

(* ===================================================================== *)
(** * Rejected arguments *)
(* ===================================================================== *)

Section rejecting.

Lemma validate_emp_id_valid (emp_id : pyval) :
  valid_emp_id emp_id ↔ ∃ e, _validate_emp_id emp_id = Ok e.
Proof.
  unfold valid_emp_id. split; intros [z H]; exists z; by apply validate_emp_id_Ok.
Qed.

Lemma validate_date_valid (date : pyval) :
  valid_date date ↔ ∃ normalized, _validate_date date = Ok normalized.
Proof.
  unfold valid_date. split.
  - intros (s & y & m & d & H). exists (isoformat (y, m, d)).
    apply validate_date_Ok. exists s, y, m, d. naive_solver.
  - intros [nd (s & y & m & d & H)%validate_date_Ok]. exists s, y, m, d. naive_solver.
Qed.

Lemma validate_status_valid (status : pyval) :
  valid_status_arg status ↔ ∃ s, _validate_status status = Ok s.
Proof.
  unfold valid_status_arg. split; intros [s H]; exists s; by apply validate_status_Ok.
Qed.

Lemma validate_emp_id_invalid (emp_id : pyval) :
  ¬ valid_emp_id emp_id ↔ _validate_emp_id emp_id = Raise InvalidEmployeeId.
Proof.
  rewrite validate_emp_id_valid.
  destruct (_validate_emp_id emp_id) as [e|x] eqn:E.
  - split; [intros []; eauto | done].
  - apply validate_emp_id_Raise in E as ->. split; [done | by intros _ [? ?]].
Qed.

Lemma validate_date_invalid (date : pyval) :
  ¬ valid_date date ↔ _validate_date date = Raise InvalidDateFormat.
Proof.
  rewrite validate_date_valid.
  destruct (_validate_date date) as [e|x] eqn:E.
  - split; [intros []; eauto | done].
  - apply validate_date_Raise in E as ->. split; [done | by intros _ [? ?]].
Qed.

Lemma validate_status_invalid (status : pyval) :
  ¬ valid_status_arg status ↔ _validate_status status = Raise InvalidStatus.
Proof.
  rewrite validate_status_valid.
  destruct (_validate_status status) as [e|x] eqn:E.
  - split; [intros []; eauto | done].
  - apply validate_status_Raise in E as ->. split; [done | by intros _ [? ?]].
Qed.

(** C2, the date part as the claim has it, fails: a date written without
    the leading zeros is not canonical, and yet [add_record] takes it and
    files the record under the canonical rendering. *)
Lemma add_record_takes_unpadded_date :
  canonical_date "2026-2-1" = false
  ∧ add_record (PyInt 101) (PyStr "2026-2-1") (PyStr "Present") __init__
    = ({[ 101 := {[ "2026-02-01"%string := "Present"%string ]} ]}, Ok ()).
Proof. split; reflexivity. Qed.

(** C2, amended.  [add_record] raises [InvalidEmployeeId] exactly when the
    employee ID is not a positive integer; else [InvalidDateFormat] exactly
    when the date is not a string that spells a calendar date (year in four
    digits, month and day in two digits or unpadded, the day also with a
    blank for the zero); else [InvalidStatus] exactly when the status is not
    a string of the fixed set.  Whenever it raises, the store is the one it
    was called on.  A date in any of the accepted spellings, with a valid
    employee ID and status, is added under its canonical rendering. *)
Theorem add_record_rejects (st : store) (emp_id date status : pyval) :
  (add_record emp_id date status st = (st, Raise InvalidEmployeeId)
     ↔ ¬ valid_emp_id emp_id)
  ∧ (add_record emp_id date status st = (st, Raise InvalidDateFormat)
     ↔ valid_emp_id emp_id ∧ ¬ valid_date date)
  ∧ (add_record emp_id date status st = (st, Raise InvalidStatus)
     ↔ valid_emp_id emp_id ∧ valid_date date ∧ ¬ valid_status_arg status)
  ∧ (∀ st' x, add_record emp_id date status st = (st', Raise x) → st' = st)
  ∧ (∀ (z : Z) (s v : string) (y m d : Z),
       emp_id = PyInt z → date = PyStr s → status = PyStr v →
       0 < z → date_ok y m d = true → spells s (y, m, d) → v ∈ VALID_STATUSES →
       add_record emp_id date status st
       = (put st (z, isoformat (y, m, d), v), Ok ())).
Proof.
  rewrite validate_emp_id_invalid, validate_date_invalid, validate_status_invalid.
  rewrite validate_emp_id_valid, validate_date_valid.
  split_and!;
    [..| intros st' x H; by apply add_record_Raise in H as [-> _]
       | intros z s v y m d -> -> -> Hz Hok Hs Hv; apply add_record_Ok;
         exists z, (isoformat (y, m, d)), v;
         split_and!; [by apply validate_emp_id_Ok | | by apply validate_status_Ok | done];
         apply validate_date_Ok; by exists s, y, m, d ];
    rewrite add_record_unfold;
    destruct (_validate_emp_id emp_id) as [e|x1] eqn:E1;
    try (apply validate_emp_id_Raise in E1 as ->);
    destruct (_validate_date date) as [nd|x2] eqn:E2;
    try (apply validate_date_Raise in E2 as ->);
    destruct (_validate_status status) as [s|x3] eqn:E3;
    try (apply validate_status_Raise in E3 as ->);
    split; try done; try naive_solver.
Qed.

End rejecting.

(* ===================================================================== *)
(** * Deleting records *)
(* ===================================================================== *)

Section deleting.

Lemma delete_record_unfold (emp_id : Z) (date : pyval) (st : store) :
  delete_record emp_id date st =
  match _validate_date date with
  | Raise x => (st, Raise x)
  | Ok normalized_date =>
      match st !! emp_id with
      | Some records =>
          match records !! normalized_date with
          | Some _ =>
              (if decide (delete normalized_date records = ∅)
               then delete emp_id st
               else <[emp_id := delete normalized_date records]> st, Ok true)
          | None => (st, Ok false)
          end
      | None => (st, Ok false)
      end
  end.
Proof.
  unfold delete_record, mbind, prog_bind, lift, read, write, mret, prog_ret.
  destruct (_validate_date date) as [nd|]; [|done].
  destruct (st !! emp_id) as [records|]; [|done].
  destruct (records !! nd) as [status|] eqn:E.
  - rewrite decide_True by eauto. by destruct (decide (delete nd records = ∅)).
  - rewrite decide_False; [done|]. by intros [? ?].
Qed.

Lemma delete_empty_singleton (records : gmap string string) (date status : string) :
  records !! date = Some status →
  delete date records = ∅ ↔ records = {[ date := status ]}.
Proof.
  intros Hd. split.
  - intros He. rewrite <- (insert_id records date status Hd).
    by rewrite <- insert_delete_eq, He.
  - intros ->. apply delete_singleton_eq.
Qed.

Lemma status_of_None_iff (st : store) (emp_id : Z) (date : string) :
  status_of st emp_id date = None ↔
  st !! emp_id = None ∨ ∃ records, st !! emp_id = Some records ∧ records !! date = None.
Proof.
  unfold status_of. destruct (st !! emp_id) as [records|]; simpl; naive_solver.
Qed.

(** C5.  [delete_record] checks the date before it looks at the store: a
    date that is not valid raises [InvalidDateFormat], whatever the store
    holds.  For a well-formed date, that is a string that spells a calendar
    date [(y, m, d)], whose normal form is the rendering [YYYY-MM-DD] of
    that date: when the pair of the employee and the normal form has a
    status, the result is [True], the pair has none afterwards, every other
    pair keeps its status, every other employee keeps their records, and the
    employee remains in the store exactly when another of their records
    remains; when the pair has no status (the employee is absent, or the
    date is), the result is [False] and the store is the one it was. *)
Theorem delete_record_spec (st : store) (emp_id : Z) (date : pyval) :
  (¬ valid_date date → delete_record emp_id date st = (st, Raise InvalidDateFormat))
  ∧ (∀ (s : string) (y m d : Z),
       date = PyStr s → date_ok y m d = true → spells s (y, m, d) →
       (∀ records status,
          st !! emp_id = Some records →
          records !! isoformat (y, m, d) = Some status →
          ∃ st', delete_record emp_id date st = (st', Ok true)
                 ∧ status_of st' emp_id (isoformat (y, m, d)) = None
                 ∧ (∀ e d', (e, d') ≠ (emp_id, isoformat (y, m, d)) →
                            status_of st' e d' = status_of st e d')
                 ∧ (∀ e, e ≠ emp_id → st' !! e = st !! e)
                 ∧ (records = {[ isoformat (y, m, d) := status ]} →
                    st' !! emp_id = None)
                 ∧ (records ≠ {[ isoformat (y, m, d) := status ]} →
                    st' !! emp_id = Some (delete (isoformat (y, m, d)) records)))
       ∧ (status_of st emp_id (isoformat (y, m, d)) = None →
          delete_record emp_id date st = (st, Ok false))).
Proof.
  split.
  - intros H%validate_date_invalid. by rewrite delete_record_unfold, H.
  - intros s y m d' Hdate Hok Hspells.
    assert (Hnd : _validate_date date = Ok (isoformat (y, m, d'))).
    { apply validate_date_Ok. by exists s, y, m, d'. }
    generalize dependent (isoformat (y, m, d')). intros nd Hnd. split.
    + intros records status He Hd. rewrite delete_record_unfold, Hnd, He, Hd.
      pose proof (delete_empty_singleton records nd status Hd) as Hsingle.
      eexists. split; [reflexivity|].
      destruct (decide (delete nd records = ∅)) as [Hempty | Hrest].
      * split_and!.
        -- unfold status_of. by rewrite lookup_delete_eq.
        -- intros e d Hne. unfold status_of.
           destruct (decide (e = emp_id)) as [-> | Hne'].
           ++ rewrite lookup_delete_eq, He. simpl.
              assert (d ≠ nd) by congruence.
              apply Hsingle in Hempty as ->. by rewrite lookup_singleton_ne.
           ++ by rewrite lookup_delete_ne.
        -- intros e Hne. by rewrite lookup_delete_ne.
        -- intros _. apply lookup_delete_eq.
        -- intros Hns. by apply Hsingle in Hempty.
      * split_and!.
        -- unfold status_of. rewrite lookup_insert_eq. simpl. apply lookup_delete_eq.
        -- intros e d Hne. unfold status_of.
           destruct (decide (e = emp_id)) as [-> | Hne'].
           ++ rewrite lookup_insert_eq, He. simpl.
              assert (d ≠ nd) by congruence. by rewrite lookup_delete_ne.
           ++ by rewrite lookup_insert_ne.
        -- intros e Hne. by rewrite lookup_insert_ne.
        -- intros Hs. by apply Hsingle in Hs.
        -- intros _. apply lookup_insert_eq.
    + intros Hnone. rewrite delete_record_unfold, Hnd.
      apply status_of_None_iff in Hnone as [-> | (records & -> & ->)]; done.
Qed.

(** The theorem at an unpadded spelling of the date of the employee's only
    record, and at a date the employee has no record of. *)
Lemma delete_record_spec_witness :
  (∃ st', delete_record 107 (PyStr "2026-2-1")
            {[ 107 := {[ "2026-02-01"%string := "Present"%string ]} ]}
          = (st', Ok true)
          ∧ status_of st' 107 "2026-02-01" = None
          ∧ st' !! 107 = None)
  ∧ delete_record 107 (PyStr "2026-2-2")
      {[ 107 := {[ "2026-02-01"%string := "Present"%string ]} ]}
    = ({[ 107 := {[ "2026-02-01"%string := "Present"%string ]} ]}, Ok false).
Proof.
  split.
  - destruct (proj2 (delete_record_spec
                      {[ 107 := {[ "2026-02-01"%string := "Present"%string ]} ]}
                      107 (PyStr "2026-2-1"))
                "2026-2-1"%string 2026 2 1 eq_refl eq_refl) as [Hfound _].
    { exists [digit_char 2], [digit_char 1]. split_and!; [| | reflexivity].
      - apply list_elem_of_In. right. left. reflexivity.
      - apply list_elem_of_In. right. left. reflexivity. }
    destruct (Hfound {[ "2026-02-01"%string := "Present"%string ]} "Present"%string
                eq_refl eq_refl) as (st' & Hrun & Hgone & _ & _ & Hlast & _).
    exists st'. split_and!; [exact Hrun | exact Hgone | exact (Hlast eq_refl)].
  - destruct (proj2 (delete_record_spec
                      {[ 107 := {[ "2026-02-01"%string := "Present"%string ]} ]}
                      107 (PyStr "2026-2-2"))
                "2026-2-2"%string 2026 2 2 eq_refl eq_refl) as [_ Habsent].
    { exists [digit_char 2], [digit_char 2]. split_and!; [| | reflexivity].
      - apply list_elem_of_In. right. left. reflexivity.
      - apply list_elem_of_In. right. left. reflexivity. }
    exact (Habsent eq_refl).
Defined.

Example delete_record_malformed :
  delete_record 107 (PyStr "02-01-2026") {[ 107 := {[ "2026-02-01"%string := "Present"%string ]} ]}
  = ({[ 107 := {[ "2026-02-01"%string := "Present"%string ]} ]}, Raise InvalidDateFormat).
Proof. reflexivity. Qed.

Example delete_record_last :
  delete_record 107 (PyStr "2026-02-01") {[ 107 := {[ "2026-02-01"%string := "Present"%string ]} ]}
  = (∅, Ok true).
Proof. reflexivity. Qed.

Example delete_record_absent :
  delete_record 999 (PyStr "2026-02-01") {[ 107 := {[ "2026-02-01"%string := "Present"%string ]} ]}
  = ({[ 107 := {[ "2026-02-01"%string := "Present"%string ]} ]}, Ok false).
Proof. reflexivity. Qed.

End deleting.

(* ===================================================================== *)
(** * The invariant of the store *)
(* ===================================================================== *)

Section invariant.

Lemma store_inv_empty : store_inv __init__.
Proof. intros e records H. unfold __init__ in H. by rewrite lookup_empty in H. Qed.

Lemma store_inv_set_record (st : store) (e : Z) (normalized status : string) :
  store_inv st → 0 < e → canonical_date normalized = true → valid_status status →
  store_inv (<[e := <[normalized := status]> (default ∅ (st !! e))]> st).
Proof.
  intros Hinv He Hd Hs e' records'.
  destruct (decide (e' = e)) as [-> | Hne].
  - rewrite lookup_insert_eq. intros [= <-]. split_and!; [done | apply insert_non_empty |].
    intros date' status'. destruct (decide (date' = normalized)) as [-> | Hne].
    + rewrite lookup_insert_eq. by intros [= <-].
    + rewrite lookup_insert_ne by done.
      destruct (st !! e) as [records|] eqn:E; simpl; [|by rewrite lookup_empty].
      by apply (Hinv e records E).
  - rewrite lookup_insert_ne by done. apply Hinv.
Qed.

Lemma store_inv_add_record (st st' : store) (emp_id date status : pyval) (r : result ()) :
  store_inv st → add_record emp_id date status st = (st', r) → store_inv st'.
Proof.
  intros Hinv. destruct r as [[]|x].
  - intros (e & nd & s & [_ He]%validate_emp_id_Ok & Hd%validate_date_normalized
            & [_ Hs]%validate_status_Ok & ->)%add_record_Ok.
    by apply store_inv_set_record.
  - by intros [-> _]%add_record_Raise.
Qed.

Lemma store_inv_delete_record (st st' : store) (emp_id : Z) (date : pyval) (r : result bool) :
  store_inv st → delete_record emp_id date st = (st', r) → store_inv st'.
Proof.
  intros Hinv. rewrite delete_record_unfold.
  destruct (_validate_date date) as [nd|]; [|by intros [= <- _]].
  destruct (st !! emp_id) as [records|] eqn:E; [|by intros [= <- _]].
  destruct (records !! nd) as [status|]; [|by intros [= <- _]].
  destruct (Hinv emp_id records E) as (He & _ & Hrec).
  intros [= <- _] e' records'. case_decide as Hempty.
  - destruct (decide (e' = emp_id)) as [-> | Hne].
    + by rewrite lookup_delete_eq.
    + rewrite lookup_delete_ne by done. apply Hinv.
  - destruct (decide (e' = emp_id)) as [-> | Hne].
    + rewrite lookup_insert_eq. intros [= <-]. split_and!; [done..|].
      intros date' status' [_ H]%lookup_delete_Some. by apply Hrec.
    + rewrite lookup_insert_ne by done. apply Hinv.
Qed.

(** [import_row], step by step. *)
Lemma import_row_unfold (row : gmap string pyval) (st : store) :
  import_row row st =
  match Csv.subscript row "Employee_ID" with
  | Raise x => (st, Raise x)
  | Ok id_field =>
      match int id_field with
      | Raise x => (st, Raise x)
      | Ok emp_id =>
          match Csv.subscript row "Date" with
          | Raise x => (st, Raise x)
          | Ok date =>
              match Csv.subscript row "Status" with
              | Raise x => (st, Raise x)
              | Ok status => add_record (PyInt emp_id) date status st
              end
          end
      end
  end.
Proof.
  unfold import_row, mbind, prog_bind, lift.
  destruct (Csv.subscript row "Employee_ID") as [id_field|]; [|done].
  destruct (int id_field); [|done].
  destruct (Csv.subscript row "Date"); [|done].
  by destruct (Csv.subscript row "Status").
Qed.

Lemma store_inv_import_row (st st' : store) (row : gmap string pyval) (r : result ()) :
  store_inv st → import_row row st = (st', r) → store_inv st'.
Proof.
  intros Hinv. rewrite import_row_unfold.
  destruct (Csv.subscript row "Employee_ID") as [id_field|]; [|by intros [= <- _]].
  destruct (int id_field); [|by intros [= <- _]].
  destruct (Csv.subscript row "Date"); [|by intros [= <- _]].
  destruct (Csv.subscript row "Status"); [|by intros [= <- _]].
  by apply store_inv_add_record.
Qed.

Lemma store_inv_import_rows (rows : list (gmap string pyval)) (count : nat) (st : store) :
  store_inv st → store_inv (import_rows count rows st).1.
Proof.
  revert count st. induction rows as [|row rows IH]; intros count st Hinv; [done|].
  cbn [import_rows].
  destruct (import_row row st) as [st' r] eqn:E.
  pose proof (store_inv_import_row _ _ _ _ Hinv E) as Hinv'.
  destruct r as [[]|[msg|key|]]; by auto.
Qed.

Lemma store_inv_apply_op (st : store) (o : op) :
  store_inv st → store_inv (apply_op st o).
Proof.
  intros Hinv. destruct o as [emp_id date status | emp_id date | f]; simpl.
  - destruct (add_record emp_id date status st) as [st' r] eqn:E.
    by eapply store_inv_add_record.
  - destruct (delete_record emp_id date st) as [st' r] eqn:E.
    by eapply store_inv_delete_record.
  - by apply store_inv_import_rows.
Qed.

Lemma store_inv_run (ops : list op) : store_inv (foldl apply_op __init__ ops).
Proof.
  induction ops as [|o ops IH] using rev_ind.
  - apply store_inv_empty.
  - rewrite foldl_snoc. by apply store_inv_apply_op.
Qed.

(** C3.  Every store reached from the empty one by adding, deleting and
    importing, whether the operations succeed or raise, has positive employee
    keys, canonical date keys, statuses of the fixed set, and no employee
    with an empty record map. *)
Theorem reachable_store_inv (st : store) : reachable st → store_inv st.
Proof.
  intros [ops ->]. induction ops as [|o ops IH] using rev_ind.
  - apply store_inv_empty.
  - rewrite foldl_snoc. destruct o as [emp_id date status | emp_id date | f]; simpl.
    + destruct (add_record emp_id date status _) as [st' r] eqn:E.
      by eapply store_inv_add_record.
    + destruct (delete_record emp_id date _) as [st' r] eqn:E.
      by eapply store_inv_delete_record.
    + by apply store_inv_import_rows.
Qed.

End invariant.

Lemma reachable_store_inv_witness :
  reachable {[ 101 := {[ "2026-02-02"%string := "Leave"%string ]} ]}
  ∧ store_inv {[ 101 := {[ "2026-02-02"%string := "Leave"%string ]} ]}.
Proof.
  assert (H : reachable {[ 101 := {[ "2026-02-02"%string := "Leave"%string ]} ]}).
  { exists [Add (PyInt 101) (PyStr "2026-02-01") (PyStr "Present");
            Add (PyInt 0) (PyStr "2026-02-01") (PyStr "Present");
            Import [["Employee_ID"; "Date"; "Status"];
                    ["101"; "2026-2-2"; "Leave"]; ["102"; "2026-02-30"; "Leave"]]%string;
            Delete 101 (PyStr "2026-02-01")].
    reflexivity. }
  split; [exact H | exact (reachable_store_inv _ H)].
Defined.

(* ===================================================================== *)
(** * Filtering by a range of dates *)
(* ===================================================================== *)

Section filtering.

Lemma ascii_compare_Lt_trans (a b c : ascii) :
  Ascii.compare a b = Lt → Ascii.compare b c = Lt → Ascii.compare a c = Lt.
Proof.
  unfold Ascii.compare. rewrite !N.compare_lt_iff. apply N.lt_trans.
Qed.

Lemma string_compare_Lt_trans (s1 s2 s3 : string) :
  String.compare s1 s2 = Lt → String.compare s2 s3 = Lt → String.compare s1 s3 = Lt.
Proof.
  revert s2 s3. induction s1 as [|a s1 IH]; intros [|b s2] [|c s3]; simpl; try done.
  destruct (Ascii.compare a b) eqn:Eab; try done;
    destruct (Ascii.compare b c) eqn:Ebc; try done; intros H12 H23.
  - apply Ascii.compare_eq_iff in Eab as ->. apply Ascii.compare_eq_iff in Ebc as ->.
    replace (Ascii.compare c c) with Eq
      by (symmetry; unfold Ascii.compare; apply N.compare_refl).
    by eapply IH.
  - apply Ascii.compare_eq_iff in Eab as ->. by rewrite Ebc.
  - apply Ascii.compare_eq_iff in Ebc as ->. by rewrite Eab.
  - by rewrite (ascii_compare_Lt_trans a b c).
Qed.

Lemma str_le_trans (s1 s2 s3 : string) :
  str_le s1 s2 = true → str_le s2 s3 = true → str_le s1 s3 = true.
Proof.
  unfold str_le, String.leb.
  destruct (String.compare s1 s2) eqn:E12; try done;
    destruct (String.compare s2 s3) eqn:E23; try done; intros _ _.
  - apply String.compare_eq_iff in E12 as ->. by rewrite E23.
  - apply String.compare_eq_iff in E12 as ->. by rewrite E23.
  - apply String.compare_eq_iff in E23 as <-. by rewrite E12.
  - by rewrite (string_compare_Lt_trans s1 s2 s3).
Qed.

Lemma in_date_range_iff (start end_ date status : string) :
  in_date_range start end_ (date, status) ↔
  str_le start date = true ∧ str_le date end_ = true.
Proof.
  unfold in_date_range. simpl. rewrite andb_True, !Is_true_true. done.
Qed.



Example filter_by_date_range_example :
  filter_by_date_range
    {[ 106 := {[ "2026-02-01"%string := "Present"%string;
                 "2026-02-05"%string := "Absent"%string ]} ]}
    (PyStr "2026-02-01") (PyStr "2026-02-03")
  = Ok {[ 106 := {[ "2026-02-01"%string := "Present"%string ]} ]}.
Proof. reflexivity. Qed.

Example filter_by_date_range_reversed :
  filter_by_date_range
    {[ 106 := {[ "2026-02-01"%string := "Present"%string;
                 "2026-02-05"%string := "Absent"%string ]} ]}
    (PyStr "2026-02-05") (PyStr "2026-02-01")
  = Ok ∅.
Proof. reflexivity. Qed.

End filtering.

(* ===================================================================== *)
(** * Summaries and attendance rates *)
(* ===================================================================== *)

Section summaries.

Implicit Types (l : list string) (summary : gmap string nat).

Lemma summary_init_lookup (status : string) :
  status ∈ VALID_STATUSES → summary_init !! status = Some 0%nat.
Proof.
  unfold VALID_STATUSES.
  intros [-> | [-> | ->%list_elem_of_singleton]%elem_of_cons]%elem_of_cons; reflexivity.
Qed.

Lemma summary_init_dom : dom summary_init = list_to_set VALID_STATUSES.
Proof.
  unfold summary_init. rewrite dom_list_to_map_L. f_equal.
Qed.

Lemma summary_init_sum : sum_values summary_init = 0%nat.
Proof. reflexivity. Qed.

Lemma summary_incr_Ok summary (status : string) (n : nat) :
  summary !! status = Some n →
  summary_incr (Ok summary) status = Ok (<[status := S n]> summary).
Proof. intros H. unfold summary_incr. cbn. by rewrite H. Qed.

Lemma summary_incr_KeyError summary (status : string) :
  summary !! status = None →
  summary_incr (Ok summary) status = Raise (KeyError status).
Proof. intros H. unfold summary_incr. cbn. by rewrite H. Qed.

Lemma summarize_loop_Raise l (x : exn) : foldl summary_incr (Raise x) l = Raise x.
Proof. induction l; [done | by cbn]. Qed.

(** The loop of [_summarize] over statuses that all have an entry: no
    [KeyError], the same keys, and each entry grown by the number of
    occurrences of its status. *)
Lemma summarize_loop l summary :
  (∀ status, status ∈ l → is_Some (summary !! status)) →
  ∃ summary',
    foldl summary_incr (Ok summary) l = Ok summary'
    ∧ dom summary' = dom summary
    ∧ ∀ status n, summary !! status = Some n →
        summary' !! status = Some (n + length (filter (λ x, x = status) l))%nat.
Proof.
  revert summary. induction l as [|a l IH]; intros summary Hkeys.
  - exists summary. split_and!; [done..|]. intros status n ->. f_equal. simpl. lia.
  - destruct (Hkeys a) as [k Hk]; [left|].
    cbn [foldl]. rewrite (summary_incr_Ok _ _ _ Hk).
    destruct (IH (<[a := S k]> summary)) as (summary' & Hfold & Hdom & Hcount).
    { intros status Hin. apply lookup_insert_is_Some'. right. apply Hkeys. by right. }
    exists summary'. split_and!; [done | |].
    + rewrite Hdom. apply dom_insert_lookup_L. by eauto.
    + intros status n Hn. destruct (decide (status = a)) as [-> | Hne].
      * rewrite filter_cons_True by done.
        rewrite (Hcount a (S k)) by apply lookup_insert_eq.
        f_equal. simpl. assert (n = k) by congruence. lia.
      * rewrite filter_cons_False by congruence.
        apply Hcount. by rewrite lookup_insert_ne.
Qed.

Lemma sum_values_insert summary (status : string) (n : nat) :
  sum_values (<[status := n]> summary)
  = (n + sum_values (delete status summary))%nat.
Proof.
  unfold sum_values. rewrite <- insert_delete_eq.
  assert (Hperm : (map_to_list (<[status := n]> (delete status summary))).*2
                  ≡ₚ n :: (map_to_list (delete status summary)).*2).
  { rewrite map_to_list_insert by apply lookup_delete_eq. done. }
  by rewrite (foldr_permutation_proper (=) Nat.add 0%nat
                ltac:(intros; lia) _ _ Hperm).
Qed.

Lemma sum_values_lookup summary (status : string) (k : nat) :
  summary !! status = Some k →
  sum_values summary = (k + sum_values (delete status summary))%nat.
Proof.
  intros Hk. rewrite <- (insert_id summary status k Hk) at 1.
  apply sum_values_insert.
Qed.

Lemma summarize_loop_sum l summary summary' :
  foldl summary_incr (Ok summary) l = Ok summary' →
  sum_values summary' = (sum_values summary + length l)%nat.
Proof.
  revert summary. induction l as [|a l IH]; intros summary.
  - intros [= ->]. simpl. lia.
  - cbn [foldl]. destruct (summary !! a) as [k|] eqn:Hk.
    + rewrite (summary_incr_Ok _ _ _ Hk).
      intros H%IH. rewrite H, sum_values_insert, (sum_values_lookup _ _ _ Hk).
      cbn [length]. lia.
    + by rewrite (summary_incr_KeyError _ _ Hk), summarize_loop_Raise.
Qed.

Lemma count_status_list (records : gmap string string) (status : string) :
  count_status records status
  = length (filter (λ x, x = status) (map_to_list records).*2).
Proof.
  unfold count_status. rewrite map_filter_alt, map_size_list_to_map.
  - induction (map_to_list records) as [|[date s] items IH]; [done|].
    cbn [fmap list_fmap]. rewrite !filter_cons. simpl.
    destruct (decide (s = status)); simpl; by rewrite IH.
  - eapply sublist_NoDup; [apply (NoDup_fst_map_to_list records)|].
    apply fmap_sublist, sublist_filter.
Qed.

(** [_summarize] on records whose statuses are of the fixed set. *)
Lemma summarize_valid (records : gmap string string) :
  (∀ date status, records !! date = Some status → status ∈ VALID_STATUSES) →
  ∃ summary,
    _summarize records = Ok summary
    ∧ dom summary = list_to_set VALID_STATUSES
    ∧ (∀ status, status ∈ VALID_STATUSES →
         summary !! status = Some (count_status records status))
    ∧ sum_values summary = size records.
Proof.
  intros Hvalid. unfold _summarize.
  destruct (summarize_loop (map_to_list records).*2 summary_init)
    as (summary & Hfold & Hdom & Hcount).
  { intros status [[date s] [-> Hin]]%list_elem_of_fmap.
    apply elem_of_map_to_list in Hin. simpl.
    rewrite summary_init_lookup; [by eauto | by eapply Hvalid]. }
  exists summary. split_and!; [done | | |].
  - by rewrite Hdom, summary_init_dom.
  - intros status Hs. rewrite count_status_list.
    by rewrite (Hcount status 0%nat (summary_init_lookup status Hs)).
  - rewrite (summarize_loop_sum _ _ _ Hfold), summary_init_sum.
    by rewrite length_fmap, length_map_to_list.
Qed.

End summaries.

Section summary_claims.

(** C10.  On a store that satisfies the invariant, [get_summary] gives the
    not-found signal exactly when the employee has no record; for an
    employee of the store it gives a mapping whose keys are exactly the three
    statuses, each with the number of the employee's records of that status
    (zero when there is none). *)
Theorem get_summary_spec (st : store) (emp_id : Z) :
  store_inv st →
  (get_summary st emp_id = Ok None ↔ ∀ date, status_of st emp_id date = None)
  ∧ (∀ records, st !! emp_id = Some records →
       ∃ summary : gmap string nat,
         get_summary st emp_id = Ok (Some summary)
         ∧ dom summary = {[ "Present"; "Absent"; "Leave" ]}%string
         ∧ ∀ status, status ∈ VALID_STATUSES →
             summary !! status = Some (count_status records status)).
Proof.
  intros Hinv. unfold get_summary.
  destruct (st !! emp_id) as [records|] eqn:E.
  - destruct (Hinv emp_id records E) as (_ & Hne & Hrec).
    destruct (summarize_valid records) as (summary & -> & Hdom & Hcount & _).
    { intros date status H. by apply (Hrec date status H). }
    split.
    + split; [done|]. intros Hnone.
      apply map_choose in Hne as (date & status & Hd).
      specialize (Hnone date). unfold status_of in Hnone.
      rewrite E in Hnone. simpl in Hnone. congruence.
    + intros ? [= <-]. exists summary. split_and!; [done | | done].
      rewrite Hdom. unfold VALID_STATUSES. set_solver.
  - split; [|done]. split; [|done]. intros _ date. unfold status_of. by rewrite E.
Qed.

Lemma get_summary_spec_witness :
  let st := foldl apply_op __init__
              [Add (PyInt 101) (PyStr "2026-02-01") (PyStr "Present")] in
  store_inv st
  ∧ (get_summary st 101 = Ok None ↔ ∀ date, status_of st 101 date = None)
  ∧ (∀ records, st !! 101 = Some records →
       ∃ summary : gmap string nat,
         get_summary st 101 = Ok (Some summary)
         ∧ dom summary = {[ "Present"; "Absent"; "Leave" ]}%string
         ∧ ∀ status, status ∈ VALID_STATUSES →
             summary !! status = Some (count_status records status)).
Proof.
  split; [apply store_inv_run|].
  apply (get_summary_spec _ 101), store_inv_run.
Defined.

Example get_summary_one_present :
  get_summary {[ 101 := {[ "2026-02-01"%string := "Present"%string ]} ]} 101
  = Ok (Some {[ "Present"%string := 1%nat; "Absent"%string := 0%nat;
                "Leave"%string := 0%nat ]}).
Proof. reflexivity. Qed.

Example get_summary_unknown : get_summary __init__ 999 = Ok None.
Proof. reflexivity. Qed.

Lemma count_status_two (d1 d2 s1 s2 status : string) :
  d1 ≠ d2 →
  count_status {[ d1 := s1; d2 := s2 ]} status
  = ((if decide (s1 = status) then 1 else 0)
     + (if decide (s2 = status) then 1 else 0))%nat.
Proof.
  intros Hne. unfold count_status.
  assert (H2 : ({[ d2 := s2 ]} : gmap string string) !! d1 = None)
    by by apply lookup_singleton_ne.
  assert (Hdel : delete d1 ({[ d2 := s2 ]} : gmap string string) = {[ d2 := s2 ]})
    by by apply delete_id.
  destruct (decide (s1 = status)) as [E1|E1], (decide (s2 = status)) as [E2|E2].
  - rewrite map_filter_insert_True, map_filter_singleton_True by done.
    by rewrite map_size_insert_None, map_size_singleton.
  - rewrite map_filter_insert_True, map_filter_singleton_False by done.
    by rewrite insert_empty, map_size_singleton.
  - rewrite map_filter_insert_False, Hdel, map_filter_singleton_True by done.
    by rewrite map_size_singleton.
  - rewrite map_filter_insert_False, Hdel, map_filter_singleton_False by done.
    by rewrite map_size_empty.
Qed.

(** C9.  [get_attendance_rate] gives the not-found signal exactly when the
    employee is not a key of the store.  For an employee of the store whose
    statuses are of the fixed set it gives [0.0] when they have no record,
    and else the float [(present / total) * 100] of the number of their
    [Present] records and the number of their records, as computed, with no
    rounding to digits.  One [Present] and one [Absent] record give 50.0. *)
Theorem get_attendance_rate_spec (st : store) (emp_id : Z) :
  (get_attendance_rate st emp_id = Ok None ↔ st !! emp_id = None)
  ∧ (∀ records,
       st !! emp_id = Some records →
       (∀ date status, records !! date = Some status → status ∈ VALID_STATUSES) →
       get_attendance_rate st emp_id
       = Ok (Some (if decide (size records = 0%nat) then 0%float
                   else (float_of_nat (count_status records "Present")
                         / float_of_nat (size records) * float_of_nat 100)%float)))
  ∧ (∀ d1 d2 : string,
       d1 ≠ d2 →
       st !! emp_id = Some {[ d1 := "Present"%string; d2 := "Absent"%string ]} →
       get_attendance_rate st emp_id = Ok (Some 50%float)).
Proof.
  assert (Hrate : ∀ records,
       st !! emp_id = Some records →
       (∀ date status, records !! date = Some status → status ∈ VALID_STATUSES) →
       get_attendance_rate st emp_id
       = Ok (Some (if decide (size records = 0%nat) then 0%float
                   else (float_of_nat (count_status records "Present")
                         / float_of_nat (size records) * float_of_nat 100)%float))).
  { intros records E Hvalid. unfold get_attendance_rate. rewrite E.
    destruct (summarize_valid records Hvalid) as (summary & -> & _ & Hcount & Hsum).
    cbn. rewrite Hsum. destruct (decide (size records = 0%nat)); [done|].
    rewrite (Hcount "Present"%string) by (unfold VALID_STATUSES; left). done. }
  split_and!; [|done|].
  - unfold get_attendance_rate. destruct (st !! emp_id) as [records|]; [|done].
    split; [|done]. destruct (_summarize records) as [summary|]; cbn; [|done].
    destruct (decide _); [done|]. by destruct (summary !! "Present"%string).
  - intros d1 d2 Hne E. rewrite (Hrate _ E).
    + rewrite (count_status_two d1 d2 _ _ _ Hne).
      rewrite map_size_insert_None, map_size_singleton
        by by rewrite lookup_singleton_ne.
      reflexivity.
    + intros date status [[_ <-] | [_ [_ <-]%lookup_singleton_Some]]%lookup_insert_Some;
        unfold VALID_STATUSES; set_solver.
Qed.

Example get_attendance_rate_half :
  get_attendance_rate
    {[ 103 := {[ "2026-02-01"%string := "Present"%string;
                 "2026-02-02"%string := "Absent"%string ]} ]} 103
  = Ok (Some 50%float).
Proof. reflexivity. Qed.

Example get_attendance_rate_empty_records :
  get_attendance_rate {[ 103 := ∅ ]} 103 = Ok (Some 0%float).
Proof. reflexivity. Qed.

Example get_attendance_rate_third :
  get_attendance_rate
    {[ 103 := {[ "2026-02-01"%string := "Present"%string;
                 "2026-02-02"%string := "Absent"%string;
                 "2026-02-03"%string := "Leave"%string ]} ]} 103
  = Ok (Some 0x1.0aaaaaaaaaaaap+5%float).
Proof. reflexivity. Qed.

End summary_claims.

(* ===================================================================== *)
(** * Export and import *)
(* ===================================================================== *)

Section import_export.

Implicit Types (st : store) (row : gmap string pyval).

(** ** The import loop *)

Lemma import_row_Raise row st st' (x : exn) :
  import_row row st = (st', Raise x) → st' = st.
Proof.
  rewrite import_row_unfold.
  destruct (Csv.subscript row "Employee_ID") as [id_field|]; [|by intros [= <- _]].
  destruct (int id_field); [|by intros [= <- _]].
  destruct (Csv.subscript row "Date"); [|by intros [= <- _]].
  destruct (Csv.subscript row "Status"); [|by intros [= <- _]].
  by intros [-> _]%add_record_Raise.
Qed.

Lemma import_rows_cons_Ok row rows st st' (count : nat) :
  import_row row st = (st', Ok ()) →
  import_rows count (row :: rows) st = import_rows (S count) rows st'.
Proof. intros H. cbn [import_rows]. by rewrite H. Qed.

(** The row [DictReader] makes of a full row under the header of the export. *)
Lemma subscript_exported_row (a b c : string) :
  let row := Csv.dict_row csv_header [a; b; c] in
  Csv.subscript row "Employee_ID" = Ok (PyStr a)
  ∧ Csv.subscript row "Date" = Ok (PyStr b)
  ∧ Csv.subscript row "Status" = Ok (PyStr c).
Proof.
  unfold Csv.subscript, Csv.dict_row, csv_header. cbn [zip zip_with foldl length drop fst snd].
  split_and!.
  - by rewrite !lookup_insert_ne, lookup_insert_eq by done.
  - by rewrite lookup_insert_ne, lookup_insert_eq by done.
  - by rewrite lookup_insert_eq.
Qed.

Lemma import_row_exported st (item : Z * string * string) :
  valid_item item →
  import_row (Csv.dict_row csv_header (row_of item)) st = (put st item, Ok ()).
Proof.
  destruct item as [[e d] s]. intros (He & Hd & Hs).
  destruct (subscript_exported_row (str_of_int e) d s) as (H1 & H2 & H3).
  rewrite import_row_unfold. cbn [row_of]. rewrite H1, H2, H3, int_str_of_int.
  by apply add_record_valid.
Qed.

Lemma import_rows_exported (l : list (Z * string * string)) st (count : nat) :
  Forall valid_item l →
  import_rows count (map (λ item, Csv.dict_row csv_header (row_of item)) l) st
  = (foldl put st l, Ok (count + length l)%nat).
Proof.
  revert st count. induction l as [|item l IH]; intros st count Hl.
  - simpl. by rewrite Nat.add_0_r.
  - apply Forall_cons in Hl as [Hitem Hl]. cbn [map].
    rewrite (import_rows_cons_Ok _ _ _ _ _ (import_row_exported st item Hitem)).
    rewrite IH by done. cbn [foldl length]. do 2 f_equal. lia.
Qed.

(** ** What the export writes *)

Lemma export_to_csv_items st :
  export_to_csv st = csv_header :: map row_of (items st).
Proof.
  unfold export_to_csv, items. f_equal.
  rewrite concat_map, map_map. f_equal. apply map_ext. intros [e records].
  rewrite map_map. apply map_ext. by intros [d s].
Qed.

Lemma in_sorted_items_Z {A} (d : gmap Z A) (k : Z) (v : A) :
  In (k, v) (sorted_items_Z d) ↔ d !! k = Some v.
Proof.
  unfold sorted_items_Z. rewrite <- list_elem_of_In, merge_sort_Permutation.
  apply elem_of_map_to_list.
Qed.

Lemma in_sorted_items_str {A} (d : gmap string A) (k : string) (v : A) :
  In (k, v) (sorted_items_str d) ↔ d !! k = Some v.
Proof.
  unfold sorted_items_str. rewrite <- list_elem_of_In, merge_sort_Permutation.
  apply elem_of_map_to_list.
Qed.

Lemma in_items st (e : Z) (d s : string) :
  In (e, d, s) (items st) ↔ status_of st e d = Some s.
Proof.
  unfold items, status_of. rewrite in_concat. split.
  - intros (l & Hl & Hin). apply in_map_iff in Hl as ([e' records] & <- & He).
    apply in_map_iff in Hin as ([d' s'] & [= -> -> ->] & Hd).
    apply in_sorted_items_Z in He. apply in_sorted_items_str in Hd.
    by rewrite He.
  - destruct (st !! e) as [records|] eqn:E; [|done]. simpl. intros Hd.
    exists (map (λ '(date, status), (e, date, status)) (sorted_items_str records)).
    split.
    + apply in_map_iff. exists (e, records). split; [done|].
      by apply in_sorted_items_Z.
    + apply in_map_iff. exists (d, s). split; [done|].
      by apply in_sorted_items_str.
Qed.

Lemma items_valid st : store_inv st → Forall valid_item (items st).
Proof.
  intros Hinv. apply List.Forall_forall. intros [[e d] s] Hin%in_items.
  unfold status_of in Hin. destruct (st !! e) as [records|] eqn:E; [|done].
  destruct (Hinv e records E) as (He & _ & Hrec).
  destruct (Hrec d s Hin). done.
Qed.

Lemma DictReader_export st :
  Csv.DictReader (export_to_csv st)
  = map (λ item, Csv.dict_row csv_header (row_of item)) (items st).
Proof.
  rewrite export_to_csv_items. unfold Csv.DictReader.
  assert (Hfilter : ∀ l : list (Z * string * string),
            filter (λ r : Csv.row, r ≠ []) (map row_of l) = map row_of l).
  { induction l as [|[[e d] s] l IH]; [done|].
    cbn [map]. rewrite filter_cons_True by done. by rewrite IH. }
  by rewrite Hfilter, map_map.
Qed.

(** ** Reading the items back *)

Lemma no_empty_put st item : no_empty st → no_empty (put st item).
Proof.
  destruct item as [[e d] s]. intros Hne e' records'. unfold put.
  destruct (decide (e' = e)) as [-> | Hne'].
  - rewrite lookup_insert_eq. intros [= <-]. apply insert_non_empty.
  - rewrite lookup_insert_ne by done. apply Hne.
Qed.

Lemma no_empty_foldl_put l st : no_empty st → no_empty (foldl put st l).
Proof.
  revert st. induction l as [|item l IH]; intros st Hne; [done|].
  cbn [foldl]. by apply IH, no_empty_put.
Qed.

Lemma status_of_put st (e e' : Z) (d d' s : string) :
  status_of (put st (e, d, s)) e' d'
  = if decide (e' = e ∧ d' = d) then Some s else status_of st e' d'.
Proof.
  unfold status_of, put. destruct (decide (e' = e)) as [-> | Hne].
  - rewrite lookup_insert_eq. simpl. destruct (decide (d' = d)) as [-> | Hne].
    + rewrite lookup_insert_eq. by rewrite decide_True.
    + rewrite lookup_insert_ne by done. rewrite decide_False by naive_solver.
      by destruct (st !! e).
  - rewrite lookup_insert_ne by done. by rewrite decide_False by naive_solver.
Qed.

(** A status read after the items are put comes from an item or was there
    before; and an item put leaves some status for its pair. *)
Lemma status_of_foldl_put l st (e : Z) (d s : string) :
  status_of (foldl put st l) e d = Some s →
  In (e, d, s) l ∨ status_of st e d = Some s.
Proof.
  revert st. induction l as [|[[e' d'] s'] l IH]; intros st; [by right|].
  cbn [foldl]. intros [Hin | Hst]%IH; [left; by right|].
  rewrite status_of_put in Hst. case_decide as Heq; [|by right].
  destruct Heq as [-> ->]. injection Hst as ->. left. by left.
Qed.

Lemma status_of_foldl_put_is_Some l st (e : Z) (d : string) :
  (∃ s, In (e, d, s) l) ∨ is_Some (status_of st e d) →
  is_Some (status_of (foldl put st l) e d).
Proof.
  revert st. induction l as [|[[e' d'] s'] l IH]; intros st.
  - intros [[s []] | H]; done.
  - cbn [foldl]. intros H. apply IH.
    destruct (decide (e = e' ∧ d = d')) as [[-> ->] | Hne].
    + right. rewrite status_of_put, decide_True by done. by eauto.
    + destruct H as [[s [Heq | Hin]] | H].
      * exfalso. apply Hne. by injection Heq as -> -> ->.
      * left. by eauto.
      * right. by rewrite status_of_put, decide_False.
Qed.

(** Stores without empty record maps are equal when they give every pair
    the same status. *)
Lemma store_ext st1 st2 :
  no_empty st1 → no_empty st2 →
  (∀ e d, status_of st1 e d = status_of st2 e d) → st1 = st2.
Proof.
  intros Hne1 Hne2 Heq. apply map_eq. intros e.
  destruct (st1 !! e) as [r1|] eqn:E1, (st2 !! e) as [r2|] eqn:E2; [| | |done].
  - f_equal. apply map_eq. intros d. specialize (Heq e d).
    unfold status_of in Heq. by rewrite E1, E2 in Heq.
  - destruct (map_choose r1 (Hne1 e r1 E1)) as (d & s & Hd).
    specialize (Heq e d). unfold status_of in Heq. rewrite E1, E2 in Heq.
    simpl in Heq. congruence.
  - destruct (map_choose r2 (Hne2 e r2 E2)) as (d & s & Hd).
    specialize (Heq e d). unfold status_of in Heq. rewrite E1, E2 in Heq.
    simpl in Heq. congruence.
Qed.

Lemma foldl_put_items st : no_empty st → foldl put ∅ (items st) = st.
Proof.
  intros Hne. apply store_ext; [by apply no_empty_foldl_put | done |].
  intros e d.
  assert (Hfwd : ∀ s, status_of (foldl put ∅ (items st)) e d = Some s →
                      status_of st e d = Some s).
  { intros s [Hin | Hempty]%status_of_foldl_put; [by apply in_items | done]. }
  apply option_eq. intros s. split; [apply Hfwd|]. intros E.
  destruct (status_of_foldl_put_is_Some (items st) ∅ e d) as [s' Hs'].
  { left. exists s. by apply in_items. }
  pose proof (Hfwd s' Hs'). congruence.
Qed.

Lemma length_concat_map {A B} (g : A → list B) (l : list A) :
  length (concat (map g l)) = foldr Nat.add 0%nat ((λ x, length (g x)) <$> l).
Proof.
  induction l as [|x l IH]; [done|]. cbn [map concat]. rewrite length_app, IH. done.
Qed.

Lemma length_items st : length (items st) = record_count st.
Proof.
  unfold items, record_count. rewrite length_concat_map.
  assert (Hperm : sorted_items_Z st ≡ₚ map_to_list st)
    by apply merge_sort_Permutation.
  rewrite (foldr_permutation_proper (=) Nat.add 0%nat ltac:(intros; lia) _ _
             (fmap_Permutation _ _ _ Hperm)).
  f_equal. rewrite <- list_fmap_compose. apply list_fmap_ext.
  intros _ [e records] _. simpl. rewrite length_map.
  unfold sorted_items_str. rewrite merge_sort_Permutation.
  apply length_map_to_list.
Qed.

Lemma store_inv_no_empty st : store_inv st → no_empty st.
Proof. intros Hinv e records E. by destruct (Hinv e records E) as (_ & ? & _). Qed.

(** C7.  For a store that satisfies the invariant, importing the rows
    [export_to_csv] writes into an empty store gives the store back, the same
    employees, dates and statuses, and returns the number of its records. *)
Theorem export_import_round_trip (st : store) :
  store_inv st →
  import_from_csv (export_to_csv st) __init__ = (st, Ok (record_count st)).
Proof.
  intros Hinv. unfold import_from_csv.
  rewrite DictReader_export, import_rows_exported by by apply items_valid.
  rewrite length_items. unfold __init__.
  by rewrite foldl_put_items by by apply store_inv_no_empty.
Qed.

Lemma export_import_round_trip_witness :
  let st := foldl apply_op __init__
              [Add (PyInt 103) (PyStr "2026-02-01") (PyStr "Present");
               Add (PyInt 103) (PyStr "2026-02-02") (PyStr "Absent");
               Add (PyInt 7) (PyStr "2026-02-02") (PyStr "Leave")] in
  store_inv st
  ∧ import_from_csv (export_to_csv st) __init__ = (st, Ok (record_count st)).
Proof.
  split; [apply store_inv_run|].
  apply export_import_round_trip, store_inv_run.
Defined.

Example export_to_csv_example :
  export_to_csv
    {[ 103 := {[ "2026-02-02"%string := "Absent"%string;
                 "2026-02-01"%string := "Present"%string ]};
       7 := {[ "2026-02-02"%string := "Leave"%string ]} ]}
  = [ ["Employee_ID"; "Date"; "Status"];
      ["7"; "2026-02-02"; "Leave"];
      ["103"; "2026-02-01"; "Present"];
      ["103"; "2026-02-02"; "Absent"] ]%string.
Proof. reflexivity. Qed.

(** ** Rows that are skipped, and the row that is not *)

(** Under the header of the export, a row that stops before the [Date]
    column is skipped, as is an empty line and a row with a bad ID, date or
    status; the rows around them are imported and counted.  Under a header
    without an [Employee_ID] column every row is skipped. *)
Example import_from_csv_skips :
  import_from_csv
    [ ["Employee_ID"; "Date"; "Status"];
      ["4"; "2026-02-01"; "Present"];
      ["5"];
      [];
      ["x"; "2026-02-01"; "Present"];
      ["0"; "2026-02-01"; "Present"];
      ["4"; "02-01-2026"; "Present"];
      ["4"; "2026-02-02"; "Late"];
      ["4"; "2026-02-02"; "Leave"; "extra"] ]%string __init__
  = ({[ 4 := {[ "2026-02-01"%string := "Present"%string;
                "2026-02-02"%string := "Leave"%string ]} ]}, Ok 2%nat).
Proof. reflexivity. Qed.

Example import_from_csv_no_id_column :
  import_from_csv
    [ ["Date"; "Status"]; ["2026-02-01"; "Present"] ]%string __init__
  = (∅, Ok 0%nat).
Proof. reflexivity. Qed.

(** The only exception that leaves the loop is the [TypeError] of [int] on a
    row with [None] under [Employee_ID]; without such a row the import
    returns a count. *)
Lemma import_row_TypeError row st st' :
  import_row row st = (st', Raise TypeError) → row !! "Employee_ID"%string = Some PyNone.
Proof.
  rewrite import_row_unfold. unfold Csv.subscript.
  destruct (row !! "Employee_ID"%string) as [[|z|s]|]; try done.
  - cbn. destruct (row !! "Date"%string); [|done].
    destruct (row !! "Status"%string); [|done].
    by intros [_ [msg ?]]%add_record_Raise.
  - cbn. destruct (int_of_chars _); [|done].
    destruct (row !! "Date"%string); [|done].
    destruct (row !! "Status"%string); [|done].
    by intros [_ [msg ?]]%add_record_Raise.
Qed.

Lemma import_rows_returns (rows : list (gmap string pyval)) st (count : nat) :
  Forall (λ row, row !! "Employee_ID"%string ≠ Some PyNone) rows →
  ∃ n, (import_rows count rows st).2 = Ok n.
Proof.
  revert st count. induction rows as [|row rows IH]; intros st count Hrows.
  - by exists count.
  - apply Forall_cons in Hrows as [Hrow Hrows]. cbn [import_rows].
    destruct (import_row row st) as [st' [[]|[msg|key|]]] eqn:E; [by auto..|].
    by apply import_row_TypeError in E.
Qed.

(** C8, on the code.  Under a header that names [Employee_ID] last, a row
    that stops before that column has [None] there; [int(None)] raises a
    [TypeError], which the loop does not catch: the import ends with that
    exception, it returns no count, and the valid row after it is never
    read.  The valid row before it stays imported. *)
Theorem import_from_csv_short_row_raises :
  import_from_csv
    [ ["Date"; "Status"; "Employee_ID"];
      ["2026-02-01"; "Present"; "4"];
      ["2026-02-02"; "Present"];
      ["2026-02-03"; "Present"; "4"] ]%string __init__
  = ({[ 4 := {[ "2026-02-01"%string := "Present"%string ]} ]}, Raise TypeError).
Proof. reflexivity. Qed.

End import_export.

(* ===================================================================== *)
(** * What [get_all_records] shares with the store *)
(* ===================================================================== *)

Section aliasing.

Import Aliasing.

Implicit Types (h : heap) (self d : ref).

Lemma well_formed_new_tracker h :
  well_formed (new_tracker h).1 (new_tracker h).2
  ∧ contents (new_tracker h).1 (new_tracker h).2 = __init__.
Proof.
  unfold new_tracker, well_formed, Aliasing.get_records, contents. simpl.
  rewrite lookup_insert_eq. simpl. by split_and!.
Qed.

(** On the mapping the tracker's dict stands for, the heap-level
    [set_record] is the [set_record] of the store-passing model. *)
Lemma contents_set_record h self (e : Z) (nd s : string) :
  well_formed h self →
  well_formed (Aliasing.set_record self e nd s h) self
  ∧ contents (Aliasing.set_record self e nd s h) self
    = <[e := <[nd := s]> (default ∅ (contents h self !! e))]> (contents h self).
Proof.
  intros ([records Hself] & Hclosed & Hinj).
  unfold Aliasing.get_records in Hclosed, Hinj. rewrite Hself in Hclosed, Hinj.
  simpl in Hclosed, Hinj.
  unfold Aliasing.set_record, well_formed, Aliasing.get_records, contents.
  rewrite Hself. simpl.
  destruct (records !! e) as [ri|] eqn:E; simpl.
  - rewrite Hself. simpl. split_and!; [by eauto | | done |].
    + intros e' ri' H. apply lookup_insert_is_Some'. right. by eapply Hclosed.
    + apply map_eq. intros e'. rewrite lookup_omap.
      destruct (decide (e' = e)) as [-> | Hne].
      * rewrite E. simpl. rewrite !lookup_insert_eq, lookup_omap, E. done.
      * rewrite lookup_insert_ne, lookup_omap by done.
        destruct (records !! e') as [ri'|] eqn:E'; simpl; [|done].
        rewrite lookup_insert_ne; [done|]. intros <-. apply Hne. by eapply Hinj.
  - rewrite lookup_insert_eq. simpl.
    pose proof (is_fresh (dom (inners h))) as Hfresh.
    set (ri := fresh (dom (inners h))) in *.
    assert (Hother : ∀ e' ri', records !! e' = Some ri' → ri' ≠ ri).
    { intros e' ri' H%Hclosed <-. by apply Hfresh, elem_of_dom. }
    split_and!; [by eauto | | |].
    + intros e' ri'. destruct (decide (e' = e)) as [-> | Hne].
      * rewrite lookup_insert_eq. intros [= <-]. rewrite lookup_insert_eq. by eauto.
      * rewrite lookup_insert_ne by done. intros H.
        apply lookup_insert_is_Some'. right. by eapply Hclosed.
    + intros e1 e2 ri'.
      destruct (decide (e1 = e)) as [-> | Hne1], (decide (e2 = e)) as [-> | Hne2];
        [done | | |].
      * rewrite lookup_insert_eq, lookup_insert_ne by done.
        intros [= <-] H. by destruct (Hother _ _ H).
      * rewrite lookup_insert_eq, lookup_insert_ne by done.
        intros H [= <-]. by destruct (Hother _ _ H).
      * rewrite !lookup_insert_ne by done. apply Hinj.
    + apply map_eq. intros e'. rewrite lookup_omap.
      destruct (decide (e' = e)) as [-> | Hne].
      * rewrite !lookup_insert_eq. simpl. rewrite lookup_insert_eq, lookup_omap, E.
        simpl. by rewrite insert_empty.
      * rewrite !lookup_insert_ne, lookup_omap by done.
        destruct (records !! e') as [ri'|] eqn:E'; simpl; [|done].
        rewrite lookup_insert_ne; [done|]. intros <-. by destruct (Hother _ _ E').
Qed.

Lemma frames_contents h0 h self :
  well_formed h0 self → frames h0 self h → contents h self = contents h0 self.
Proof.
  intros (_ & Hclosed & _) [Hself Hinner]. unfold contents. rewrite Hself.
  apply map_eq. intros e. rewrite !lookup_omap.
  destruct (default ∅ (outers h0 !! self) !! e) as [ri|] eqn:E; simpl; [|done].
  apply Hinner. by eapply Hclosed.
Qed.

Lemma frames_well_formed h0 h self :
  well_formed h0 self → frames h0 self h → well_formed h self.
Proof.
  intros (Hself & Hclosed & Hinj) [Eself Hinner].
  unfold well_formed, Aliasing.get_records in *. rewrite Eself.
  split_and!; [done | | done].
  intros e ri H. pose proof (Hclosed e ri H) as Hri. by rewrite Hinner.
Qed.

Lemma frames_mutate h0 h self d (m : mutation) :
  d ≠ self → outer_only m = true → frames h0 self h → frames h0 self (mutate d h m).
Proof.
  intros Hne Hm [Hself Hinner].
  destruct m as [e v | e v | e | | | |]; try discriminate Hm;
    unfold frames, mutate; simpl; rewrite lookup_insert_ne by done;
    (split; [done|]); try done.
  intros ri Hri. rewrite lookup_insert_ne; [by apply Hinner|].
  intros <-. apply (is_fresh (dom (inners h))), elem_of_dom.
  rewrite Hinner; done.
Qed.

Lemma frames_mutations h0 h self d (ms : list mutation) :
  d ≠ self → forallb outer_only ms = true →
  frames h0 self h → frames h0 self (foldl (mutate d) h ms).
Proof.
  intros Hne. revert h. induction ms as [|m ms IH]; intros h Hms Hf; [done|].
  cbn [forallb] in Hms. apply andb_true_iff in Hms as [Hm Hms].
  cbn [foldl]. apply IH; [done|]. by apply frames_mutate.
Qed.

Lemma get_all_records_fresh h self :
  is_Some (outers h !! self) → (get_all_records h self).2 ≠ self.
Proof.
  intros Hself Heq. apply (is_fresh (dom (outers h))).
  unfold get_all_records in Heq. simpl in Heq. rewrite Heq. by apply elem_of_dom.
Qed.

(** C4.  [get_all_records] is to return a defensive copy, and the code
    copies the outer dict only: the dict it returns holds the very inner
    dicts of the store.  On a tracker with the one record
    [(101, 2026-02-01, Present)], the write
    [result[101]["2026-02-01"] = "Absent"] through the returned dict is a
    write into the store: the store then holds [Absent] for that pair, and
    the summary of the employee changes with it. *)
Lemma get_all_records_shares_inner_dicts :
  let t := new_tracker (Heap ∅ ∅) in
  let h1 := Aliasing.set_record t.2 101 "2026-02-01" "Present" t.1 in
  let r := get_all_records h1 t.2 in
  let h2 := mutate r.2 r.1 (SetInner 101 "2026-02-01" "Absent") in
  contents r.1 t.2 = {[ 101 := {[ "2026-02-01"%string := "Present"%string ]} ]}
  ∧ contents h2 t.2 = {[ 101 := {[ "2026-02-01"%string := "Absent"%string ]} ]}
  ∧ get_summary (contents r.1 t.2) 101
    = Ok (Some {[ "Present"%string := 1%nat; "Absent"%string := 0%nat;
                  "Leave"%string := 0%nat ]})
  ∧ get_summary (contents h2 t.2) 101
    = Ok (Some {[ "Present"%string := 0%nat; "Absent"%string := 1%nat;
                  "Leave"%string := 0%nat ]}).
Proof. split_and!; reflexivity. Qed.

(** X20.  What the [copy()] of [get_all_records] does protect: it returns a
    new dict that shows what the store holds, and whatever entries the
    caller sets, replaces, deletes or clears in the returned dict itself,
    the store holds what it held, the tracker is as well formed as it was,
    and a record written by the tracker afterwards leaves the store holding
    what it would hold without the caller's changes. *)
Theorem get_all_records_copies_outer_dict h self (ms : list mutation) :
  well_formed h self →
  forallb outer_only ms = true →
  let copied := get_all_records h self in
  let mutated := foldl (mutate copied.2) copied.1 ms in
  contents copied.1 copied.2 = contents h self
  ∧ contents mutated self = contents h self
  ∧ well_formed mutated self
  ∧ ∀ (e : Z) (nd s : string),
      contents (Aliasing.set_record self e nd s mutated) self
      = contents (Aliasing.set_record self e nd s h) self.
Proof.
  intros Hwf Hms copied mutated. pose proof Hwf as (Hself & _).
  pose proof (get_all_records_fresh h self Hself) as Hne.
  assert (Hcopy : frames h self copied.1).
  { unfold frames, copied, get_all_records. simpl. split; [|done].
    apply lookup_insert_ne. intros Heq. apply Hne. by rewrite <- Heq. }
  assert (Hmutated : frames h self mutated) by by apply frames_mutations.
  pose proof (frames_contents _ _ _ Hwf Hmutated) as Hsame.
  pose proof (frames_well_formed _ _ _ Hwf Hmutated) as Hwf'.
  split_and!; [| done | done |].
  - unfold contents, copied, get_all_records. simpl. by rewrite lookup_insert_eq.
  - intros e nd s.
    destruct (contents_set_record mutated self e nd s Hwf') as [_ ->].
    destruct (contents_set_record h self e nd s Hwf) as [_ ->].
    by rewrite Hsame.
Qed.

Lemma get_all_records_copies_outer_dict_witness :
  let t := new_tracker (Heap ∅ ∅) in
  let h := Aliasing.set_record t.2 101 "2026-02-01" "Present" t.1 in
  let ms := [SetItem 5 {[ "2026-02-03"%string := "Leave"%string ]};
             DelItem 101; SetItemRef 7 1%positive; Clear] in
  let copied := get_all_records h t.2 in
  let mutated := foldl (mutate copied.2) copied.1 ms in
  well_formed h t.2
  ∧ forallb outer_only ms = true
  ∧ contents copied.1 copied.2 = contents h t.2
  ∧ contents mutated t.2 = contents h t.2
  ∧ well_formed mutated t.2
  ∧ ∀ (e : Z) (nd s : string),
      contents (Aliasing.set_record t.2 e nd s mutated) t.2
      = contents (Aliasing.set_record t.2 e nd s h) t.2.
Proof.
  assert (Hwf : well_formed
                  (Aliasing.set_record (new_tracker (Heap ∅ ∅)).2 101
                     "2026-02-01" "Present" (new_tracker (Heap ∅ ∅)).1)
                  (new_tracker (Heap ∅ ∅)).2).
  { apply contents_set_record, well_formed_new_tracker. }
  split; [exact Hwf|]. split; [reflexivity|].
  apply (get_all_records_copies_outer_dict _ _ _ Hwf). reflexivity.
Defined.

End aliasing.

(* ===================================================================== *)
(** * The tests of the repository, on the model *)
(* ===================================================================== *)

Section repository_tests.

(** [test_add_record_valid] *)
Example test_add_record_valid :
  get_summary (add_record (PyInt 101) (PyStr "2026-02-01") (PyStr "Present") __init__).1 101
  = Ok (Some {[ "Present"%string := 1%nat; "Absent"%string := 0%nat;
                "Leave"%string := 0%nat ]}).
Proof. reflexivity. Qed.

(** [test_add_record_invalid_id] *)
Example test_add_record_invalid_id :
  add_record (PyInt (-1)) (PyStr "2026-02-01") (PyStr "Present") __init__
  = (__init__, Raise InvalidEmployeeId).
Proof. reflexivity. Qed.

(** [test_add_record_invalid_status] *)
Example test_add_record_invalid_status :
  add_record (PyInt 101) (PyStr "2026-02-01") (PyStr "Late") __init__
  = (__init__, Raise InvalidStatus).
Proof. reflexivity. Qed.

(** [test_add_record_invalid_date] *)
Example test_add_record_invalid_date :
  add_record (PyInt 101) (PyStr "02-01-2026") (PyStr "Present") __init__
  = (__init__, Raise InvalidDateFormat).
Proof. reflexivity. Qed.

(** [test_add_record_boundary_employee_id] *)
Example test_add_record_boundary_employee_id :
  (summary ← get_summary
     (add_record (PyInt 1) (PyStr "2026-02-01") (PyStr "Present") __init__).1 1;
   Ok (summary ≫= (.!! "Present"%string)))
  = Ok (Some 1%nat).
Proof. reflexivity. Qed.

(** The validations come in the order employee ID, date, status. *)
Example add_record_first_error :
  add_record (PyInt 0) (PyStr "nonsense") (PyStr "Late") __init__
  = (__init__, Raise InvalidEmployeeId)
  ∧ add_record (PyInt 1) (PyStr "nonsense") (PyStr "Late") __init__
    = (__init__, Raise InvalidDateFormat)
  ∧ add_record PyNone (PyStr "2026-02-01") (PyStr "Present") __init__
    = (__init__, Raise InvalidEmployeeId)
  ∧ add_record (PyInt 1) PyNone (PyStr "Present") __init__
    = (__init__, Raise InvalidDateFormat).
Proof. split_and!; reflexivity. Qed.

End repository_tests.

(* ===================================================================== *)
(** * How adding and deleting compose *)
(* ===================================================================== *)

Section composing.

Implicit Types (st : store).

Lemma add_record_put st (emp_id : Z) (date : pyval) (normalized status : string) :
  0 < emp_id → _validate_date date = Ok normalized → status ∈ VALID_STATUSES →
  add_record (PyInt emp_id) date (PyStr status) st
  = (put st (emp_id, normalized, status), Ok ()).
Proof.
  intros He Hd Hs. apply add_record_Ok. exists emp_id, normalized, status.
  split_and!; [by apply validate_emp_id_Ok | done | by apply validate_status_Ok | done].
Qed.

Lemma delete_record_put st (emp_id : Z) (date : pyval) (normalized status : string) :
  _validate_date date = Ok normalized →
  delete_record emp_id date (put st (emp_id, normalized, status))
  = (if decide (delete normalized (default ∅ (st !! emp_id)) = ∅)
     then delete emp_id st
     else <[emp_id := delete normalized (default ∅ (st !! emp_id))]> st, Ok true).
Proof.
  intros Hd. rewrite delete_record_unfold, Hd. unfold put.
  rewrite !lookup_insert_eq, delete_insert_eq.
  case_decide; [by rewrite delete_insert_eq | by rewrite insert_insert_eq].
Qed.

(** X1.  On a store without empty record maps, adding a record for a pair
    that has none and then deleting that pair, under whatever spelling of
    the date, gives [True] and the store as it was before the two calls. *)
Theorem add_then_delete_restores
    st (emp_id : Z) (date date' : pyval) (normalized status : string) :
  no_empty st →
  0 < emp_id → status ∈ VALID_STATUSES →
  _validate_date date = Ok normalized →
  _validate_date date' = Ok normalized →
  status_of st emp_id normalized = None →
  delete_record emp_id date' (add_record (PyInt emp_id) date (PyStr status) st).1
  = (st, Ok true).
Proof.
  intros Hne He Hs Hd Hd' Hnone.
  rewrite (add_record_put st emp_id date normalized status) by done.
  cbn [fst]. rewrite (delete_record_put st emp_id date' normalized status Hd').
  f_equal. unfold status_of in Hnone.
  destruct (st !! emp_id) as [records|] eqn:E; simpl in *.
  - rewrite delete_id by done. rewrite decide_False by by eapply Hne.
    by apply insert_id.
  - rewrite delete_empty, decide_True by done. by apply delete_id.
Qed.

Lemma add_then_delete_restores_witness :
  let st : store := {[ 7 := {[ "2026-02-02"%string := "Leave"%string ]} ]} in
  no_empty st
  ∧ delete_record 7 (PyStr "2026-02-01")
      (add_record (PyInt 7) (PyStr "2026-2-1") (PyStr "Present") st).1
    = (st, Ok true).
Proof.
  assert (Hne : no_empty ({[ 7 := {[ "2026-02-02"%string := "Leave"%string ]} ]} : store)).
  { intros e records [<- <-]%lookup_singleton_Some. apply insert_non_empty. }
  split; [exact Hne|].
  apply (add_then_delete_restores _ 7 _ _ "2026-02-01" "Present" Hne);
    [lia | repeat constructor | reflexivity..].
Defined.

(** Without the precondition the store can differ: an employee with an empty
    record map is gone after the two calls. *)
Example add_then_delete_drops_empty_employee :
  delete_record 7 (PyStr "2026-02-01")
    (add_record (PyInt 7) (PyStr "2026-02-01") (PyStr "Present") {[ 7 := ∅ ]}).1
  = (∅, Ok true).
Proof. reflexivity. Qed.

(** X2.  A record added under any accepted spelling of a date is filed under
    the canonical rendering of the date, which the validation maps to
    itself; a delete under any other spelling of the same date finds it. *)
Theorem delete_finds_any_spelling
    st (emp_id : Z) (date date' : pyval) (normalized status : string) :
  0 < emp_id → status ∈ VALID_STATUSES →
  _validate_date date = Ok normalized →
  _validate_date date' = Ok normalized →
  let st1 := (add_record (PyInt emp_id) date (PyStr status) st).1 in
  _validate_date (PyStr normalized) = Ok normalized
  ∧ status_of st1 emp_id normalized = Some status
  ∧ (delete_record emp_id date' st1).2 = Ok true
  ∧ status_of (delete_record emp_id date' st1).1 emp_id normalized = None.
Proof.
  intros He Hs Hd Hd' st1. unfold st1.
  rewrite (add_record_put st emp_id date normalized status) by done. cbn [fst].
  rewrite (delete_record_put st emp_id date' normalized status Hd'). cbn [fst snd].
  split_and!; [| | done |].
  - by eapply validate_date_canonical, validate_date_normalized.
  - rewrite status_of_put. by rewrite decide_True.
  - unfold status_of. case_decide.
    + by rewrite lookup_delete_eq.
    + rewrite lookup_insert_eq. simpl. apply lookup_delete_eq.
Qed.

Lemma delete_finds_any_spelling_witness :
  let st1 := (add_record (PyInt 101) (PyStr "2026-2-1") (PyStr "Present") __init__).1 in
  _validate_date (PyStr "2026-02-01") = Ok "2026-02-01"%string
  ∧ status_of st1 101 "2026-02-01" = Some "Present"%string
  ∧ (delete_record 101 (PyStr "2026-02- 1") st1).2 = Ok true
  ∧ status_of (delete_record 101 (PyStr "2026-02- 1") st1).1 101 "2026-02-01" = None.
Proof.
  apply (delete_finds_any_spelling __init__ 101 (PyStr "2026-2-1") (PyStr "2026-02- 1")
           "2026-02-01" "Present"); [lia | repeat constructor | reflexivity..].
Defined.

Lemma put_idempotent st (item : Z * string * string) :
  put (put st item) item = put st item.
Proof.
  destruct item as [[e n] v]. unfold put.
  rewrite lookup_insert_eq. simpl. by rewrite !insert_insert_eq.
Qed.

Lemma put_commutes st (e1 e2 : Z) (n1 n2 v1 v2 : string) :
  (e1, n1) ≠ (e2, n2) →
  put (put st (e1, n1, v1)) (e2, n2, v2) = put (put st (e2, n2, v2)) (e1, n1, v1).
Proof.
  intros Hne. unfold put. destruct (decide (e1 = e2)) as [<- | Hne'].
  - assert (n1 ≠ n2) by congruence.
    rewrite !lookup_insert_eq, !insert_insert_eq. simpl.
    by rewrite (insert_insert_ne _ n1 n2).
  - rewrite (lookup_insert_ne _ e1 e2), (lookup_insert_ne _ e2 e1) by done.
    by apply insert_insert_ne.
Qed.

(** X3.  Adding the same record twice is adding it once, and two records for
    different (employee, date) pairs can be added in either order. *)
Theorem add_record_idempotent_commutes
    st (e1 e2 : Z) (d1 d2 : pyval) (n1 n2 s1 s2 : string) :
  0 < e1 → 0 < e2 → s1 ∈ VALID_STATUSES → s2 ∈ VALID_STATUSES →
  _validate_date d1 = Ok n1 → _validate_date d2 = Ok n2 →
  let add1 := add_record (PyInt e1) d1 (PyStr s1) in
  let add2 := add_record (PyInt e2) d2 (PyStr s2) in
  add1 (add1 st).1 = add1 st
  ∧ ((e1, n1) ≠ (e2, n2) → (add2 (add1 st).1).1 = (add1 (add2 st).1).1).
Proof.
  intros He1 He2 Hs1 Hs2 Hd1 Hd2 add1 add2. unfold add1, add2.
  repeat (first [ rewrite (add_record_put _ e1 d1 n1 s1) by done
                | rewrite (add_record_put _ e2 d2 n2 s2) by done ]; cbn [fst]).
  split.
  - by rewrite put_idempotent.
  - intros Hne. by apply put_commutes.
Qed.

Lemma add_record_idempotent_commutes_witness :
  let add1 := add_record (PyInt 101) (PyStr "2026-02-01") (PyStr "Present") in
  let add2 := add_record (PyInt 101) (PyStr "2026-2-2") (PyStr "Absent") in
  add1 (add1 __init__).1 = add1 __init__
  ∧ ((101, "2026-02-01"%string) ≠ (101, "2026-02-02"%string) →
     (add2 (add1 __init__).1).1 = (add1 (add2 __init__).1).1).
Proof.
  apply (add_record_idempotent_commutes __init__ 101 101 _ _
           "2026-02-01" "2026-02-02" "Present" "Absent");
    [lia | lia | repeat constructor | repeat constructor | reflexivity | reflexivity].
Defined.

(** X4.  A delete that has answered leaves nothing for a second delete of
    the same pair: the second answers [False] and changes nothing; and a
    delete that answers [False] has changed nothing either. *)
Theorem delete_record_twice st st' (emp_id : Z) (date : pyval) (found : bool) :
  delete_record emp_id date st = (st', Ok found) →
  delete_record emp_id date st' = (st', Ok false)
  ∧ (found = false → st' = st).
Proof.
  rewrite !delete_record_unfold.
  destruct (_validate_date date) as [nd|]; [|done].
  destruct (st !! emp_id) as [records|] eqn:E.
  - destruct (records !! nd) as [status|] eqn:Ed.
    + intros [= <- <-]. split; [|done]. case_decide.
      * by rewrite lookup_delete_eq.
      * by rewrite lookup_insert_eq, lookup_delete_eq.
    + intros [= <- <-]. by rewrite E, Ed.
  - intros [= <- <-]. by rewrite E.
Qed.

Lemma delete_record_twice_witness :
  delete_record 107 (PyStr "2026-02-01")
    {[ 107 := {[ "2026-02-01"%string := "Present"%string ]} ]} = (∅, Ok true)
  ∧ delete_record 107 (PyStr "2026-02-01") ∅ = (∅, Ok false)
  ∧ (true = false →
     (∅ : store) = {[ 107 := {[ "2026-02-01"%string := "Present"%string ]} ]}).
Proof.
  split; [reflexivity|].
  apply (delete_record_twice
           {[ 107 := {[ "2026-02-01"%string := "Present"%string ]} ]} ∅ 107
           (PyStr "2026-02-01") true).
  reflexivity.
Defined.

End composing.

(* ===================================================================== *)
(** * What an import does to a store *)
(* ===================================================================== *)

Section importing.

Implicit Types (st : store) (row : gmap string pyval)
  (rows : list (gmap string pyval)).

Lemma import_row_row_item row st :
  import_row row st
  = match row_item row with
    | Ok item => (put st item, Ok ())
    | Raise x => (st, Raise x)
    end.
Proof.
  rewrite import_row_unfold. unfold row_item, mbind, result_bind, Py.bind.
  destruct (Csv.subscript row "Employee_ID") as [id_field|]; [|done].
  destruct (int id_field) as [emp_id|]; [|done].
  destruct (Csv.subscript row "Date") as [date|]; [|done].
  destruct (Csv.subscript row "Status") as [status|]; [|done].
  rewrite add_record_unfold.
  destruct (_validate_emp_id (PyInt emp_id)) as [e|]; [|done].
  destruct (_validate_date date) as [nd|]; [|done].
  by destruct (_validate_status status).
Qed.

Lemma row_item_TypeError row :
  row_item row = Raise TypeError → row !! "Employee_ID"%string = Some PyNone.
Proof.
  intros H. apply (import_row_TypeError row ∅ ∅).
  by rewrite import_row_row_item, H.
Qed.

Lemma foldl_put_keeps (l : list (Z * string * string)) st (e : Z) (d : string) :
  is_Some (status_of st e d) → is_Some (status_of (foldl put st l) e d).
Proof.
  intros H. apply status_of_foldl_put_is_Some. by right.
Qed.

(** X5.  When no row of the file has [None] under [Employee_ID], the import
    is best effort, row by row: it returns the number of the rows that name
    a valid item, and leaves the store with exactly those items written into
    it in the order of the rows, a later row overwriting an earlier one. *)
Theorem import_from_csv_best_effort (f : Csv.file) st :
  Forall (λ row, row !! "Employee_ID"%string ≠ Some PyNone) (Csv.DictReader f) →
  import_from_csv f st
  = (foldl put st (imported_items (Csv.DictReader f)),
     Ok (length (imported_items (Csv.DictReader f)))).
Proof.
  unfold import_from_csv.
  assert (H : ∀ rows (count : nat) st,
            Forall (λ row, row !! "Employee_ID"%string ≠ Some PyNone) rows →
            import_rows count rows st
            = (foldl put st (imported_items rows),
               Ok (count + length (imported_items rows))%nat)).
  { induction rows as [|row rows IH]; intros count st0 Hrows.
    - cbn. by rewrite Nat.add_0_r.
    - apply Forall_cons in Hrows as [Hrow Hrows].
      cbn [import_rows]. rewrite import_row_row_item.
      unfold imported_items. cbn [omap list_omap].
      destruct (row_item row) as [item|[msg|key|]] eqn:E.
      + fold (imported_items rows). rewrite IH by done. cbn [foldl length].
        do 2 f_equal. lia.
      + fold (imported_items rows). by rewrite IH.
      + fold (imported_items rows). by rewrite IH.
      + by apply row_item_TypeError in E. }
  intros Hrows. by rewrite H.
Qed.

Lemma import_from_csv_best_effort_witness :
  let f := [ ["Status"; "Employee_ID"; "Date"];
             ["Present"; " 4 "; "2026-2-1"];
             ["Late"; "4"; "2026-02-02"];
             ["Leave"; "4"];
             ["Absent"; "4"; "2026-02-01"] ]%string in
  Forall (λ row, row !! "Employee_ID"%string ≠ Some PyNone) (Csv.DictReader f)
  ∧ import_from_csv f __init__
    = (foldl put __init__ (imported_items (Csv.DictReader f)),
       Ok (length (imported_items (Csv.DictReader f)))).
Proof.
  assert (H : Forall (λ row : gmap string pyval, row !! "Employee_ID"%string ≠ Some PyNone)
                (Csv.DictReader [ ["Status"; "Employee_ID"; "Date"];
                                  ["Present"; " 4 "; "2026-2-1"];
                                  ["Late"; "4"; "2026-02-02"];
                                  ["Leave"; "4"];
                                  ["Absent"; "4"; "2026-02-01"] ]%string)).
  { unfold Csv.DictReader. rewrite !filter_cons_True, filter_nil by done.
    cbn [map]. repeat apply Forall_cons_2; [..| apply Forall_nil_2];
      intros Heq; vm_compute in Heq; discriminate Heq. }
  split; [exact H | exact (import_from_csv_best_effort _ _ H)].
Defined.

Example import_from_csv_best_effort_example :
  import_from_csv
    [ ["Status"; "Employee_ID"; "Date"];
      ["Present"; " 4 "; "2026-2-1"];
      ["Late"; "4"; "2026-02-02"];
      ["Leave"; "4"];
      ["Absent"; "4"; "2026-02-01"] ]%string __init__
  = ({[ 4 := {[ "2026-02-01"%string := "Absent"%string ]} ]}, Ok 2%nat).
Proof. reflexivity. Qed.

(** X6.  Whatever the file, and also when the import ends on an exception,
    the import deletes nothing: a pair that has a status keeps having one;
    and a status found afterwards was there before or is the status a row
    of the file names for that pair.  A returned count is at most the number
    of rows after the header. *)
Theorem import_from_csv_only_adds (f : Csv.file) st :
  (∀ e d, is_Some (status_of st e d) →
          is_Some (status_of (import_from_csv f st).1 e d))
  ∧ (∀ e d s, status_of (import_from_csv f st).1 e d = Some s →
       status_of st e d = Some s
       ∨ ∃ row, row ∈ Csv.DictReader f ∧ row_item row = Ok (e, d, s))
  ∧ (∀ n, (import_from_csv f st).2 = Ok n → (n ≤ length f - 1)%nat).
Proof.
  unfold import_from_csv.
  assert (H : ∀ rows (count : nat) st,
            ∃ l, (import_rows count rows st).1 = foldl put st l
                 ∧ (∀ item, In item l → ∃ row, row ∈ rows ∧ row_item row = Ok item)
                 ∧ ∀ n, (import_rows count rows st).2 = Ok n →
                        (n ≤ count + length rows)%nat).
  { induction rows as [|row rows IH]; intros count st0.
    - exists []. split_and!; [done | by intros ? [] |]. intros n [= <-]. simpl. lia.
    - cbn [import_rows]. rewrite import_row_row_item.
      destruct (row_item row) as [item|[msg|key|]] eqn:E.
      + destruct (IH (S count) (put st0 item)) as (l & Hst & Hl & Hn).
        exists (item :: l). split_and!; [done | |].
        * intros item' [<- | Hin]; [exists row; split; [left | done]|].
          destruct (Hl item' Hin) as (row' & ? & ?). exists row'. split; [by right | done].
        * intros n Hr. specialize (Hn n Hr). cbn [length]. lia.
      + destruct (IH count st0) as (l & Hst & Hl & Hn).
        exists l. split_and!; [done | |].
        * intros item' Hin. destruct (Hl item' Hin) as (row' & ? & ?).
          exists row'. split; [by right | done].
        * intros n Hr. specialize (Hn n Hr). cbn [length]. lia.
      + destruct (IH count st0) as (l & Hst & Hl & Hn).
        exists l. split_and!; [done | |].
        * intros item' Hin. destruct (Hl item' Hin) as (row' & ? & ?).
          exists row'. split; [by right | done].
        * intros n Hr. specialize (Hn n Hr). cbn [length]. lia.
      + exists []. split_and!; [done | by intros ? [] | done]. }
  destruct (H (Csv.DictReader f) 0%nat st) as (l & -> & Hl & Hn).
  split_and!.
  - intros e d. apply foldl_put_keeps.
  - intros e d s [Hin | Hst]%status_of_foldl_put; [right; by apply Hl | by left].
  - intros n Hr. specialize (Hn n Hr).
    assert (length (Csv.DictReader f) ≤ length f - 1)%nat; [|lia].
    destruct f as [|fieldnames rows]; [simpl; lia|].
    unfold Csv.DictReader. rewrite length_map. cbn [length].
    etrans; [apply length_filter | lia].
Qed.

Lemma status_of_foldl_put_absent (l : list (Z * string * string)) st (e : Z) (d : string) :
  (∀ s, ¬ In (e, d, s) l) → status_of (foldl put st l) e d = status_of st e d.
Proof.
  revert st. induction l as [|[[e' d'] s'] l IH]; intros st Hnone; [done|].
  cbn [foldl]. rewrite IH by (intros s Hin; apply (Hnone s); by right).
  rewrite status_of_put. case_decide as Heq; [|done].
  destruct Heq as [-> ->]. destruct (Hnone s'). by left.
Qed.

Lemma status_of_foldl_put_last (l : list (Z * string * string)) st (e : Z) (d s : string) :
  status_of (foldl put st l) e d = Some s →
  In (e, d, s) l ∨ ((∀ s', ¬ In (e, d, s') l) ∧ status_of st e d = Some s).
Proof.
  revert st. induction l as [|[[e' d'] s'] l IH]; intros st.
  - intros H. right. split; [by intros ? []|done].
  - cbn [foldl]. intros [Hin | [Hnone Hst]]%IH; [left; by right|].
    rewrite status_of_put in Hst. case_decide as Heq.
    + destruct Heq as [-> ->]. injection Hst as ->. left. by left.
    + right. split; [|done]. intros s0 [[= -> -> ->] | Hin]; [naive_solver|].
      by apply (Hnone s0).
Qed.

(** X7.  Importing the export of a valid store [st2] into any store [st1]
    lays [st2] over [st1]: it returns the number of records of [st2]; a pair
    has afterwards the status [st2] gives it, and where [st2] gives none the
    status it had in [st1].  Importing a store's own export changes
    nothing. *)
Theorem import_export_overlays (st1 st2 : store) :
  store_inv st2 →
  ∃ st' : store,
    import_from_csv (export_to_csv st2) st1 = (st', Ok (record_count st2))
    ∧ (∀ e d, status_of st' e d
              = match status_of st2 e d with
                | Some s => Some s
                | None => status_of st1 e d
                end)
    ∧ (no_empty st1 → no_empty st')
    ∧ (st1 = st2 → st' = st2).
Proof.
  intros Hinv. unfold import_from_csv.
  rewrite DictReader_export, import_rows_exported by by apply items_valid.
  rewrite length_items. eexists. split; [reflexivity|].
  assert (Hstatus : ∀ e d, status_of (foldl put st1 (items st2)) e d
              = match status_of st2 e d with
                | Some s => Some s
                | None => status_of st1 e d
                end).
  { intros e d. destruct (status_of st2 e d) as [s|] eqn:E.
    - destruct (status_of_foldl_put_is_Some (items st2) st1 e d) as [s' Hs'].
      { left. exists s. by apply in_items. }
      rewrite Hs'. f_equal.
      apply status_of_foldl_put_last in Hs' as [Hin%in_items | [Hnone _]].
      + congruence.
      + destruct (Hnone s). by apply in_items.
    - apply status_of_foldl_put_absent. intros s Hin%in_items. congruence. }
  split_and!; [done | by apply no_empty_foldl_put |].
  intros ->. apply store_ext.
  - by apply no_empty_foldl_put, store_inv_no_empty.
  - by apply store_inv_no_empty.
  - intros e d. rewrite Hstatus. by destruct (status_of st2 e d).
Qed.

Lemma import_export_overlays_witness :
  let st1 : store := {[ 7 := {[ "2026-02-01"%string := "Leave"%string ]} ]} in
  let st2 := foldl apply_op __init__
               [Add (PyInt 7) (PyStr "2026-02-01") (PyStr "Present");
                Add (PyInt 9) (PyStr "2026-02-03") (PyStr "Absent")] in
  store_inv st2
  ∧ ∃ st' : store,
      import_from_csv (export_to_csv st2) st1 = (st', Ok (record_count st2))
      ∧ (∀ e d, status_of st' e d
                = match status_of st2 e d with
                  | Some s => Some s
                  | None => status_of st1 e d
                  end)
      ∧ (no_empty st1 → no_empty st')
      ∧ (st1 = st2 → st' = st2).
Proof.
  split; [apply store_inv_run|].
  apply import_export_overlays, store_inv_run.
Defined.

End importing.

(* ===================================================================== *)
(** * Summaries of all employees, and the JSON export *)
(* ===================================================================== *)

Section all_summaries.

Implicit Types (st : store).

Lemma count_status_total (records : gmap string string) :
  (∀ date status, records !! date = Some status → status ∈ VALID_STATUSES) →
  (count_status records "Present" + count_status records "Absent"
   + count_status records "Leave" = size records)%nat.
Proof.
  intros Hvalid. rewrite !count_status_list, <- length_map_to_list.
  rewrite <- (length_fmap snd (map_to_list records)).
  assert (Hall : Forall (λ status, status ∈ VALID_STATUSES) (map_to_list records).*2).
  { apply Forall_forall. intros status [[date s] [-> Hin]]%list_elem_of_fmap.
    apply elem_of_map_to_list in Hin. by eapply Hvalid. }
  induction Hall as [|status l Hs _ IH]; [done|].
  rewrite !filter_cons. cbn [length]. unfold VALID_STATUSES in Hs.
  apply elem_of_cons in Hs as [-> | Hs]; [|apply elem_of_cons in Hs as [-> | Hs]];
    [| |apply list_elem_of_singleton in Hs as ->];
    repeat (case_decide; try done); cbn [length]; lia.
Qed.

(** X8.  For an employee whose statuses are of the fixed set, the three
    counts of the summary add up to the number of the employee's records. *)
Theorem get_summary_total st (emp_id : Z) (records : gmap string string) :
  st !! emp_id = Some records →
  (∀ date status, records !! date = Some status → status ∈ VALID_STATUSES) →
  ∃ (summary : gmap string nat) (present absent leave : nat),
    get_summary st emp_id = Ok (Some summary)
    ∧ summary !! "Present"%string = Some present
    ∧ summary !! "Absent"%string = Some absent
    ∧ summary !! "Leave"%string = Some leave
    ∧ (present + absent + leave = size records)%nat.
Proof.
  intros E Hvalid. unfold get_summary. rewrite E.
  destruct (summarize_valid records Hvalid) as (summary & -> & _ & Hcount & _).
  exists summary, (count_status records "Present"),
    (count_status records "Absent"), (count_status records "Leave").
  split_and!; [done | | | | by apply count_status_total];
    apply Hcount; unfold VALID_STATUSES; repeat constructor.
Qed.

Lemma get_summary_total_witness :
  let records : gmap string string :=
    {[ "2026-02-01"%string := "Present"%string; "2026-02-02"%string := "Absent"%string;
       "2026-02-03"%string := "Present"%string ]} in
  let st : store := {[ 103 := records ]} in
  st !! 103 = Some records
  ∧ (∀ date status, records !! date = Some status → status ∈ VALID_STATUSES)
  ∧ ∃ (summary : gmap string nat) (present absent leave : nat),
      get_summary st 103 = Ok (Some summary)
      ∧ summary !! "Present"%string = Some present
      ∧ summary !! "Absent"%string = Some absent
      ∧ summary !! "Leave"%string = Some leave
      ∧ (present + absent + leave = size records)%nat.
Proof.
  cbv zeta.
  assert (Hvalid : ∀ date status,
            ({[ "2026-02-01"%string := "Present"%string;
                "2026-02-02"%string := "Absent"%string;
                "2026-02-03"%string := "Present"%string ]} : gmap string string)
              !! date = Some status → status ∈ VALID_STATUSES).
  { intros date status.
    rewrite !lookup_insert_Some, lookup_singleton_Some.
    intros [[_ <-] | [_ [[_ <-] | [_ [_ <-]]]]]; repeat constructor. }
  split; [reflexivity|]. split; [exact Hvalid|].
  apply (get_summary_total _ 103 _); [reflexivity | exact Hvalid].
Defined.

(** The loop of [get_all_summaries] over items with distinct keys. *)
Lemma get_all_summaries_loop (l : list (Z * gmap string string))
    (summaries : gmap Z (gmap string nat)) :
  NoDup l.*1 →
  (∀ e records, (e, records) ∈ l → ∃ summary, _summarize records = Ok summary) →
  ∃ summaries',
    foldl (λ acc item,
             summaries ← acc;
             summary ← _summarize item.2;
             Ok (<[item.1 := summary]> summaries))
          (Ok summaries) l = Ok summaries'
    ∧ (∀ e records summary, (e, records) ∈ l → _summarize records = Ok summary →
         summaries' !! e = Some summary)
    ∧ (∀ e, e ∉ l.*1 → summaries' !! e = summaries !! e).
Proof.
  revert summaries. induction l as [|[e0 r0] l IH]; intros summaries Hnd Hok.
  - exists summaries. split_and!; [done | | done]. intros ??? Hin. by apply elem_of_nil in Hin.
  - apply NoDup_cons in Hnd as [Hfresh Hnd].
    destruct (Hok e0 r0) as [sm0 Hsm0]; [left|].
    cbn [foldl]. cbn. rewrite Hsm0. cbn.
    destruct (IH (<[e0 := sm0]> summaries) Hnd) as (summaries' & Hfold & Hin & Hout).
    { intros e records H. apply (Hok e records). by right. }
    exists summaries'. split_and!; [done | |].
    + intros e records summary [[= -> ->] | H]%elem_of_cons Hsm.
      * rewrite Hout by done. rewrite lookup_insert_eq. congruence.
      * by eapply Hin.
    + intros e Hnotin. cbn in Hnotin. apply not_elem_of_cons in Hnotin as [Hne Hnotin].
      rewrite Hout by done. by rewrite lookup_insert_ne.
Qed.

(** X9.  On a store whose statuses are of the fixed set, [get_all_summaries]
    raises nothing and maps exactly the employees of the store, each to the
    summary [get_summary] gives for the employee. *)
Theorem get_all_summaries_spec st :
  (∀ e records date status,
     st !! e = Some records → records !! date = Some status →
     status ∈ VALID_STATUSES) →
  ∃ summaries : gmap Z (gmap string nat),
    get_all_summaries st = Ok summaries
    ∧ dom summaries = dom st
    ∧ ∀ e, get_summary st e = Ok (summaries !! e).
Proof.
  intros Hvalid. unfold get_all_summaries.
  destruct (get_all_summaries_loop (map_to_list st) ∅) as (summaries & -> & Hin & Hout).
  { apply NoDup_fst_map_to_list. }
  { intros e records Hst%elem_of_map_to_list.
    destruct (summarize_valid records) as (summary & ? & _); [|by eauto].
    intros date status Hd. exact (Hvalid e records date status Hst Hd). }
  assert (Hget : ∀ e, get_summary st e = Ok (summaries !! e)).
  { intros e. unfold get_summary. destruct (st !! e) as [records|] eqn:E.
    - destruct (summarize_valid records) as (summary & Hsm & _).
      { intros date status Hd. exact (Hvalid e records date status E Hd). }
      rewrite Hsm. cbn. f_equal. symmetry. eapply Hin; [|done].
      by apply elem_of_map_to_list.
    - rewrite Hout, lookup_empty; [done|].
      intros [[e' r] [-> Hin']]%list_elem_of_fmap.
      apply elem_of_map_to_list in Hin'. simpl in E. congruence. }
  exists summaries. split_and!; [done | | done].
  apply set_eq. intros e. rewrite !elem_of_dom.
  specialize (Hget e). unfold get_summary in Hget.
  destruct (st !! e) as [records|] eqn:E.
  - destruct (_summarize records); cbn in Hget; [|done].
    injection Hget as <-. split; by eauto.
  - injection Hget as <-. split; by intros [? ?].
Qed.

Lemma get_all_summaries_spec_witness :
  let st := foldl apply_op __init__
              [Add (PyInt 104) (PyStr "2026-02-01") (PyStr "Present");
               Add (PyInt 105) (PyStr "2026-02-01") (PyStr "Present")] in
  (∀ e records date status,
     st !! e = Some records → records !! date = Some status →
     status ∈ VALID_STATUSES)
  ∧ ∃ summaries : gmap Z (gmap string nat),
      get_all_summaries st = Ok summaries
      ∧ dom summaries = dom st
      ∧ ∀ e, get_summary st e = Ok (summaries !! e).
Proof.
  cbv zeta.
  assert (Hvalid : ∀ e records date status,
            foldl apply_op __init__
              [Add (PyInt 104) (PyStr "2026-02-01") (PyStr "Present");
               Add (PyInt 105) (PyStr "2026-02-01") (PyStr "Present")] !! e
            = Some records →
            records !! date = Some status → status ∈ VALID_STATUSES).
  { intros e records date status E Hd.
    destruct (store_inv_run _ e records E) as (_ & _ & Hrec).
    by destruct (Hrec date status Hd). }
  split; [exact Hvalid | exact (get_all_summaries_spec _ Hvalid)].
Defined.

(** With a status outside the fixed set in the store, which only a caller
    writing into the shared dicts can put there, the method raises. *)
Example get_all_summaries_KeyError :
  get_all_summaries {[ 1 := {[ "2026-02-01"%string := "Late"%string ]} ]}
  = Raise (KeyError "Late").
Proof. reflexivity. Qed.

End all_summaries.

Section json_export.

Implicit Types (st : store).

Lemma str_of_int_inj (a b : Z) : str_of_int a = str_of_int b → a = b.
Proof.
  intros H. pose proof (int_str_of_int a) as Ha. rewrite H, int_str_of_int in Ha.
  congruence.
Qed.

#[local] Instance str_of_int_Inj : Inj (=) (=) str_of_int.
Proof. intros a b. apply str_of_int_inj. Qed.

Lemma export_to_json_loop (l : list (Z * gmap string string))
    (data : gmap string (gmap string string)) :
  NoDup l.*1 →
  (∀ e records, (e, records) ∈ l →
     foldl (λ data item, <[str_of_int item.1 := item.2]> data) data l
       !! str_of_int e = Some records)
  ∧ (∀ key, (∀ e, e ∈ l.*1 → key ≠ str_of_int e) →
       foldl (λ data item, <[str_of_int item.1 := item.2]> data) data l !! key
       = data !! key).
Proof.
  revert data. induction l as [|[e0 r0] l IH]; intros data Hnd.
  - split; [|done]. intros ?? Hin. by apply elem_of_nil in Hin.
  - apply NoDup_cons in Hnd as [Hfresh Hnd]. cbn [foldl fst snd].
    destruct (IH (<[str_of_int e0 := r0]> data) Hnd) as [Hin Hout]. split.
    + intros e records [[= -> ->] | H]%elem_of_cons; [|by apply Hin].
      rewrite Hout; [apply lookup_insert_eq|].
      intros e He Heq%str_of_int_inj. by subst.
    + intros key Hkey. rewrite Hout.
      * apply lookup_insert_ne. intros Heq. apply (Hkey e0); [left | done].
      * intros e He. apply Hkey. by right.
Qed.

Lemma export_to_json_kmap st : export_to_json st = kmap str_of_int st.
Proof.
  apply map_eq. intros key. unfold export_to_json.
  destruct (export_to_json_loop (map_to_list st) ∅ (NoDup_fst_map_to_list st))
    as [Hin Hout].
  destruct (kmap str_of_int st !! key) as [records|] eqn:E.
  - apply lookup_kmap_Some in E as (e & -> & He); [|apply _].
    apply Hin. by apply elem_of_map_to_list.
  - rewrite Hout, lookup_empty; [done|].
    intros e [[e' r] [-> Hin']]%list_elem_of_fmap ->.
    apply elem_of_map_to_list in Hin'. simpl in E.
    rewrite lookup_kmap in E by apply _. congruence.
Qed.

(** X10.  In the dict [export_to_json] writes, no two employees share a key:
    the key [str(emp_id)] holds the records of the employee [emp_id], every
    key is the [str()] of an employee of the store, whom [int()] of the key
    gives back, and there are as many keys as employees. *)
Theorem export_to_json_keys st :
  (∀ emp_id, export_to_json st !! str_of_int emp_id = st !! emp_id)
  ∧ (∀ key records, export_to_json st !! key = Some records →
       ∃ emp_id, key = str_of_int emp_id ∧ int (PyStr key) = Ok emp_id
                 ∧ st !! emp_id = Some records)
  ∧ size (export_to_json st) = size st.
Proof.
  rewrite export_to_json_kmap. split_and!.
  - intros e. apply (lookup_kmap str_of_int).
  - intros key records (e & -> & He)%lookup_kmap_Some; [|apply _].
    exists e. by rewrite int_str_of_int.
  - rewrite <- !length_map_to_list, (map_to_list_kmap str_of_int). apply length_fmap.
Qed.

Example export_to_json_example :
  export_to_json
    {[ 103 := {[ "2026-02-01"%string := "Present"%string ]};
       7 := {[ "2026-02-02"%string := "Leave"%string ]} ]}
  = {[ "103"%string := {[ "2026-02-01"%string := "Present"%string ]};
       "7"%string := {[ "2026-02-02"%string := "Leave"%string ]} ]}.
Proof. reflexivity. Qed.

End json_export.

(* ===================================================================== *)
(** * The order of strings on canonical dates is the order of the calendar *)
(* ===================================================================== *)

Section date_order.

Implicit Types (st : store).

Lemma str_le_cons (a b : ascii) (s t : string) :
  str_le (String a s) (String b t) = true ↔
  code a < code b ∨ (a = b ∧ str_le s t = true).
Proof.
  unfold str_le, String.leb. cbn [String.compare].
  unfold Ascii.compare, code.
  destruct (N.compare_spec (N_of_ascii a) (N_of_ascii b)) as [E|L|G].
  - assert (a = b) as ->.
    { by rewrite <- (ascii_N_embedding a), <- (ascii_N_embedding b), E. }
    split; [by right | intros [?|[_ ?]]; [lia | done]].
  - split; [intros _; left; lia | done].
  - split; [done | intros [?|[-> _]]; lia].
Qed.

Lemma code_digit_char (n : Z) : 0 ≤ n ≤ 9 → code (digit_char n) = 48 + n.
Proof.
  intros Hn.
  assert (Hcases : n = 0 ∨ n = 1 ∨ n = 2 ∨ n = 3 ∨ n = 4 ∨ n = 5 ∨ n = 6
                   ∨ n = 7 ∨ n = 8 ∨ n = 9) by lia.
  repeat (destruct Hcases as [-> | Hcases]); try subst n; reflexivity.
Qed.

Lemma str_le_digit (n1 n2 : Z) (s t : string) :
  0 ≤ n1 ≤ 9 → 0 ≤ n2 ≤ 9 →
  str_le (String (digit_char n1) s) (String (digit_char n2) t) = true ↔
  n1 < n2 ∨ (n1 = n2 ∧ str_le s t = true).
Proof.
  intros H1 H2. rewrite str_le_cons, !code_digit_char by done. split.
  - intros [?|[Heq ?]]; [left; lia|]. right. split; [|done].
    apply (f_equal code) in Heq. rewrite !code_digit_char in Heq by done. lia.
  - intros [?|[-> ?]]; [left; lia | by right].
Qed.

Lemma str_le_hyphen (s t : string) :
  str_le (String hyphen s) (String hyphen t) = true ↔ str_le s t = true.
Proof. rewrite str_le_cons. split; [intros [?|[_ ?]]; [lia | done] | by right]. Qed.

(** The digits of a number below ten thousand, and of one below a hundred. *)
Lemma digits4 (y : Z) :
  0 ≤ y ≤ 9999 →
  0 ≤ y / 1000 ≤ 9 ∧ 0 ≤ y / 100 mod 10 ≤ 9 ∧ 0 ≤ y / 10 mod 10 ≤ 9
  ∧ 0 ≤ y mod 10 ≤ 9
  ∧ y = 1000 * (y / 1000) + 100 * (y / 100 mod 10) + 10 * (y / 10 mod 10) + y mod 10.
Proof. intros H. Z.to_euclidean_division_equations. lia. Qed.

Lemma digits2 (m : Z) :
  0 ≤ m ≤ 99 → 0 ≤ m / 10 ≤ 9 ∧ 0 ≤ m mod 10 ≤ 9 ∧ m = 10 * (m / 10) + m mod 10.
Proof. intros H. Z.to_euclidean_division_equations. lia. Qed.

Lemma str_le_isoformat (y1 m1 d1 y2 m2 d2 : Z) :
  date_ok y1 m1 d1 = true → date_ok y2 m2 d2 = true →
  str_le (isoformat (y1, m1, d1)) (isoformat (y2, m2, d2)) = true ↔
  date_le (y1, m1, d1) (y2, m2, d2).
Proof.
  intros (Hy1 & Hm1 & Hd1)%date_ok_bounds (Hy2 & Hm2 & Hd2)%date_ok_bounds.
  pose proof (days_in_month_le y1 m1). pose proof (days_in_month_le y2 m2).
  destruct (digits4 y1) as (A1 & B1 & C1 & E1 & Y1); [lia|].
  destruct (digits4 y2) as (A2 & B2 & C2 & E2 & Y2); [lia|].
  destruct (digits2 m1) as (F1 & G1 & M1); [lia|].
  destruct (digits2 m2) as (F2 & G2 & M2); [lia|].
  destruct (digits2 d1) as (I1 & J1 & D1); [lia|].
  destruct (digits2 d2) as (I2 & J2 & D2); [lia|].
  unfold isoformat, pad4, pad2, date_le. cbn [app string_of_list_ascii].
  rewrite !str_le_digit, str_le_hyphen, !str_le_digit, str_le_hyphen,
    !str_le_digit by done.
  assert (Hnil : str_le EmptyString EmptyString = true) by reflexivity. rewrite Hnil.
  generalize dependent (y1 / 1000). generalize dependent (y1 / 100 mod 10).
  generalize dependent (y1 / 10 mod 10). generalize dependent (y1 mod 10).
  generalize dependent (y2 / 1000). generalize dependent (y2 / 100 mod 10).
  generalize dependent (y2 / 10 mod 10). generalize dependent (y2 mod 10).
  generalize dependent (m1 / 10). generalize dependent (m1 mod 10).
  generalize dependent (m2 / 10). generalize dependent (m2 mod 10).
  generalize dependent (d1 / 10). generalize dependent (d1 mod 10).
  generalize dependent (d2 / 10). generalize dependent (d2 mod 10).
  intros. lia.
Qed.

(** A canonical date string is the rendering of the date it is parsed as. *)
Lemma canonical_date_parsed (s : string) :
  canonical_date s = true →
  ∃ y m d, strptime s = Some (y, m, d) ∧ date_ok y m d = true
           ∧ s = isoformat (y, m, d).
Proof.
  intros ([[y m] d] & E & Hiso)%strptime_canonical.
  exists y, m, d. split_and!; [done | by eapply strptime_date_ok | done].
Qed.

(** The pairs of the filtered store, in the order of strings. *)
Lemma filter_by_date_range_status st (start_date end_date : pyval) (start end_ : string) :
  _validate_date start_date = Ok start →
  _validate_date end_date = Ok end_ →
  ∃ filtered : store,
    filter_by_date_range st start_date end_date = Ok filtered
    ∧ ∀ e d s, status_of filtered e d = Some s ↔
               status_of st e d = Some s
               ∧ str_le start d = true ∧ str_le d end_ = true.
Proof.
  intros Hs He. unfold filter_by_date_range, mbind, result_bind, Py.bind.
  rewrite Hs, He. eexists. split; [reflexivity|].
  intros e d s. unfold status_of. rewrite lookup_omap.
  destruct (st !! e) as [records|]; simpl; [|naive_solver].
  case_decide as Hempty; simpl.
  - split; [done|]. intros (Hd & Hr).
    assert (Hf : filter (in_date_range start end_) records !! d = Some s)
      by (apply map_lookup_filter_Some; split; [done | by apply in_date_range_iff]).
    by rewrite Hempty, lookup_empty in Hf.
  - rewrite map_lookup_filter_Some, in_date_range_iff. done.
Qed.

(** X11.  On a store that satisfies the invariant, and for boundary dates in
    any spelling [strptime] takes, [filter_by_date_range] keeps exactly the
    records whose date lies between the two boundary dates in the order of
    the calendar: the comparison of the normalized strings decides as the
    comparison of the dates would. *)
Theorem filter_by_date_range_chronological
    st (start_date end_date : string) (a b : Z * Z * Z) :
  store_inv st →
  strptime start_date = Some a →
  strptime end_date = Some b →
  ∃ filtered : store,
    filter_by_date_range st (PyStr start_date) (PyStr end_date) = Ok filtered
    ∧ ∀ emp_id date status,
        status_of filtered emp_id date = Some status ↔
        status_of st emp_id date = Some status
        ∧ ∃ c, strptime date = Some c ∧ date_le a c ∧ date_le c b.
Proof.
  intros Hinv Ha Hb. destruct a as [[y1 m1] d1], b as [[y2 m2] d2].
  pose proof (strptime_date_ok _ _ _ _ Ha) as Hoka.
  pose proof (strptime_date_ok _ _ _ _ Hb) as Hokb.
  destruct (filter_by_date_range_status st (PyStr start_date) (PyStr end_date)
              (isoformat (y1, m1, d1)) (isoformat (y2, m2, d2)))
    as (filtered & Hrun & Hstatus).
  { unfold _validate_date. by rewrite Ha. }
  { unfold _validate_date. by rewrite Hb. }
  exists filtered. split; [done|]. intros e date status. rewrite Hstatus.
  split.
  - intros (Hst & H1 & H2). split; [done|].
    assert (Hcan : canonical_date date = true).
    { unfold status_of in Hst. destruct (st !! e) as [records|] eqn:E; [|done].
      destruct (Hinv e records E) as (_ & _ & Hrec). by apply (Hrec date status). }
    destruct (canonical_date_parsed date Hcan) as (y & m & d & Hp & Hok & ->).
    exists (y, m, d). split; [done|].
    by rewrite <- !str_le_isoformat.
  - intros (Hst & [[y m] d] & Hp & H1 & H2). split; [done|].
    assert (Hcan : canonical_date date = true).
    { unfold status_of in Hst. destruct (st !! e) as [records|] eqn:E; [|done].
      destruct (Hinv e records E) as (_ & _ & Hrec). by apply (Hrec date status). }
    destruct (canonical_date_parsed date Hcan) as (y' & m' & d' & Hp' & Hok & ->).
    rewrite Hp in Hp'. injection Hp' as <- <- <-.
    by rewrite !str_le_isoformat.
Qed.

Lemma filter_by_date_range_chronological_witness :
  ∃ filtered : store,
    filter_by_date_range
      {[ 106 := {[ "2026-02-01"%string := "Present"%string;
                   "2026-10-05"%string := "Absent"%string ]} ]}
      (PyStr "2026-1-31") (PyStr "2026-9-9") = Ok filtered
    ∧ ∀ emp_id date status,
        status_of filtered emp_id date = Some status ↔
        status_of {[ 106 := {[ "2026-02-01"%string := "Present"%string;
                               "2026-10-05"%string := "Absent"%string ]} ]}
                  emp_id date = Some status
        ∧ ∃ c, strptime date = Some c ∧ date_le (2026, 1, 31) c
               ∧ date_le c (2026, 9, 9).
Proof.
  apply (filter_by_date_range_chronological _ "2026-1-31" "2026-9-9");
    [| reflexivity | reflexivity].
  intros e records Hst.
  destruct (decide (e = 106)) as [->|Hne];
    [| by rewrite lookup_singleton_ne in Hst].
  rewrite lookup_singleton_eq in Hst. injection Hst as <-.
  split_and!; [lia | done |].
  intros date status Hd.
  destruct (decide (date = "2026-02-01"%string)) as [->|H1].
  { rewrite lookup_insert_eq in Hd. injection Hd as <-.
    split; [reflexivity | unfold valid_status, VALID_STATUSES; set_solver]. }
  rewrite lookup_insert_ne in Hd by done.
  destruct (decide (date = "2026-10-05"%string)) as [->|H2];
    [| by rewrite lookup_singleton_ne in Hd].
  rewrite lookup_singleton_eq in Hd. injection Hd as <-.
  split; [reflexivity | unfold valid_status, VALID_STATUSES; set_solver].
Defined.

(** With unpadded boundaries the strings themselves would order the other
    way round: [2026-10-05] is below [2026-9-9] as a string. *)
Example filter_by_date_range_unpadded :
  filter_by_date_range
    {[ 106 := {[ "2026-02-01"%string := "Present"%string;
                 "2026-10-05"%string := "Absent"%string ]} ]}
    (PyStr "2026-1-31") (PyStr "2026-9-9")
  = Ok {[ 106 := {[ "2026-02-01"%string := "Present"%string ]} ]}
  ∧ str_le "2026-10-05" "2026-9-9" = true.
Proof. split; reflexivity. Qed.

End date_order.

(* ===================================================================== *)
(** * The order of the rows of an export *)
(* ===================================================================== *)

Section export_order.

Implicit Types (st : store).

#[local] Instance key_le_Z_trans {A} : Transitive (@key_le_Z A).
Proof. intros a b c. unfold key_le_Z. lia. Qed.

#[local] Instance key_le_Z_total {A} : Total (@key_le_Z A).
Proof. intros a b. unfold key_le_Z. lia. Qed.

#[local] Instance key_le_str_trans {A} : Transitive (@key_le_str A).
Proof.
  intros a b c. unfold key_le_str. rewrite !Is_true_true. apply str_le_trans.
Qed.

#[local] Instance key_le_str_total {A} : Total (@key_le_str A).
Proof.
  intros a b. unfold key_le_str. rewrite !Is_true_true. apply String.leb_total.
Qed.

(** A list in order whose keys are all different is in strict order. *)
Lemma StronglySorted_strict {A K} (key : A → K) (R R' : relation A) (l : list A) :
  (∀ x y, R x y → key x ≠ key y → R' x y) →
  StronglySorted R l → NoDup (key <$> l) → StronglySorted R' l.
Proof.
  intros Hstrict. induction l as [|x l IH]; intros Hs Hnd; [constructor|].
  apply StronglySorted_cons in Hs as [Hall Hs].
  rewrite fmap_cons in Hnd. apply NoDup_cons in Hnd as [Hx Hnd].
  apply StronglySorted_cons. split; [|by apply IH].
  rewrite Forall_forall in Hall |- *. intros y Hy.
  apply Hstrict; [by apply Hall|]. intros Heq. apply Hx. rewrite Heq.
  by apply list_elem_of_fmap_2.
Qed.

Lemma StronglySorted_concat {A B} (R : relation A) (R' : relation B)
    (f : A → list B) (l : list A) :
  StronglySorted R l →
  (∀ x, x ∈ l → StronglySorted R' (f x)) →
  (∀ x y a b, R x y → a ∈ f x → b ∈ f y → R' a b) →
  StronglySorted R' (concat (map f l)).
Proof.
  intros Hs Hin Hcross. induction l as [|x l IH]; [constructor|].
  apply StronglySorted_cons in Hs as [Hall Hs]. cbn [map concat].
  apply StronglySorted_app_2.
  - intros a b Ha [bs [[y [<- Hy]]%in_map_iff Hb]]%list_elem_of_In%in_concat.
    rewrite Forall_forall in Hall.
    apply (Hcross x y); [by apply Hall, list_elem_of_In | done |].
    by apply list_elem_of_In.
  - apply Hin. by left.
  - apply IH; [done|]. intros y Hy. apply Hin. by right.
Qed.

Lemma sorted_items_Z_strict {A} (d : gmap Z A) :
  StronglySorted (λ a b, a.1 < b.1) (sorted_items_Z d).
Proof.
  apply (StronglySorted_strict fst key_le_Z).
  - intros a b. unfold key_le_Z. lia.
  - apply StronglySorted_merge_sort; apply _.
  - unfold sorted_items_Z. rewrite merge_sort_Permutation.
    apply NoDup_fst_map_to_list.
Qed.

Lemma sorted_items_str_strict {A} (d : gmap string A) :
  StronglySorted (λ a b, a.1 ≠ b.1 ∧ str_le a.1 b.1 = true) (sorted_items_str d).
Proof.
  apply (StronglySorted_strict fst key_le_str).
  - intros a b Hle Hne. split; [done|]. by apply Is_true_true.
  - apply StronglySorted_merge_sort; apply _.
  - unfold sorted_items_str. rewrite merge_sort_Permutation.
    apply NoDup_fst_map_to_list.
Qed.

Lemma items_sorted st : StronglySorted item_lt (items st).
Proof.
  unfold items.
  apply (StronglySorted_concat (λ a b : Z * gmap string string, a.1 < b.1)).
  - apply sorted_items_Z_strict.
  - intros [e records] _.
    pose proof (sorted_items_str_strict records) as Hs.
    induction Hs as [|[d s] l Hs IH Hall]; [constructor|].
    cbn [map]. apply StronglySorted_cons. split; [|done].
    apply Forall_forall.
    intros [[e' d'] s'] [[d'' s''] [[= -> -> ->] Hin%list_elem_of_In]]%list_elem_of_In%in_map_iff.
    destruct (proj1 (Forall_forall _ _) Hall _ Hin) as [Hne Hle]. right. done.
  - intros [e1 r1] [e2 r2] [[e1' d1] s1] [[e2' d2] s2] Hlt
      [[? ?] [[= <- <- <-] _]]%list_elem_of_In%in_map_iff
      [[? ?] [[= <- <- <-] _]]%list_elem_of_In%in_map_iff.
    by left.
Qed.

(** X12.  [export_to_csv] writes the header and then exactly one row for
    every record of the store, in strictly ascending order: by employee ID
    and, for one employee, by date in the order of strings; so no pair of an
    employee and a date is written twice. *)
Theorem export_to_csv_sorted st :
  export_to_csv st = csv_header :: map row_of (items st)
  ∧ StronglySorted item_lt (items st)
  ∧ (∀ emp_id date status,
       (emp_id, date, status) ∈ items st ↔ status_of st emp_id date = Some status)
  ∧ length (export_to_csv st) = S (record_count st).
Proof.
  split_and!.
  - apply export_to_csv_items.
  - apply items_sorted.
  - intros e d s. rewrite list_elem_of_In. apply in_items.
  - by rewrite export_to_csv_items, <- length_items; cbn [length]; rewrite length_map.
Qed.

Example export_to_csv_sorted_example :
  export_to_csv
    {[ 12 := {[ "2026-03-01"%string := "Leave"%string ]};
       7 := {[ "2026-02-02"%string := "Absent"%string;
               "2026-01-15"%string := "Present"%string ]} ]}
  = [ ["Employee_ID"; "Date"; "Status"];
      ["7"; "2026-01-15"; "Present"];
      ["7"; "2026-02-02"; "Absent"];
      ["12"; "2026-03-01"; "Leave"] ]%string.
Proof. reflexivity. Qed.

End export_order.

(* ===================================================================== *)
(** * The command line and the request handlers *)
(* ===================================================================== *)

Section command_line.

(** X13.  [main] creates its tracker anew in every run: whatever was added
    before, [summary] prints that the employee has no records and [list]
    that there are no records yet, both returning 0.  [add], whose status
    the parser has taken from the fixed set, prints [Record added.] and
    returns 0 exactly for a positive employee ID and a date the validation
    takes; it is ended by the tracker's [ValueError] for the employee ID
    when the ID is not positive, and by the one for the date otherwise;
    never by the one for the status. *)
Theorem main_starts_empty :
  (∀ emp_id,
     Cli.main (Cli.command_summary emp_id)
     = Ok ([Cli.Line "No records found for this employee."], 0))
  ∧ Cli.main Cli.command_list = Ok ([Cli.Line "No attendance records yet."], 0)
  ∧ ∀ emp_id date status choice,
      (0 < emp_id ∧ valid_date (PyStr date) →
       Cli.main (Cli.command_add emp_id date status choice)
       = Ok ([Cli.Line "Record added."], 0))
      ∧ (emp_id ≤ 0 →
         Cli.main (Cli.command_add emp_id date status choice)
         = Raise InvalidEmployeeId)
      ∧ (0 < emp_id → ¬ valid_date (PyStr date) →
         Cli.main (Cli.command_add emp_id date status choice)
         = Raise InvalidDateFormat).
Proof.
  split_and!.
  - intros emp_id. unfold Cli.main, get_summary, __init__.
    by rewrite lookup_empty.
  - reflexivity.
  - intros emp_id date status choice. apply bool_decide_eq_true in choice as Hs.
    unfold Cli.main. rewrite add_record_unfold. split_and!.
    + intros (Hid & [normalized Hd]%validate_date_valid).
      rewrite (proj2 (validate_emp_id_Ok (PyInt emp_id) emp_id)) by done.
      rewrite Hd.
      by rewrite (proj2 (validate_status_Ok (PyStr status) status)).
    + intros Hid.
      assert (Hbad : ¬ valid_emp_id (PyInt emp_id))
        by (intros (z & [= <-] & ?); lia).
      apply validate_emp_id_invalid in Hbad. by rewrite Hbad.
    + intros Hid Hbad%validate_date_invalid.
      rewrite (proj2 (validate_emp_id_Ok (PyInt emp_id) emp_id)) by done.
      by rewrite Hbad.
Qed.

Example main_add_then_summary :
  Cli.main (Cli.command_add 101 "2026-02-01" "Present" eq_refl)
  = Ok ([Cli.Line "Record added."], 0)
  ∧ Cli.main (Cli.command_summary 101)
    = Ok ([Cli.Line "No records found for this employee."], 0)
  ∧ Cli.main (Cli.command_add 101 "01-02-2026" "Present" eq_refl)
    = Raise InvalidDateFormat
  ∧ Cli.main (Cli.command_add 0 "01-02-2026" "Leave" eq_refl)
    = Raise InvalidEmployeeId.
Proof. split_and!; reflexivity. Qed.

End command_line.

Section request_handlers.

Implicit Types (st : store).

Lemma api_add_record_unfold (data : gmap string pyval) st :
  Api.add_record data st =
  match data !! "emp_id"%string with
  | None => (st, Ok (Api.Failure_of (KeyError "emp_id"), 400))
  | Some id_field =>
      match int id_field with
      | Raise e =>
          if Api.is_KeyError_or_ValueError e
          then (st, Ok (Api.Failure_of e, 400)) else (st, Raise e)
      | Ok emp_id =>
          match data !! "date"%string with
          | None => (st, Ok (Api.Failure_of (KeyError "date"), 400))
          | Some date =>
              match data !! "status"%string with
              | None => (st, Ok (Api.Failure_of (KeyError "status"), 400))
              | Some status =>
                  match add_record (PyInt emp_id) date status st with
                  | (st', Ok _) =>
                      (st', Ok (Api.Message ("Record added for employee "
                                             +:+ str_of_int emp_id), 201))
                  | (st', Raise e) =>
                      if Api.is_KeyError_or_ValueError e
                      then (st', Ok (Api.Failure_of e, 400)) else (st', Raise e)
                  end
              end
          end
      end
  end.
Proof.
  unfold Api.add_record, Api.try_except, mbind, prog_bind, lift, Csv.subscript,
    mret, prog_ret.
  destruct (data !! "emp_id"%string) as [id_field|]; [|done].
  destruct (int id_field) as [emp_id|e]; [|done].
  destruct (data !! "date"%string) as [date|]; [|done].
  destruct (data !! "status"%string) as [status|]; [|done].
  destruct (add_record (PyInt emp_id) date status st) as [st' [[]|e]]; done.
Qed.

Lemma int_Raise (v : pyval) (e : exn) :
  int v = Raise e →
  (v = PyNone ∧ e = TypeError) ∨ (∃ s msg, v = PyStr s ∧ e = ValueError msg).
Proof.
  unfold int. destruct v as [|z|s]; [intros [= <-]; by left | done |].
  destruct (int_of_chars _); [done|]. intros [= <-]. right. by eexists _, _.
Qed.

#[local] Ltac answers_400 :=
  right; right; eexists; split; [|reflexivity]; reflexivity.

(** The three ways a [POST] ends. *)
Lemma api_add_record_cases (data : gmap string pyval) st :
  (∃ id_field emp_id date normalized status,
      data !! "emp_id"%string = Some id_field ∧ int id_field = Ok emp_id
      ∧ 0 < emp_id
      ∧ data !! "date"%string = Some date ∧ _validate_date date = Ok normalized
      ∧ data !! "status"%string = Some (PyStr status) ∧ status ∈ VALID_STATUSES
      ∧ Api.add_record data st
        = (put st (emp_id, normalized, status),
           Ok (Api.Message ("Record added for employee " +:+ str_of_int emp_id),
               201)))
  ∨ (data !! "emp_id"%string = Some PyNone
     ∧ Api.add_record data st = (st, Raise TypeError))
  ∨ (∃ e, Api.is_KeyError_or_ValueError e = true
          ∧ Api.add_record data st = (st, Ok (Api.Failure_of e, 400))).
Proof.
  rewrite api_add_record_unfold.
  destruct (data !! "emp_id"%string) as [id_field|] eqn:Eid;
    [| answers_400].
  destruct (int id_field) as [emp_id|e] eqn:Eint.
  2:{ right. destruct (int_Raise _ _ Eint) as [[-> ->] | (s & msg & -> & ->)];
        [left; by split | right; eexists; split; [|reflexivity]; reflexivity]. }
  destruct (data !! "date"%string) as [date|] eqn:Edate;
    [| answers_400].
  destruct (data !! "status"%string) as [status|] eqn:Estatus;
    [| answers_400].
  rewrite add_record_unfold.
  destruct (_validate_emp_id (PyInt emp_id)) as [e|x] eqn:Ee.
  2:{ apply validate_emp_id_Raise in Ee as ->. answers_400. }
  apply validate_emp_id_Ok in Ee as [[= <-] Hpos].
  destruct (_validate_date date) as [normalized|x] eqn:Ed.
  2:{ apply validate_date_Raise in Ed as ->. answers_400. }
  destruct (_validate_status status) as [s|x] eqn:Es.
  2:{ apply validate_status_Raise in Es as ->. answers_400. }
  apply validate_status_Ok in Es as [-> Hs].
  left. exists id_field, emp_id, date, normalized, s. by split_and!.
Qed.

(** X14.  [POST /api/records] answers 201 exactly when the body names an
    [emp_id] that [int()] reads as a positive integer (an integer, or a
    string such as ["7"]), a [date] the validation takes and a [status] of
    the fixed set, and then the record is in the tracker under the
    normalized date; a [null] [emp_id] is the one case in which the handler
    is ended by an exception, the [TypeError] of [int()]; in every other
    case it answers 400 with the message of a [KeyError] or [ValueError] and
    leaves the tracker as it was. *)
Theorem api_add_record_spec (data : gmap string pyval) st :
  (∀ st1 body,
     Api.add_record data st = (st1, Ok (body, 201)) ↔
     ∃ id_field emp_id date normalized status,
       data !! "emp_id"%string = Some id_field ∧ int id_field = Ok emp_id
       ∧ 0 < emp_id
       ∧ data !! "date"%string = Some date ∧ _validate_date date = Ok normalized
       ∧ data !! "status"%string = Some (PyStr status) ∧ status ∈ VALID_STATUSES
       ∧ st1 = put st (emp_id, normalized, status)
       ∧ body = Api.Message ("Record added for employee " +:+ str_of_int emp_id))
  ∧ (∀ st1 x,
       Api.add_record data st = (st1, Raise x) ↔
       data !! "emp_id"%string = Some PyNone ∧ st1 = st ∧ x = TypeError)
  ∧ (∀ st1 body code,
       Api.add_record data st = (st1, Ok (body, code)) → code ≠ 201 →
       code = 400 ∧ st1 = st
       ∧ ∃ e, body = Api.Failure_of e ∧ Api.is_KeyError_or_ValueError e = true).
Proof.
  destruct (api_add_record_cases data st)
    as [(id_field & emp_id & date & normalized & status & Hid & Hint & Hpos
         & Hdate & Hnd & Hstatus & Hs & Hrun)
       | [[Hid Hrun] | (e & He & Hrun)]]; rewrite Hrun; split_and!.
  - intros st1 body. split.
    + intros [= <- <-]. exists id_field, emp_id, date, normalized, status.
      by split_and!.
    + intros (id_field' & emp_id' & date' & normalized' & status' & Hid' & Hint'
              & _ & Hdate' & Hnd' & Hstatus' & _ & -> & ->).
      rewrite Hid in Hid'. injection Hid' as <-.
      rewrite Hint in Hint'. injection Hint' as <-.
      rewrite Hdate in Hdate'. injection Hdate' as <-.
      rewrite Hnd in Hnd'. injection Hnd' as <-.
      rewrite Hstatus in Hstatus'. by injection Hstatus' as <-.
  - intros st1 x. split; [done|]. intros (Hnone & _). rewrite Hid in Hnone.
    injection Hnone as ->. done.
  - intros st1 body code [= <- <- <-]. done.
  - intros st1 body. split; [done|].
    intros (id_field' & emp_id' & _ & _ & _ & Hid' & Hint' & _).
    rewrite Hid in Hid'. injection Hid' as <-. done.
  - intros st1 x. split; [by intros [= <- <-] | by intros (_ & -> & ->)].
  - done.
  - intros st1 body. split; [done|].
    intros (id_field & emp_id & date & normalized & status & Hid & Hint & Hpos
            & Hdate & Hnd & Hstatus & Hs & _).
    exfalso. revert Hrun. rewrite api_add_record_unfold, Hid, Hint, Hdate, Hstatus.
    rewrite (add_record_put _ emp_id date normalized status) by done. done.
  - intros st1 x. split; [done|]. intros (Hid & _).
    revert Hrun. rewrite api_add_record_unfold, Hid. done.
  - intros st1 body code [= <- <- <-] _. split_and!; [done..|]. by exists e.
Qed.

Example api_add_record_examples :
  Api.add_record {[ "emp_id"%string := PyStr "7"; "date"%string := PyStr "2026-2-1";
                    "status"%string := PyStr "Leave" ]} ∅
  = ({[ 7 := {[ "2026-02-01"%string := "Leave"%string ]} ]},
     Ok (Api.Message "Record added for employee 7", 201))
  ∧ Api.add_record {[ "emp_id"%string := PyInt 7; "status"%string := PyStr "Leave" ]} ∅
    = (∅, Ok (Api.Failure_of (KeyError "date"), 400))
  ∧ Api.add_record {[ "emp_id"%string := PyNone; "date"%string := PyStr "2026-02-01";
                      "status"%string := PyStr "Leave" ]} ∅
    = (∅, Raise TypeError)
  ∧ Api.add_record {[ "emp_id"%string := PyInt 0; "date"%string := PyStr "2026-02-01";
                      "status"%string := PyStr "Leave" ]} ∅
    = (∅, Ok (Api.Failure_of InvalidEmployeeId, 400)).
Proof. split_and!; reflexivity. Qed.

Lemma api_delete_record_unfold (emp_id : Z) (date : string) st :
  Api.delete_record emp_id date st =
  match delete_record emp_id (PyStr date) st with
  | (st', Ok true) => (st', Ok (Api.Message "Record deleted", 200))
  | (st', Ok false) => (st', Ok (Api.Failure "Record not found", 404))
  | (st', Raise e) =>
      if Api.is_ValueError e then (st', Ok (Api.Failure_of e, 400))
      else (st', Raise e)
  end.
Proof.
  unfold Api.delete_record, Api.try_except, mbind, prog_bind, mret, prog_ret.
  by destruct (delete_record emp_id (PyStr date) st) as [st' [[]|e]].
Qed.

(** The pairs of the store a deletion leaves. *)
Lemma status_of_deleted st (emp_id : Z) (records : gmap string string)
    (normalized : string) (e : Z) (d : string) :
  st !! emp_id = Some records →
  status_of (if decide (delete normalized records = ∅)
             then delete emp_id st
             else <[emp_id := delete normalized records]> st) e d
  = if decide (e = emp_id ∧ d = normalized) then None else status_of st e d.
Proof.
  intros Hst. unfold status_of.
  destruct (decide (e = emp_id)) as [->|Hne].
  - rewrite Hst. simpl.
    assert (Hd : (delete normalized records : gmap string string) !! d
                 = if decide (d = normalized) then None else records !! d).
    { case_decide as Hd; [subst; apply lookup_delete_eq | by apply lookup_delete_ne]. }
    destruct (decide (delete normalized records = ∅)) as [Hempty|Hempty].
    + rewrite lookup_delete_eq. simpl. rewrite Hempty, lookup_empty in Hd.
      repeat case_decide; naive_solver.
    + rewrite lookup_insert_eq. simpl. rewrite Hd.
      repeat case_decide; naive_solver.
  - rewrite (decide_False (P := e = emp_id ∧ d = normalized)) by naive_solver.
    destruct (decide (delete normalized records = ∅));
      [by rewrite lookup_delete_ne | by rewrite lookup_insert_ne].
Qed.

(** What a [DELETE] answers, by the date and the store. *)
Lemma api_delete_record_cases (emp_id : Z) (date : string) st :
  match _validate_date (PyStr date) with
  | Raise _ =>
      Api.delete_record emp_id date st
      = (st, Ok (Api.Failure_of InvalidDateFormat, 400))
  | Ok normalized =>
      match status_of st emp_id normalized with
      | None =>
          Api.delete_record emp_id date st
          = (st, Ok (Api.Failure "Record not found", 404))
      | Some _ =>
          ∃ st', Api.delete_record emp_id date st
                 = (st', Ok (Api.Message "Record deleted", 200))
                 ∧ ∀ e d, status_of st' e d
                          = if decide (e = emp_id ∧ d = normalized) then None
                            else status_of st e d
      end
  end.
Proof.
  rewrite api_delete_record_unfold, delete_record_unfold.
  destruct (_validate_date (PyStr date)) as [normalized|x] eqn:Ed.
  2:{ by apply validate_date_Raise in Ed as ->. }
  assert (Hso : status_of st emp_id normalized
                = match st !! emp_id with
                  | Some records => records !! normalized
                  | None => None
                  end) by (unfold status_of; by destruct (st !! emp_id)).
  rewrite Hso. clear Hso.
  destruct (st !! emp_id) as [records|] eqn:Est; [|done].
  destruct (records !! normalized) as [status|] eqn:Erec; [|done].
  eexists. split; [reflexivity|]. intros e d.
  by rewrite (status_of_deleted st emp_id records normalized e d Est).
Qed.

(** X15.  [DELETE /api/records/<emp_id>/<date>] answers 400 with the message
    of the date validation when the date is not one the validation takes,
    whatever the tracker holds; for a valid date it answers 200 exactly when
    the tracker has a record of the employee on the normalized date, which
    it then removes and nothing else; and 404, with the tracker as it was,
    when there is no such record.  The handler is never ended by an
    exception. *)
Theorem api_delete_record_spec (emp_id : Z) (date : string) st :
  (¬ valid_date (PyStr date) →
   Api.delete_record emp_id date st
   = (st, Ok (Api.Failure_of InvalidDateFormat, 400)))
  ∧ (∀ normalized, _validate_date (PyStr date) = Ok normalized →
       (status_of st emp_id normalized = None →
        Api.delete_record emp_id date st
        = (st, Ok (Api.Failure "Record not found", 404)))
       ∧ (is_Some (status_of st emp_id normalized) →
          ∃ st', Api.delete_record emp_id date st
                 = (st', Ok (Api.Message "Record deleted", 200))
                 ∧ ∀ e d, status_of st' e d
                          = if decide (e = emp_id ∧ d = normalized) then None
                            else status_of st e d))
  ∧ ∃ st' body code, Api.delete_record emp_id date st = (st', Ok (body, code))
                     ∧ code ∈ [200; 404; 400].
Proof.
  pose proof (api_delete_record_cases emp_id date st) as Hcases. split_and!.
  - intros Hd%validate_date_invalid. by rewrite Hd in Hcases.
  - intros normalized Hd. rewrite Hd in Hcases. split.
    + intros Hnone. by rewrite Hnone in Hcases.
    + intros [status Hsome]. by rewrite Hsome in Hcases.
  - destruct (_validate_date (PyStr date)) as [normalized|x].
    + destruct (status_of st emp_id normalized).
      * destruct Hcases as (st' & -> & _). eexists _, _, _.
        split; [reflexivity | set_solver].
      * rewrite Hcases. eexists _, _, _. split; [reflexivity | set_solver].
    + rewrite Hcases. eexists _, _, _. split; [reflexivity | set_solver].
Qed.

(** X16.  [GET /api/filter] never changes the tracker and is never ended by
    an exception.  It answers 400 with [start_date and end_date are
    required] when one of the two parameters is missing or empty; with both
    given it answers 200 with the filtered records exactly when both are
    dates the validation takes, and 400 with the message of the date
    validation otherwise. *)
Theorem api_filter_records_spec (start_arg end_arg : option string) st :
  (start_arg = None ∨ start_arg = Some EmptyString
   ∨ end_arg = None ∨ end_arg = Some EmptyString →
   Api.filter_records start_arg end_arg st
   = (st, Ok (Api.Failure "start_date and end_date are required", 400)))
  ∧ (∀ start_date end_date,
       start_arg = Some start_date → end_arg = Some end_date →
       start_date ≠ EmptyString → end_date ≠ EmptyString →
       (valid_date (PyStr start_date) ∧ valid_date (PyStr end_date) →
        ∃ filtered,
          filter_by_date_range st (PyStr start_date) (PyStr end_date) = Ok filtered
          ∧ Api.filter_records start_arg end_arg st
            = (st, Ok (Api.Records filtered, 200)))
       ∧ (¬ (valid_date (PyStr start_date) ∧ valid_date (PyStr end_date)) →
          Api.filter_records start_arg end_arg st
          = (st, Ok (Api.Failure_of InvalidDateFormat, 400)))).
Proof.
  split.
  - intros Hmissing. unfold Api.filter_records, Api.try_except.
    assert (Api.not_ (Api.args_get start_arg) || Api.not_ (Api.args_get end_arg)
            = true) as ->; [|done].
    apply orb_true_iff.
    destruct Hmissing as [-> | [-> | [-> | ->]]]; [by left | by left | by right | by right].
  - intros start_date end_date -> -> Hs He.
    unfold Api.filter_records, Api.try_except, Api.args_get, Api.not_.
    rewrite !bool_decide_eq_false_2 by done. cbn [orb].
    unfold mbind at 1, prog_bind at 1, read.
    unfold mbind at 1, prog_bind at 1, lift, mret, prog_ret.
    unfold filter_by_date_range, mbind, result_bind, Py.bind. split.
    + intros [[start Hstart]%validate_date_valid [end_ Hend]%validate_date_valid].
      rewrite Hstart, Hend. by eexists.
    + intros Hnot.
      destruct (_validate_date (PyStr start_date)) as [start|x] eqn:Hstart.
      2:{ by apply validate_date_Raise in Hstart as ->. }
      destruct (_validate_date (PyStr end_date)) as [end_|x] eqn:Hend.
      2:{ by apply validate_date_Raise in Hend as ->. }
      exfalso. apply Hnot. split; apply validate_date_valid; by eexists.
Qed.

Example api_filter_records_examples :
  Api.filter_records (Some "2026-02-01"%string) None ∅
  = (∅, Ok (Api.Failure "start_date and end_date are required", 400))
  ∧ Api.filter_records (Some "2026-02-01"%string) (Some "soon"%string) ∅
    = (∅, Ok (Api.Failure_of InvalidDateFormat, 400))
  ∧ Api.filter_records (Some "2026-02-01"%string) (Some "2026-02-03"%string)
      {[ 106 := {[ "2026-02-01"%string := "Present"%string;
                   "2026-02-05"%string := "Absent"%string ]} ]}
    = ({[ 106 := {[ "2026-02-01"%string := "Present"%string;
                    "2026-02-05"%string := "Absent"%string ]} ]},
       Ok (Api.Records {[ 106 := {[ "2026-02-01"%string := "Present"%string ]} ]},
           200)).
Proof. split_and!; reflexivity. Qed.

(** X17.  A record a [POST] has added (answer 201) is shown by the [GET] of
    the records of its employee under the normalized date with the status
    of the body; the [DELETE] of that employee and date then answers 200,
    and a second one 404. *)
Theorem api_add_get_delete (data : gmap string pyval) st st1 (body : Api.body) :
  Api.add_record data st = (st1, Ok (body, 201)) →
  ∃ id_field emp_id date normalized status records st2,
    data !! "emp_id"%string = Some id_field ∧ int id_field = Ok emp_id
    ∧ data !! "date"%string = Some date ∧ _validate_date date = Ok normalized
    ∧ data !! "status"%string = Some (PyStr status)
    ∧ Api.get_employee_records emp_id st1
      = (st1, Ok (Api.Employee_records emp_id records, 200))
    ∧ records !! normalized = Some status
    ∧ Api.delete_record emp_id normalized st1
      = (st2, Ok (Api.Message "Record deleted", 200))
    ∧ Api.delete_record emp_id normalized st2
      = (st2, Ok (Api.Failure "Record not found", 404)).
Proof.
  intros Hrun.
  destruct (api_add_record_cases data st)
    as [(id_field & emp_id & date & normalized & status & Hid & Hint & Hpos
         & Hdate & Hnd & Hstatus & Hs & Hrun')
       | [[_ Hrun'] | (e & _ & Hrun')]];
    rewrite Hrun in Hrun'; [|done..].
  injection Hrun' as -> ->.
  assert (Hcan : _validate_date (PyStr normalized) = Ok normalized).
  { by eapply validate_date_canonical, validate_date_normalized. }
  pose proof (api_delete_record_cases emp_id normalized
                (put st (emp_id, normalized, status))) as Hdel.
  rewrite Hcan, status_of_put, decide_True in Hdel by done.
  destruct Hdel as (st2 & Hdel & Hst2).
  pose proof (api_delete_record_cases emp_id normalized st2) as Hdel2.
  rewrite Hcan, Hst2, decide_True in Hdel2 by done.
  exists id_field, emp_id, date, normalized, status,
    (<[normalized := status]> (default ∅ (st !! emp_id))), st2.
  split_and!; [done..| | | done | done].
  - unfold Api.get_employee_records, mbind, prog_bind, read, get_records, put.
    by rewrite lookup_insert_eq.
  - apply lookup_insert_eq.
Qed.

Lemma api_add_get_delete_witness :
  ∃ id_field emp_id date normalized status records st2,
    ({[ "emp_id"%string := PyStr "7"; "date"%string := PyStr "2026-2-1";
        "status"%string := PyStr "Leave" ]} : gmap string pyval)
      !! "emp_id"%string = Some id_field
    ∧ int id_field = Ok emp_id
    ∧ ({[ "emp_id"%string := PyStr "7"; "date"%string := PyStr "2026-2-1";
          "status"%string := PyStr "Leave" ]} : gmap string pyval)
        !! "date"%string = Some date
    ∧ _validate_date date = Ok normalized
    ∧ ({[ "emp_id"%string := PyStr "7"; "date"%string := PyStr "2026-2-1";
          "status"%string := PyStr "Leave" ]} : gmap string pyval)
        !! "status"%string = Some (PyStr status)
    ∧ Api.get_employee_records emp_id
        {[ 7 := {[ "2026-02-01"%string := "Leave"%string ]} ]}
      = ({[ 7 := {[ "2026-02-01"%string := "Leave"%string ]} ]},
         Ok (Api.Employee_records emp_id records, 200))
    ∧ records !! normalized = Some status
    ∧ Api.delete_record emp_id normalized
        {[ 7 := {[ "2026-02-01"%string := "Leave"%string ]} ]}
      = (st2, Ok (Api.Message "Record deleted", 200))
    ∧ Api.delete_record emp_id normalized st2
      = (st2, Ok (Api.Failure "Record not found", 404)).
Proof.
  apply (api_add_get_delete
           {[ "emp_id"%string := PyStr "7"; "date"%string := PyStr "2026-2-1";
              "status"%string := PyStr "Leave" ]}
           ∅ _ (Api.Message "Record added for employee 7")).
  reflexivity.
Defined.

(** The requests of [test_api.py] that do not depend on the records of
    earlier tests. *)
Example test_add_record_invalid_data :
  Api.add_record {[ "emp_id"%string := PyInt (-1); "date"%string := PyStr "2026-02-01";
                    "status"%string := PyStr "Present" ]} ∅
  = (∅, Ok (Api.Failure_of InvalidEmployeeId, 400)).
Proof. reflexivity. Qed.

Example test_add_record_invalid_status_api :
  Api.add_record {[ "emp_id"%string := PyInt 101; "date"%string := PyStr "2026-02-01";
                    "status"%string := PyStr "Late" ]} ∅
  = (∅, Ok (Api.Failure_of InvalidStatus, 400)).
Proof. reflexivity. Qed.

Example test_add_record_missing_fields :
  Api.add_record {[ "emp_id"%string := PyInt 101 ]} ∅
  = (∅, Ok (Api.Failure_of (KeyError "date"), 400)).
Proof. reflexivity. Qed.

Example test_get_nonexistent_employee :
  Api.get_employee_records 999 ∅ = (∅, Ok (Api.Failure "Employee not found", 404)).
Proof. reflexivity. Qed.

Example test_delete_nonexistent_record :
  Api.delete_record 999 "2026-02-01" ∅
  = (∅, Ok (Api.Failure "Record not found", 404)).
Proof. reflexivity. Qed.

End request_handlers.

(* ===================================================================== *)
(** * The normalized date as a key *)
(* ===================================================================== *)

Section date_keys.

Lemma str_le_refl (s : string) : str_le s s = true.
Proof.
  induction s as [|c s IH]; [done|]. apply str_le_cons. by right.
Qed.

Lemma date_le_antisym (a b : Z * Z * Z) : date_le a b → date_le b a → a = b.
Proof.
  destruct a as [[y1 m1] d1], b as [[y2 m2] d2]. unfold date_le. intros H1 H2.
  assert (y1 = y2 ∧ m1 = m2 ∧ d1 = d2) as (-> & -> & ->) by lia. done.
Qed.

Lemma isoformat_inj (a b : Z * Z * Z) :
  date_ok a.1.1 a.1.2 a.2 = true → date_ok b.1.1 b.1.2 b.2 = true →
  isoformat a = isoformat b → a = b.
Proof.
  destruct a as [[y1 m1] d1], b as [[y2 m2] d2]. cbn [fst snd].
  intros Ha Hb Heq. apply date_le_antisym.
  - apply str_le_isoformat; [done..|]. rewrite Heq. apply str_le_refl.
  - apply str_le_isoformat; [done..|]. rewrite Heq. apply str_le_refl.
Qed.

Lemma strptime_isoformat (a : Z * Z * Z) :
  date_ok a.1.1 a.1.2 a.2 = true → strptime (isoformat a) = Some a.
Proof.
  intros Hok. destruct a as [[y m] d]. cbn [fst snd] in Hok.
  destruct (strptime_canonical _ (isoformat_canonical y m d Hok))
    as ([[y' m'] d'] & Hp & Hiso).
  rewrite Hp. f_equal. apply isoformat_inj; [|done..].
  cbn [fst snd]. by eapply strptime_date_ok.
Qed.

(** X18.  Two date strings the validation takes are normalized to the same
    key exactly when they name the same calendar date: every spelling of a
    date reaches the one record of that date, and no two dates share a key.
    The normalized string is itself taken, names the same date and is its
    own normal form. *)
Theorem validate_date_same_key (date1 date2 : string) (a b : Z * Z * Z) :
  strptime date1 = Some a →
  strptime date2 = Some b →
  (_validate_date (PyStr date1) = _validate_date (PyStr date2) ↔ a = b)
  ∧ ∃ normalized,
      _validate_date (PyStr date1) = Ok normalized
      ∧ strptime normalized = Some a
      ∧ _validate_date (PyStr normalized) = Ok normalized.
Proof.
  intros Ha Hb.
  assert (Hoka : date_ok a.1.1 a.1.2 a.2 = true)
    by (destruct a as [[y m] d]; by eapply strptime_date_ok).
  assert (Hokb : date_ok b.1.1 b.1.2 b.2 = true)
    by (destruct b as [[y m] d]; by eapply strptime_date_ok).
  unfold _validate_date at 1 2. rewrite Ha, Hb. split.
  - split; [|by intros ->]. intros [= Heq]. by apply isoformat_inj.
  - exists (isoformat a). split_and!.
    + unfold _validate_date. by rewrite Ha.
    + by apply strptime_isoformat.
    + unfold _validate_date. by rewrite strptime_isoformat.
Qed.

Lemma validate_date_same_key_witness :
  (_validate_date (PyStr "2026-2-1") = _validate_date (PyStr "2026-02- 1")
   ↔ (2026, 2, 1) = (2026, 2, 1))
  ∧ ∃ normalized,
      _validate_date (PyStr "2026-2-1") = Ok normalized
      ∧ strptime normalized = Some (2026, 2, 1)
      ∧ _validate_date (PyStr normalized) = Ok normalized.
Proof.
  apply (validate_date_same_key "2026-2-1" "2026-02- 1"); reflexivity.
Defined.

End date_keys.

(* ===================================================================== *)
(** * The summary after an addition *)
(* ===================================================================== *)

Section summary_after_add.

Implicit Types (st : store).

(** Writing a date moves one count: the status written gains one record,
    the status the date had, if any, loses one. *)
Lemma count_status_insert (records : gmap string string) (date status s : string) :
  (count_status (<[date := status]> records) s
   + (if decide (records !! date = Some s) then 1 else 0)
   = count_status records s + (if decide (status = s) then 1 else 0))%nat.
Proof.
  unfold count_status.
  set (P := λ item : string * string, item.2 = s).
  assert (Hold : filter P records !! date
                 = if decide (records !! date = Some s) then Some s else None).
  { case_decide as Hd.
    - by apply map_lookup_filter_Some.
    - apply map_lookup_filter_None. destruct (records !! date) as [s'|] eqn:E;
        [right | by left]. intros x [= <-] HP. apply Hd. by rewrite <- HP. }
  rewrite map_filter_insert. cbn [snd]. unfold P at 1. cbn [snd].
  destruct (decide (status = s)) as [->|Hne].
  - rewrite map_size_insert, Hold. case_decide; simpl; lia.
  - rewrite map_filter_delete, map_size_delete, Hold.
    case_decide as Hd; simpl; [|lia].
    assert (Hpos : size (filter P records) ≠ 0%nat).
    { intros Hz%map_size_empty_iff.
      by rewrite Hz, lookup_empty in Hold. }
    lia.
Qed.

(** X19.  On a store that satisfies the invariant, the summary of an
    employee after an [add_record] that succeeds follows from the counts
    before it: for each status of the fixed set, the status added gains one
    record and the status the date had before, if any, loses one; every
    other count is as before (with zero for an employee who had no
    record). *)
Theorem add_record_updates_summary
    st st' (emp_id : Z) (date status : pyval) :
  store_inv st →
  add_record (PyInt emp_id) date status st = (st', Ok ()) →
  ∃ (normalized new : string) (summary : gmap string nat),
    _validate_date date = Ok normalized ∧ status = PyStr new
    ∧ get_summary st' emp_id = Ok (Some summary)
    ∧ ∀ s, s ∈ VALID_STATUSES →
        ∃ n : nat,
          summary !! s = Some n
          ∧ (n + (if decide (status_of st emp_id normalized = Some s) then 1 else 0)
             = count_status (default ∅ (st !! emp_id)) s
               + (if decide (new = s) then 1 else 0))%nat.
Proof.
  intros Hinv (e & normalized & new & [[= <-] Hpos]%validate_emp_id_Ok & Hd
               & [-> Hnew]%validate_status_Ok & ->)%add_record_Ok.
  pose proof (store_inv_set_record st emp_id normalized new Hinv Hpos
                (validate_date_normalized _ _ Hd) Hnew) as Hinv'.
  set (records := default ∅ (st !! emp_id)) in *.
  destruct (Hinv' emp_id (<[normalized := new]> records)) as (_ & _ & Hrec);
    [apply lookup_insert_eq|].
  destruct (summarize_valid (<[normalized := new]> records))
    as (summary & Hsum & _ & Hcount & _).
  { intros d s Hds. by apply (Hrec d s). }
  exists normalized, new, summary. split_and!; [done | done | |].
  - unfold get_summary. rewrite lookup_insert_eq.
    unfold mbind, result_bind, Py.bind. by rewrite Hsum.
  - intros s Hs. eexists. split; [by apply Hcount|].
    assert (Hso : status_of st emp_id normalized = records !! normalized).
    { unfold status_of, records. by destruct (st !! emp_id). }
    rewrite Hso. apply count_status_insert.
Qed.

Lemma add_record_updates_summary_witness :
  ∃ (normalized new : string) (summary : gmap string nat),
    _validate_date (PyStr "2026-2-1") = Ok normalized ∧ PyStr "Leave" = PyStr new
    ∧ get_summary {[ 101 := {[ "2026-02-01"%string := "Leave"%string ]} ]} 101
      = Ok (Some summary)
    ∧ ∀ s, s ∈ VALID_STATUSES →
        ∃ n : nat,
          summary !! s = Some n
          ∧ (n + (if decide (status_of
                               {[ 101%Z := {[ "2026-02-01"%string := "Present"%string ]} ]}
                               101%Z normalized = Some s) then 1 else 0)
             = count_status
                 (default ∅ (({[ 101%Z := {[ "2026-02-01"%string := "Present"%string ]} ]}
                              : store) !! 101%Z)) s
               + (if decide (new = s) then 1 else 0))%nat.
Proof.
  apply (add_record_updates_summary
           {[ 101 := {[ "2026-02-01"%string := "Present"%string ]} ]} _ 101
           (PyStr "2026-2-1") (PyStr "Leave")); [|reflexivity].
  intros e records Hst.
  destruct (decide (e = 101)) as [->|Hne];
    [| by rewrite lookup_singleton_ne in Hst].
  rewrite lookup_singleton_eq in Hst. injection Hst as <-.
  split_and!; [lia | done |].
  intros date status Hd.
  destruct (decide (date = "2026-02-01"%string)) as [->|H1];
    [| by rewrite lookup_singleton_ne in Hd].
  rewrite lookup_singleton_eq in Hd. injection Hd as <-.
  split; [reflexivity | unfold valid_status, VALID_STATUSES; set_solver].
Defined.

End summary_after_add.
